(** * PE resource-directory archive decoder (dec/microsoft/exe_archive_decoder.cc)

    A shallow embedding of the decoder: the header model, the address
    translator [RvaHelper], the resource-tree crawler and the decoder
    facade, followed by the properties of the specification that were
    checked against them. *)

From Stdlib Require Import ZArith List String Ascii Bool Lia.
From Stdlib.Strings Require Import Byte.
From Stdlib Require Import DecimalString.
From Stdlib Require DecimalPos DecimalZ.
Import ListNotations.
Open Scope Z_scope.

(** ** Fixed-width unsigned integers

    [u16], [u32], [u64] and [size_t] values are integers in [Z]; every
    arithmetic result is reduced modulo the width of its C++ type. *)

Definition wrap (bits x : Z) : Z := x mod 2 ^ bits.
Definition u8 (x : Z) : Z := wrap 8 x.
Definition u16 (x : Z) : Z := wrap 16 x.
Definition u32 (x : Z) : Z := wrap 32 x.
Definition u64 (x : Z) : Z := wrap 64 x.
(** [size_t] and [uoff_t] are taken to be 64 bits wide. *)
Definition size_t (x : Z) : Z := wrap 64 x.

(** ** Outcomes of a call

    [Done] is a normal return, [Throw] a C++ exception derived from
    [std::exception], [Diverge] a recursion that has not returned within
    the fuel it was given, and [Undefined] an operation whose behaviour
    the language leaves undefined (the text names the operation). *)

Inductive exn : Type :=
| EofError
| CorruptDataError (msg : string)
| EncodingError
| BadAlloc.

Inductive outcome (A : Type) : Type :=
| Done (a : A)
| Throw (e : exn)
| Diverge
| Undefined (what : string).
Arguments Done {A} a.
Arguments Throw {A} e.
Arguments Diverge {A}.
Arguments Undefined {A} what.

(** ** Computations over a mutable state

    A computation maps the state before to an outcome and the state after.
    The state survives an exception, as the stream cursor, the collected
    entries and the log do in the C++ program. *)

Definition M (St A : Type) : Type := St -> outcome A * St.

Definition ret {St A : Type} (a : A) : M St A := fun s => (Done a, s).

Definition bind {St A B : Type} (c : M St A) (f : A -> M St B) : M St B :=
  fun s =>
    match c s with
    | (Done a, s') => f a s'
    | (Throw e, s') => (Throw e, s')
    | (Diverge, s') => (Diverge, s')
    | (Undefined w, s') => (Undefined w, s')
    end.

Definition throw {St A : Type} (e : exn) : M St A := fun s => (Throw e, s).

(** [try { c } catch (const std::exception &e) { handler e }] *)
Definition try_catch {St A : Type} (c : M St A) (handler : exn -> M St A) : M St A :=
  fun s =>
    match c s with
    | (Throw e, s') => handler e s'
    | r => r
    end.

(** Lifting of a finished pure call. *)
Definition lift_outcome {St A : Type} (o : outcome A) : M St A := fun s => (o, s).

Declare Scope monad_scope.
Delimit Scope monad_scope with monad.
Notation "x <- c1 ;; c2" := (bind c1 (fun x => c2))
  (at level 61, c1 at next level, right associativity) : monad_scope.
Notation "c1 ;; c2" := (bind c1 (fun _ => c2))
  (at level 61, right associativity) : monad_scope.
Open Scope monad_scope.

(** [for (auto i : algo::range(n)) v.push_back(c)] *)
Fixpoint repeat_read {St A : Type} (n : nat) (c : M St A) : M St (list A) :=
  match n with
  | O => ret []
  | S n' => x <- c ;; xs <- repeat_read n' c ;; ret (x :: xs)
  end.

(** ** The byte stream *)

Module io.
Record IStream : Type := mk {
  buffer : list byte;
  position : Z
}.

Definition size (s : IStream) : Z := Z.of_nat (List.length (buffer s)).

(** Little-endian value of a byte string. *)
Fixpoint le_value (bs : list byte) : Z :=
  match bs with
  | [] => 0
  | b :: rest => Z.of_N (Byte.to_N b) + 256 * le_value rest
  end.

(** Modelled from the spec: the byte-stream abstraction [io::IStream]
    (section 6: absolute seek, tell, read, typed little-endian reads, skip
    and the scoped peek), whose implementation is not part of the decoder.
    Exhausting the stream, by a read or by a seek past its end, raises the
    end-of-stream error and leaves the cursor where it was. *)
Definition tell : M IStream Z := fun s => (Done (position s), s).

Definition seek (offset : Z) : M IStream unit := fun s =>
  if offset >? size s then (Throw EofError, s)
  else (Done tt, mk (buffer s) offset).

Definition skip (n : Z) : M IStream unit := fun s =>
  seek (position s + n) s.

(** The [n] bytes of [buf] from offset [pos] on. *)
Definition slice (buf : list byte) (pos n : Z) : list byte :=
  firstn (Z.to_nat n) (skipn (Z.to_nat pos) buf).

Definition read (n : Z) : M IStream (list byte) := fun s =>
  if position s + n >? size s then (Throw EofError, s)
  else (Done (slice (buffer s) (position s) n), mk (buffer s) (position s + n)).

Definition read_u8 : M IStream Z := bs <- read 1 ;; ret (le_value bs).
Definition read_le_u16 : M IStream Z := bs <- read 2 ;; ret (le_value bs).
Definition read_le_u32 : M IStream Z := bs <- read 4 ;; ret (le_value bs).
Definition read_le_u64 : M IStream Z := bs <- read 8 ;; ret (le_value bs).
End io.

(** ** Header model *)

Module DosHeader.
Record t : Type := mk {
  magic : list byte;
  e_cblp : Z; e_cp : Z; e_crlc : Z; e_cparhdr : Z;
  e_minalloc : Z; e_maxalloc : Z; e_ss : Z; e_sp : Z;
  e_csum : Z; e_ip : Z; e_cs : Z; e_lfarlc : Z; e_ovno : Z;
  e_oemid : Z; e_oeminfo : Z;
  e_lfanew : Z
}.

Definition DosHeader : M io.IStream t :=
  magic      <- io.read 2 ;;
  e_cblp     <- io.read_le_u16 ;;
  e_cp       <- io.read_le_u16 ;;
  e_crlc     <- io.read_le_u16 ;;
  e_cparhdr  <- io.read_le_u16 ;;
  e_minalloc <- io.read_le_u16 ;;
  e_maxalloc <- io.read_le_u16 ;;
  e_ss       <- io.read_le_u16 ;;
  e_sp       <- io.read_le_u16 ;;
  e_csum     <- io.read_le_u16 ;;
  e_ip       <- io.read_le_u16 ;;
  e_cs       <- io.read_le_u16 ;;
  e_lfarlc   <- io.read_le_u16 ;;
  e_ovno     <- io.read_le_u16 ;;
  io.skip (2 * 4) ;;
  e_oemid    <- io.read_le_u16 ;;
  e_oeminfo  <- io.read_le_u16 ;;
  io.skip (2 * 10) ;;
  e_lfanew   <- io.read_le_u32 ;;
  ret (mk magic e_cblp e_cp e_crlc e_cparhdr e_minalloc e_maxalloc e_ss e_sp
          e_csum e_ip e_cs e_lfarlc e_ovno e_oemid e_oeminfo e_lfanew).
End DosHeader.

Module ImageOptionalHeader.
Record t : Type := mk {
  magic : Z;
  major_linker_version : Z;
  minor_linker_version : Z;
  size_of_code : Z;
  size_of_initialized_data : Z;
  size_of_uninitialized_data : Z;
  address_of_entry_point : Z;
  base_of_code : Z;
  base_of_data : Z;
  image_base : Z;
  section_alignment : Z;
  file_alignment : Z;
  major_operating_system_version : Z;
  minor_operating_system_version : Z;
  major_image_version : Z;
  minor_image_version : Z;
  major_subsystem_version : Z;
  minor_subsystem_version : Z;
  win32_version_value : Z;
  size_of_image : Z;
  size_of_headers : Z;
  checksum : Z;
  subsystem : Z;
  dll_characteristics : Z;
  size_of_stack_reserve : Z;
  size_of_stack_commit : Z;
  size_of_heap_reserve : Z;
  size_of_heap_commit : Z;
  loader_flags : Z;
  number_of_rva_and_sizes : Z
}.

Definition ImageOptionalHeader : M io.IStream t :=
  magic                          <- io.read_le_u16 ;;
  major_linker_version           <- io.read_u8 ;;
  minor_linker_version           <- io.read_u8 ;;
  size_of_code                   <- io.read_le_u32 ;;
  size_of_initialized_data       <- io.read_le_u32 ;;
  size_of_uninitialized_data     <- io.read_le_u32 ;;
  address_of_entry_point         <- io.read_le_u32 ;;
  base_of_code                   <- io.read_le_u32 ;;
  base_of_data                   <- io.read_le_u32 ;;
  image_base                     <- io.read_le_u32 ;;
  section_alignment              <- io.read_le_u32 ;;
  file_alignment                 <- io.read_le_u32 ;;
  major_operating_system_version <- io.read_le_u16 ;;
  minor_operating_system_version <- io.read_le_u16 ;;
  major_image_version            <- io.read_le_u16 ;;
  minor_image_version            <- io.read_le_u16 ;;
  major_subsystem_version        <- io.read_le_u16 ;;
  minor_subsystem_version        <- io.read_le_u16 ;;
  win32_version_value            <- io.read_le_u32 ;;
  size_of_image                  <- io.read_le_u32 ;;
  size_of_headers                <- io.read_le_u32 ;;
  checksum                       <- io.read_le_u32 ;;
  subsystem                      <- io.read_le_u16 ;;
  dll_characteristics            <- io.read_le_u16 ;;
  let pe64 := magic =? 0x20B in
  (* the two branches of [if (pe64)] read the same four fields, as [u64]
     or as [u32] *)
  let read_word := if pe64 then io.read_le_u64 else io.read_le_u32 in
  size_of_stack_reserve <- read_word ;;
  size_of_stack_commit  <- read_word ;;
  size_of_heap_reserve  <- read_word ;;
  size_of_heap_commit   <- read_word ;;
  loader_flags <- io.read_le_u32 ;;
  number_of_rva_and_sizes <- io.read_le_u32 ;;
  ret (mk magic major_linker_version minor_linker_version size_of_code
          size_of_initialized_data size_of_uninitialized_data
          address_of_entry_point base_of_code base_of_data image_base
          section_alignment file_alignment major_operating_system_version
          minor_operating_system_version major_image_version
          minor_image_version major_subsystem_version
          minor_subsystem_version win32_version_value size_of_image
          size_of_headers checksum subsystem dll_characteristics
          size_of_stack_reserve size_of_stack_commit size_of_heap_reserve
          size_of_heap_commit loader_flags number_of_rva_and_sizes).
End ImageOptionalHeader.

Module ImageFileHeader.
Record t : Type := mk {
  machine : Z;
  number_of_sections : Z;
  timestamp : Z;
  pointer_to_symbol_table : Z;
  number_of_symbols : Z;
  size_of_optional_header : Z;
  characteristics : Z
}.

Definition ImageFileHeader : M io.IStream t :=
  machine                 <- io.read_le_u16 ;;
  number_of_sections      <- io.read_le_u16 ;;
  timestamp               <- io.read_le_u32 ;;
  pointer_to_symbol_table <- io.read_le_u32 ;;
  number_of_symbols       <- io.read_le_u32 ;;
  size_of_optional_header <- io.read_le_u16 ;;
  characteristics         <- io.read_le_u16 ;;
  ret (mk machine number_of_sections timestamp pointer_to_symbol_table
          number_of_symbols size_of_optional_header characteristics).
End ImageFileHeader.

Module ImageNtHeader.
Record t : Type := mk {
  signature : Z;
  file_header : ImageFileHeader.t;
  optional_header : ImageOptionalHeader.t
}.

Definition ImageNtHeader : M io.IStream t :=
  signature       <- io.read_le_u32 ;;
  file_header     <- ImageFileHeader.ImageFileHeader ;;
  optional_header <- ImageOptionalHeader.ImageOptionalHeader ;;
  ret (mk signature file_header optional_header).
End ImageNtHeader.

Module ImageDataDir.
Record t : Type := mk {
  virtual_address : Z;
  size : Z
}.

Definition ImageDataDir : M io.IStream t :=
  virtual_address <- io.read_le_u32 ;;
  size            <- io.read_le_u32 ;;
  ret (mk virtual_address size).
End ImageDataDir.

Module ImageSectionHeader.
Record t : Type := mk {
  name : list byte;
  virtual_size : Z;
  virtual_address : Z;
  size_of_raw_data : Z;
  pointer_to_raw_data : Z;
  pointer_to_relocations : Z;
  pointer_to_line_numbers : Z;
  number_of_relocations : Z;
  number_of_line_numbers : Z;
  characteristics : Z
}.

Definition ImageSectionHeader : M io.IStream t :=
  name                    <- io.read 8 ;;
  virtual_size            <- io.read_le_u32 ;;
  virtual_address         <- io.read_le_u32 ;;
  size_of_raw_data        <- io.read_le_u32 ;;
  pointer_to_raw_data     <- io.read_le_u32 ;;
  pointer_to_relocations  <- io.read_le_u32 ;;
  pointer_to_line_numbers <- io.read_le_u32 ;;
  number_of_relocations   <- io.read_le_u16 ;;
  number_of_line_numbers  <- io.read_le_u16 ;;
  characteristics         <- io.read_le_u32 ;;
  ret (mk name virtual_size virtual_address size_of_raw_data
          pointer_to_raw_data pointer_to_relocations pointer_to_line_numbers
          number_of_relocations number_of_line_numbers characteristics).
End ImageSectionHeader.

Module ImageResourceDir.
Record t : Type := mk {
  characteristics : Z;
  timestamp : Z;
  major_version : Z;
  minor_version : Z;
  number_of_named_entries : Z;
  number_of_id_entries : Z
}.

Definition ImageResourceDir : M io.IStream t :=
  characteristics         <- io.read_le_u32 ;;
  timestamp               <- io.read_le_u32 ;;
  major_version           <- io.read_le_u16 ;;
  minor_version           <- io.read_le_u16 ;;
  number_of_named_entries <- io.read_le_u16 ;;
  number_of_id_entries    <- io.read_le_u16 ;;
  ret (mk characteristics timestamp major_version minor_version
          number_of_named_entries number_of_id_entries).
End ImageResourceDir.

Module ImageResourceDirEntry.
Record t : Type := mk {
  offset_to_data : Z;
  name_is_string : bool;
  name_offset : Z;
  name : Z;
  id : Z;
  data_is_dir : Z
}.

Definition ImageResourceDirEntry : M io.IStream t :=
  name            <- io.read_le_u32 ;;
  offset_to_data  <- io.read_le_u32 ;;
  let id := name in
  let name_is_string := Z.shiftr name 31 >? 0 in
  let name_offset := Z.land name 0x7FFFFFFF in
  let data_is_dir := Z.shiftr offset_to_data 31 in
  let offset_to_data := Z.land offset_to_data 0x7FFFFFFF in
  ret (mk offset_to_data name_is_string name_offset name id data_is_dir).
End ImageResourceDirEntry.

Module ImageResourceDataEntry.
Record t : Type := mk {
  offset_to_data : Z;
  size : Z;
  code_page : Z
}.

Definition ImageResourceDataEntry : M io.IStream t :=
  offset_to_data <- io.read_le_u32 ;;
  size           <- io.read_le_u32 ;;
  code_page      <- io.read_le_u32 ;;
  io.skip 4 ;;
  ret (mk offset_to_data size code_page).
End ImageResourceDataEntry.

(** ** Address translator *)

Module RvaHelper.
Record t : Type := mk {
  file_alignment : Z;
  section_alignment : Z;
  sections : list ImageSectionHeader.t
}.

(** The test of the loop in [section_for_rva]; the sum is a [u32] sum. *)
Definition in_section (rva : Z) (section : ImageSectionHeader.t) : bool :=
  (rva >=? ImageSectionHeader.virtual_address section)
  && (rva <? u32 (ImageSectionHeader.virtual_address section
                  + ImageSectionHeader.virtual_size section)).

Fixpoint find_section (rva : Z) (l : list ImageSectionHeader.t)
  : outcome ImageSectionHeader.t :=
  match l with
  | [] => Throw (CorruptDataError "Section not found")
  | section :: rest =>
      if in_section rva section then Done section else find_section rva rest
  end.

Definition section_for_rva (h : t) (rva : Z) : outcome ImageSectionHeader.t :=
  find_section rva (sections h).

Definition adjust_file_alignment (h : t) (offset : Z) : Z :=
  if file_alignment h <? 0x200 then offset
  else u32 ((offset / 0x200) * 0x200).

Definition adjust_section_alignment (h : t) (offset : Z) : Z :=
  let fixed_alignment :=
    if section_alignment h <? 0x1000 then file_alignment h
    else section_alignment h in
  if negb (fixed_alignment =? 0) && negb (offset mod fixed_alignment =? 0)
  then u32 (fixed_alignment * (offset / fixed_alignment))
  else offset.

Definition rva_to_offset (h : t) (rva : Z) : outcome Z :=
  match section_for_rva h rva with
  | Done section =>
      Done (u32 (rva
                 + adjust_file_alignment h
                     (ImageSectionHeader.pointer_to_raw_data section)
                 - adjust_section_alignment h
                     (ImageSectionHeader.virtual_address section)))
  | Throw e => Throw e
  | Diverge => Diverge
  | Undefined w => Undefined w
  end.
End RvaHelper.

(** ** Text helpers *)

(** The separator of path segments, U+FF0F in UTF-8 (bytes EF BC 8F);
    "keep flat hierarchy for unpacked files". *)
Definition path_sep : string :=
  String (ascii_of_nat 239) (String (ascii_of_nat 188)
    (String (ascii_of_nat 143) EmptyString)).

Module algo.
(** [algo::format("%d", v)] for a 32-bit argument: [%d] prints it as a
    signed [int]. *)
Definition format_d (v : Z) : string :=
  let v32 := u32 v in
  let signed := if v32 <? 2 ^ 31 then v32 else v32 - 2 ^ 32 in
  NilZero.string_of_int (Z.to_int signed).

(** UTF-16LE code units of a byte string; a trailing odd byte is dropped. *)
Fixpoint code_units (bs : list byte) : list Z :=
  match bs with
  | lo :: hi :: rest =>
      (Z.of_N (Byte.to_N lo) + 256 * Z.of_N (Byte.to_N hi)) :: code_units rest
  | _ => []
  end.

(** Code points of a sequence of UTF-16 code units; [None] on an unpaired
    surrogate. *)
Fixpoint code_points (us : list Z) : option (list Z) :=
  match us with
  | [] => Some []
  | u :: rest =>
      if (0xD800 <=? u) && (u <? 0xDC00) then
        match rest with
        | lo :: rest' =>
            if (0xDC00 <=? lo) && (lo <? 0xE000) then
              option_map
                (cons (0x10000 + (u - 0xD800) * 0x400 + (lo - 0xDC00)))
                (code_points rest')
            else None
        | [] => None
        end
      else if (0xDC00 <=? u) && (u <? 0xE000) then None
      else option_map (cons u) (code_points rest)
  end.

Definition chr (x : Z) : ascii := ascii_of_N (Z.to_N (x mod 256)).

Definition utf8_encode (cp : Z) : list ascii :=
  if cp <? 0x80 then [chr cp]
  else if cp <? 0x800 then
    [chr (0xC0 + cp / 0x40); chr (0x80 + cp mod 0x40)]
  else if cp <? 0x10000 then
    [chr (0xE0 + cp / 0x1000); chr (0x80 + (cp / 0x40) mod 0x40);
     chr (0x80 + cp mod 0x40)]
  else
    [chr (0xF0 + cp / 0x40000); chr (0x80 + (cp / 0x1000) mod 0x40);
     chr (0x80 + (cp / 0x40) mod 0x40); chr (0x80 + cp mod 0x40)].

(** Modelled from the spec: the Unicode transcoding [algo::utf16_to_utf8]
    (an external collaborator of the decoder, declared in algo/locale.h):
    UTF-16LE in, UTF-8 out, an encoding error on ill-formed input. *)
Definition utf16_to_utf8 (input : list byte) : outcome string :=
  match code_points (code_units input) with
  | Some cps => Done (string_of_list_ascii (flat_map utf8_encode cps))
  | None => Throw EncodingError
  end.
End algo.

(** ** Produced entries, the log and the state of a decoder call *)

Module ArchiveEntryImpl.
Record t : Type := mk {
  path : string;
  offset : Z;
  size : Z
}.
End ArchiveEntryImpl.

(** One call of [logger.err("Can't read resource entry located at 0x%08x
    (%s)\n", offset, e.what())]: the offset and the exception caught. *)
Module LogRecord.
Record t : Type := mk {
  offset : Z;
  cause : exn
}.
End LogRecord.

(** What a decoder call can change: the cursor of the input stream, the
    entries of the [ArchiveMeta] under construction (in insertion order)
    and the lines written to the logger (in order). *)
Record state : Type := mk_state {
  input_stream : io.IStream;
  meta : list ArchiveEntryImpl.t;
  logger : list LogRecord.t
}.

Definition on_stream {A : Type} (c : M io.IStream A) : M state A :=
  fun st =>
    let (r, s') := c (input_stream st) in
    (r, mk_state s' (meta st) (logger st)).

Definition set_position (pos : Z) (st : state) : state :=
  mk_state (io.mk (io.buffer (input_stream st)) pos) (meta st) (logger st).

(** Modelled from the spec: the scoped peek of the stream (section 6), which
    runs a body at an offset and restores the prior position afterwards
    whether the body returned or threw. *)
Definition peek {A : Type} (offset : Z) (body : M state A) : M state A :=
  fun st =>
    let old_pos := io.position (input_stream st) in
    match on_stream (io.seek offset) st with
    | (Done _, st1) =>
        match body st1 with
        | (Done a, st2) => (Done a, set_position old_pos st2)
        | (Throw e, st2) => (Throw e, set_position old_pos st2)
        | r => r
        end
    | (Throw e, st1) => (Throw e, st1)
    | (Diverge, st1) => (Diverge, st1)
    | (Undefined w, st1) => (Undefined w, st1)
    end.

Definition push_back (e : ArchiveEntryImpl.t) : M state unit :=
  fun st => (Done tt, mk_state (input_stream st) (meta st ++ [e]) (logger st)).

Definition logger_err (offset : Z) (e : exn) : M state unit :=
  fun st =>
    (Done tt,
     mk_state (input_stream st) (meta st) (logger st ++ [LogRecord.mk offset e])).

(** [for (auto i : algo::range(n)) body] *)
Fixpoint for_range {St : Type} (n : nat) (body : M St unit) : M St unit :=
  match n with
  | O => ret tt
  | S n' => body ;; for_range n' body
  end.

(** ** Resource tree crawler *)

Module ResourceCrawlerArgs.
Record t : Type := mk {
  rva_helper : RvaHelper.t;
  base_offset : Z
}.
End ResourceCrawlerArgs.

Module ResourceCrawler.
Import ResourceCrawlerArgs.

Definition resource_type_name (id : Z) : string :=
  match id with
  | 1 => "CURSOR"
  | 2 => "BITMAP"
  | 3 => "ICON"
  | 4 => "MENU"
  | 5 => "DIALOG"
  | 6 => "STRING"
  | 7 => "FONT_DIRECTORY"
  | 8 => "FONT"
  | 9 => "ACCELERATOR"
  | 10 => "RC_DATA"
  | 11 => "MESSAGE_TABLE"
  | 16 => "VERSION"
  | 17 => "DLG_INCLUDE"
  | 19 => "PLUG_AND_PLAY"
  | 20 => "VXD"
  | 21 => "ANIMATED_CURSOR"
  | 22 => "ANIMATED_ICON"
  | 23 => "HTML"
  | 24 => "MANIFEST"
  | _ => algo.format_d id
  end%string.

Definition read_entry_name (args : t) (entry : ImageResourceDirEntry.t)
  : M state string :=
  if ImageResourceDirEntry.name_is_string entry then
    on_stream (io.seek
      (size_t (base_offset args + ImageResourceDirEntry.name_offset entry))) ;;
    max_size <- on_stream io.read_le_u16 ;;
    name_utf16 <- on_stream (io.read (size_t (max_size * 2))) ;;
    lift_outcome (algo.utf16_to_utf8 name_utf16)
  else
    ret (resource_type_name (ImageResourceDirEntry.id entry)).

Definition process_entry (args : t) (offset : Z) (path : string)
  : M state unit :=
  on_stream (io.seek (size_t (base_offset args + offset))) ;;
  resource_entry <- on_stream ImageResourceDataEntry.ImageResourceDataEntry ;;
  entry_offset <- lift_outcome
    (RvaHelper.rva_to_offset (rva_helper args)
       (ImageResourceDataEntry.offset_to_data resource_entry)) ;;
  push_back
    (ArchiveEntryImpl.mk path entry_offset
       (ImageResourceDataEntry.size resource_entry)).

Definition entry_path (path name : string) : string :=
  if String.eqb path "" then name else (path ++ path_sep ++ name)%string.

(** The body of the [peek] in [process_dir]: the name of the entry, the
    path of the child, and the descent into the subdirectory or the leaf.
    [descend] is the recursive call of [process_dir]. *)
Definition entry_body (args : t) (descend : Z -> string -> M state unit)
    (path : string) (entry : ImageResourceDirEntry.t) : M state unit :=
  name <- read_entry_name args entry ;;
  let entry_path := entry_path path name in
  if negb (ImageResourceDirEntry.data_is_dir entry =? 0)
  then descend (ImageResourceDirEntry.offset_to_data entry) entry_path
  else process_entry args (ImageResourceDirEntry.offset_to_data entry) entry_path.

(** The body of the loop of [process_dir] for an entry already decoded:
    the [try] block with its [peek], and the [catch] that logs. *)
Definition process_dir_entry (args : t)
    (descend : Z -> string -> M state unit)
    (path : string) (entry : ImageResourceDirEntry.t) : M state unit :=
  try_catch
    (pos <- on_stream io.tell ;;
     peek pos (entry_body args descend path entry))
    (fun e =>
       logger_err
         (size_t (base_offset args
                  + ImageResourceDirEntry.offset_to_data entry)) e).

(** One turn of the loop of [process_dir]: the next entry record is decoded,
    outside the [try] block, and processed. *)
Definition process_dir_step (args : t)
    (descend : Z -> string -> M state unit) (path : string) : M state unit :=
  entry <- on_stream ImageResourceDirEntry.ImageResourceDirEntry ;;
  process_dir_entry args descend path entry.

(** [fuel] bounds the depth of the recursion; the C++ function has no
    such bound, and a call that needs more depth than [fuel] is
    [Diverge]. *)
Fixpoint process_dir (fuel : nat) (args : t) (offset : Z) (path : string)
  : M state unit :=
  match fuel with
  | O => fun st => (Diverge, st)
  | S fuel' =>
      on_stream (io.seek (size_t (base_offset args + offset))) ;;
      dir <- on_stream ImageResourceDir.ImageResourceDir ;;
      let entry_count :=
        ImageResourceDir.number_of_named_entries dir
        + ImageResourceDir.number_of_id_entries dir in
      for_range (Z.to_nat entry_count)
        (process_dir_step args (process_dir fuel' args) path)
  end.

Definition crawl (fuel : nat) (args : t) : M state unit :=
  process_dir fuel args 0 "".
End ResourceCrawler.

(** ** Decoder facade *)

Module ExeArchiveDecoder.
Definition bstr_eqb (a b : list byte) : bool :=
  if list_eq_dec Byte.byte_eq_dec a b then true else false.

Definition MZ : list byte := ["M"%byte; "Z"%byte].

Definition is_recognized_impl : M io.IStream bool :=
  dos_header <- DosHeader.DosHeader ;;
  ret (bstr_eqb (DosHeader.magic dos_header) MZ).

(** [data_dirs[index]]: reading past the end of a [std::vector] through
    [operator[]] is undefined behaviour. *)
Definition vector_at {St A : Type} (what : string) (v : list A) (index : nat)
  : M St A :=
  match nth_error v index with
  | Some x => ret x
  | None => fun st => (Undefined what, st)
  end.

Section Allocator.
(** Whether the allocator can hand out the storage of a vector of [n]
    elements is decided by the machine, not by the program:
    [can_reserve n] tells. *)
Variable can_reserve : Z -> bool.

(** [v.reserve(n)] on an empty [std::vector]: nothing is allocated for
    [n = 0]; otherwise [std::bad_alloc] is thrown when the storage cannot
    be had.  [n] is below [2 ^ 32] here and so below [max_size()]:
    [std::length_error] does not arise. *)
Definition reserve_fails (n : Z) : bool := (0 <? n) && negb (can_reserve n).

Definition vector_reserve {St : Type} (n : Z) : M St unit :=
  fun st => if reserve_fails n then (Throw BadAlloc, st) else (Done tt, st).

(** The header-reading prefix of [read_meta_impl]: the NT header, the data
    directories and the section table, as [read_meta_impl] reads them
    before it indexes [data_dirs]. *)
Definition read_headers
  : M state (ImageNtHeader.t * list ImageDataDir.t * list ImageSectionHeader.t) :=
  dos_header <- on_stream DosHeader.DosHeader ;;
  on_stream (io.seek (DosHeader.e_lfanew dos_header)) ;;
  nt_header <- on_stream ImageNtHeader.ImageNtHeader ;;
  let data_dir_count :=
    ImageOptionalHeader.number_of_rva_and_sizes
      (ImageNtHeader.optional_header nt_header) in
  vector_reserve data_dir_count ;;
  data_dirs <- on_stream
    (repeat_read (Z.to_nat data_dir_count) ImageDataDir.ImageDataDir) ;;
  sections <- on_stream
    (repeat_read
       (Z.to_nat (ImageFileHeader.number_of_sections
                    (ImageNtHeader.file_header nt_header)))
       ImageSectionHeader.ImageSectionHeader) ;;
  ret (nt_header, data_dirs, sections).

(** What [read_meta_impl] does once the headers are read. *)
Definition enumerate_resources (fuel : nat) (nt_header : ImageNtHeader.t)
    (data_dirs : list ImageDataDir.t) (sections : list ImageSectionHeader.t)
  : M state (list ArchiveEntryImpl.t) :=
  let optional_header := ImageNtHeader.optional_header nt_header in
  let rva_helper :=
    RvaHelper.mk (ImageOptionalHeader.file_alignment optional_header)
      (ImageOptionalHeader.section_alignment optional_header) sections in
  resource_dir <- vector_at "data_dirs[2]" data_dirs 2 ;;
  base_offset <- lift_outcome
    (RvaHelper.rva_to_offset rva_helper
       (ImageDataDir.virtual_address resource_dir)) ;;
  (fun st => (Done tt, mk_state (input_stream st) [] (logger st))) ;;
  ResourceCrawler.crawl fuel (ResourceCrawlerArgs.mk rva_helper base_offset) ;;
  (fun st => (Done (meta st), st)).

(** [fuel] is the fuel of the crawl. *)
Definition read_meta_impl (fuel : nat) : M state (list ArchiveEntryImpl.t) :=
  dos_header <- on_stream DosHeader.DosHeader ;;
  on_stream (io.seek (DosHeader.e_lfanew dos_header)) ;;
  nt_header <- on_stream ImageNtHeader.ImageNtHeader ;;
  let optional_header := ImageNtHeader.optional_header nt_header in
  let data_dir_count :=
    ImageOptionalHeader.number_of_rva_and_sizes optional_header in
  vector_reserve data_dir_count ;;
  data_dirs <- on_stream
    (repeat_read (Z.to_nat data_dir_count) ImageDataDir.ImageDataDir) ;;
  sections <- on_stream
    (repeat_read
       (Z.to_nat (ImageFileHeader.number_of_sections
                    (ImageNtHeader.file_header nt_header)))
       ImageSectionHeader.ImageSectionHeader) ;;
  let rva_helper :=
    RvaHelper.mk (ImageOptionalHeader.file_alignment optional_header)
      (ImageOptionalHeader.section_alignment optional_header) sections in
  resource_dir <- vector_at "data_dirs[2]" data_dirs 2 ;;
  base_offset <- lift_outcome
    (RvaHelper.rva_to_offset rva_helper
       (ImageDataDir.virtual_address resource_dir)) ;;
  (fun st => (Done tt, mk_state (input_stream st) [] (logger st))) ;;
  ResourceCrawler.crawl fuel (ResourceCrawlerArgs.mk rva_helper base_offset) ;;
  (fun st => (Done (meta st), st)).
End Allocator.
End ExeArchiveDecoder.

(** ** Sample images

    Builders of little-endian byte strings and of a small PE image with one
    section that holds the resource tree, used to run the decoder. *)

Module Samples.
Definition byte_of (x : Z) : byte :=
  match Byte.of_N (Z.to_N (x mod 256)) with
  | Some b => b
  | None => "000"%byte
  end.

Definition le16 (x : Z) : list byte := [byte_of x; byte_of (x / 2 ^ 8)].
Definition le32 (x : Z) : list byte :=
  [byte_of x; byte_of (x / 2 ^ 8); byte_of (x / 2 ^ 16); byte_of (x / 2 ^ 24)].
Definition zeros (n : nat) : list byte := repeat "000"%byte n.
Definition pad_to (n : nat) (bs : list byte) : list byte :=
  bs ++ zeros (n - List.length bs).

Definition dos_header : list byte :=
  ExeArchiveDecoder.MZ ++ zeros 58 ++ le32 64.

(** Signature, file header with one section, and the 96-byte optional
    header with file alignment 0x200 and section alignment 0x1000. *)
Definition nt_header (magic data_dir_count : Z) : list byte :=
  le32 0x4550
  ++ le16 0x14C ++ le16 1 ++ zeros 12 ++ le16 96 ++ le16 0
  ++ le16 magic ++ zeros 30 ++ le32 0x1000 ++ le32 0x200 ++ zeros 52
  ++ le32 data_dir_count.

Definition data_dir (rva size : Z) : list byte := le32 rva ++ le32 size.

Definition section_header (vsize va raw_size raw_ptr : Z) : list byte :=
  zeros 8 ++ le32 vsize ++ le32 va ++ le32 raw_size ++ le32 raw_ptr
  ++ zeros 16.

(** An image whose only section maps addresses 0x1000..0x1FFF to the file
    offsets from 0x200 on, where [rsrc] is stored; the data directories are
    the first [data_dir_count] of export, import and resource tables. *)
Definition pe_image (magic : Z) (data_dir_count : nat) (rsrc : list byte)
  : list byte :=
  pad_to 512
    (dos_header
     ++ nt_header magic (Z.of_nat data_dir_count)
     ++ firstn (data_dir_count * 8)
          (data_dir 0 0 ++ data_dir 0 0 ++ data_dir 0x1000 0x1000)
     ++ section_header 0x1000 0x1000 0x200 0x200)
  ++ rsrc.

Definition dir_header (named ids : Z) : list byte :=
  zeros 12 ++ le16 named ++ le16 ids.
Definition dir_entry (name offset : Z) : list byte := le32 name ++ le32 offset.
Definition data_entry (rva size : Z) : list byte :=
  le32 rva ++ le32 size ++ zeros 8.
Definition high_bit : Z := 0x80000000.

(** A tree with three root entries: the directory named "A", which holds
    the directory ICON (id 3), which holds the leaf 1033; an entry whose
    name offset lies past the end of the file; and the leaf MANIFEST
    (id 24). *)
Definition tree : list byte :=
  pad_to 256
    ((* 0 *) dir_header 2 1
     ++ dir_entry (high_bit + 120) (high_bit + 40)
     ++ dir_entry (high_bit + 0x7FFFFFF0) 104
     ++ dir_entry 24 104
     ++ (* 40 *) dir_header 0 1 ++ dir_entry 3 (high_bit + 64)
     ++ (* 64 *) dir_header 0 1 ++ dir_entry 1033 88
     ++ (* 88 *) data_entry (0x1000 + 200) 4
     ++ (* 104 *) data_entry (0x1000 + 204) 2
     ++ (* 120 *) le16 1 ++ le16 65).


(** A tree as [tree], except that the name of the directory under "A" and
    the name of the leaf are strings of length zero. *)
Definition empty_names_tree : list byte :=
  pad_to 256
    ((* 0 *) dir_header 1 0
     ++ dir_entry (high_bit + 120) (high_bit + 24)
     ++ (* 24 *) dir_header 1 0 ++ dir_entry (high_bit + 124) (high_bit + 48)
     ++ (* 48 *) dir_header 1 0 ++ dir_entry (high_bit + 124) 88
     ++ zeros 16
     ++ (* 88 *) data_entry (0x1000 + 200) 4
     ++ zeros 16
     ++ (* 120 *) le16 1 ++ le16 65
     ++ (* 124 *) le16 0).

Definition image : list byte := pe_image 0x10B 3 tree.
Definition empty_names_image : list byte := pe_image 0x10B 3 empty_names_tree.
(** An image that declares two data directories only. *)
Definition two_dirs_image : list byte := pe_image 0x10B 2 tree.

Definition start (image : list byte) : state :=
  mk_state (io.mk image 0) [] [].

(** An allocator that never runs out. *)
Definition ample : Z -> bool := fun _ => true.

(** The translator and the crawler arguments that [read_meta_impl] builds
    for the images above. *)
Definition rva_helper : RvaHelper.t :=
  RvaHelper.mk 0x200 0x1000
    [ImageSectionHeader.mk (zeros 8) 0x1000 0x1000 0x200 0x200 0 0 0 0 0].

Definition args : ResourceCrawlerArgs.t :=
  ResourceCrawlerArgs.mk rva_helper 512.
End Samples.

(** ** The alignment rules as the specification words them *)

Module Spec.
(** "rounds down to a 512-byte boundary when the header's declared file
    alignment is below 512, otherwise leaves x unchanged" *)
Definition align_file (file_alignment x : Z) : Z :=
  if file_alignment <? 512 then 512 * (x / 512) else x.

(** "the file alignment when the declared section alignment is below
    4096, otherwise the declared section alignment itself" *)
Definition effective_section_alignment (file_alignment section_alignment : Z)
  : Z :=
  if section_alignment <? 4096 then file_alignment else section_alignment.

(** The address [rva] lies in the half-open interval of [section]; the
    upper end is the [u32] sum the code computes. *)
Definition contains (section : ImageSectionHeader.t) (rva : Z) : Prop :=
  ImageSectionHeader.virtual_address section <= rva
    < u32 (ImageSectionHeader.virtual_address section
           + ImageSectionHeader.virtual_size section).
(** A stream computation that consumes exactly [k] bytes: it returns and
    advances the cursor by [k] when [k] bytes are left, and raises the
    end-of-stream error when the cursor is within the stream and fewer than
    [k] bytes are left. *)
Definition reads {A : Type} (k : Z) (c : M io.IStream A) : Prop :=
  0 <= k
  /\ forall buf p,
       (p + k <= Z.of_nat (List.length buf) ->
          exists v, c (io.mk buf p) = (Done v, io.mk buf (p + k)))
       /\ (p <= Z.of_nat (List.length buf) < p + k ->
            exists p', c (io.mk buf p) = (Throw EofError, io.mk buf p')).
(** *** Outcomes *)

Definition throws {A : Type} (o : outcome A) : Prop :=
  match o with Throw _ => True | _ => False end.

Definition diverges {A : Type} (o : outcome A) : Prop :=
  match o with Diverge => True | _ => False end.

(** The call came back, with a value or with an exception. *)
Definition finishes {A : Type} (o : outcome A) : Prop :=
  match o with Done _ | Throw _ => True | _ => False end.

(** No undefined behaviour; running out of fuel only where [div] allows. *)
Definition allowed {A : Type} (div : bool) (o : outcome A) : Prop :=
  match o with
  | Done _ | Throw _ => True
  | Diverge => div = true
  | Undefined _ => False
  end.

(** *** What a computation leaves behind *)

(** A stream computation never changes the bytes of the stream, and it
    finishes. *)
Definition stream_ok {A : Type} (c : M io.IStream A) : Prop :=
  forall s, io.buffer (snd (c s)) = io.buffer s /\ finishes (fst (c s)).

(** From [st] to [st']: the bytes of the stream are the same, entries were
    only appended, each of them satisfying [Q], and log lines were only
    appended. *)
Definition extends (Q : ArchiveEntryImpl.t -> Prop) (st st' : state) : Prop :=
  io.buffer (input_stream st') = io.buffer (input_stream st)
  /\ (exists new, meta st' = meta st ++ new /\ Forall Q new)
  /\ (exists lines, logger st' = logger st ++ lines).

Definition inv {A : Type} (div : bool) (Q : ArchiveEntryImpl.t -> Prop)
    (c : M state A) : Prop :=
  forall st, extends Q st (snd (c st)) /\ allowed div (fst (c st)).

(** *** Names and paths *)

(** [name] is the display name that [read_entry_name] resolves for some
    directory entry. *)
Definition resolved (args : ResourceCrawlerArgs.t) (name : string) : Prop :=
  exists entry st,
    fst (ResourceCrawler.read_entry_name args entry st) = Done name.

(** The names left after the empty names at the head are dropped. *)
Fixpoint skip_empty (names : list string) : list string :=
  match names with
  | [] => []
  | name :: rest =>
      if String.eqb name "" then skip_empty rest else name :: rest
  end.

(** The path that [entry_path] accumulates from [path] along [names],
    outermost name first. *)
Definition path_along (path : string) (names : list string) : string :=
  fold_left ResourceCrawler.entry_path names path.

(** The path of [e] is accumulated from [path] along one or more resolved
    names. *)
Definition path_from (args : ResourceCrawlerArgs.t) (path : string)
    (e : ArchiveEntryImpl.t) : Prop :=
  exists names,
    names <> []
    /\ Forall (resolved args) names
    /\ ArchiveEntryImpl.path e = path_along path names.

(** *** Nesting of the directories on disk *)


(** The subdirectory, if any, behind entry record [j] of the table that
    starts at [start] does not run out of fuel. *)
Definition descent_returns (args : ResourceCrawlerArgs.t) (fuel : nat)
    (buf : list byte) (start : Z) (j : nat) : Prop :=
  forall entry s',
    ImageResourceDirEntry.ImageResourceDirEntry
      (io.mk buf (start + 16 + 8 * Z.of_nat j)) = (Done entry, s') ->
    ImageResourceDirEntry.data_is_dir entry <> 0 ->
    forall path' st',
      io.buffer (input_stream st') = buf ->
      ~ diverges
          (fst (ResourceCrawler.process_dir fuel args
                  (ImageResourceDirEntry.offset_to_data entry) path' st')).
End Spec.

(** ** Extraction of one entry *)

(** [io::File] as [read_file_impl] builds it: a path and the bytes of its
    stream. *)
Module File.
Record t : Type := mk {
  path : string;
  data : list byte
}.
End File.

Section ReadFile.
(** [io::File::guess_extension], which is not part of the decoder. *)
Variable guess_extension : File.t -> File.t.

(** [ExeArchiveDecoder::read_file_impl]; the logger and the meta are not
    used by the function. *)
Definition read_file_impl (entry : ArchiveEntryImpl.t) : M io.IStream File.t :=
  io.seek (ArchiveEntryImpl.offset entry) ;;
  data <- io.read (ArchiveEntryImpl.size entry) ;;
  ret (guess_extension (File.mk (ArchiveEntryImpl.path entry) data)).
End ReadFile.

(** ** More sample images *)

Module MoreSamples.
(** An image whose resource data directory names the address 0x5000, which
    lies in no section. *)
Definition unmapped_image : list byte :=
  Samples.pad_to 512
    (Samples.dos_header
     ++ Samples.nt_header 0x10B 3
     ++ Samples.data_dir 0 0 ++ Samples.data_dir 0 0
     ++ Samples.data_dir 0x5000 0x100
     ++ Samples.section_header 0x1000 0x1000 0x200 0x200).

(** A tree whose root directory has no entries. *)
Definition empty_tree : list byte := Samples.dir_header 0 0.

(** A root directory that declares two entries in a file that ends after
    the first.  The first entry is the leaf MANIFEST (id 24) whose data
    entry is stored at offset 0, over the header of the directory: its
    address 0x1000 and its size 4 are the first two words of the header. *)
Definition truncated_table_tree : list byte :=
  Samples.le32 0x1000 ++ Samples.le32 4 ++ Samples.zeros 4
  ++ Samples.le16 0 ++ Samples.le16 2
  ++ Samples.dir_entry 24 0.

Definition truncated_table_image : list byte :=
  Samples.pe_image 0x10B 3 truncated_table_tree.

(** A root directory that lists itself as a subdirectory under a name
    stored past the end of the file. *)
Definition unnamed_cycle_tree : list byte :=
  Samples.dir_header 1 0
  ++ Samples.dir_entry (Samples.high_bit + 0x7FFFFFF0) (Samples.high_bit + 0).

(** A translator with one section whose end [virtual_address +
    virtual_size] lies past 2^32. *)
Definition overflowing_helper : RvaHelper.t :=
  RvaHelper.mk 0x200 0x1000
    [ImageSectionHeader.mk (Samples.zeros 8) 0x2000 0xFFFFF000 0x2000 0x400
       0 0 0 0 0].

(** A translator with one section whose raw data starts at 0x345, which is
    no multiple of 512. *)
Definition unaligned_helper : RvaHelper.t :=
  RvaHelper.mk 0x200 0x1000
    [ImageSectionHeader.mk (Samples.zeros 8) 0x1000 0x1000 0x200 0x345
       0 0 0 0 0].
End MoreSamples.

(** ** The address translation in unbounded integers *)

Module Plain.
(** The raw-data pointer as [rva_to_offset] uses it: unchanged when the
    declared file alignment is below 512, rounded down to a multiple of 512
    otherwise. *)
Definition align_file (file_alignment x : Z) : Z :=
  if file_alignment <? 512 then x else 512 * (x / 512).

(** The virtual address as [rva_to_offset] uses it: rounded down to a
    multiple of the effective section alignment, unchanged when that is
    0. *)
Definition align_section (file_alignment section_alignment x : Z) : Z :=
  let d := Spec.effective_section_alignment file_alignment section_alignment in
  if d =? 0 then x else d * (x / d).
End Plain.

(** ** The resource tree as it lies in the file *)

Module OnDisk.
Section Tree.
Variable args : ResourceCrawlerArgs.t.
Variable buf : list byte.

(** The byte of the file at which the structure stored at [offset] of the
    resource section starts. *)
Definition start_of (offset : Z) : Z :=
  size_t (ResourceCrawlerArgs.base_offset args + offset).

(** Record [i] of the entry table of the directory stored at [offset]:
    the header of the directory decodes, it declares more than [i]
    entries, and the record decodes. *)
Definition entry_at (offset : Z) (i : nat) : option ImageResourceDirEntry.t :=
  let start := start_of offset in
  match ImageResourceDir.ImageResourceDir (io.mk buf start) with
  | (Done dir, _) =>
      if Z.of_nat i <? ImageResourceDir.number_of_named_entries dir
                       + ImageResourceDir.number_of_id_entries dir
      then
        match ImageResourceDirEntry.ImageResourceDirEntry
                (io.mk buf (start + 16 + 8 * Z.of_nat i)) with
        | (Done entry, _) => Some entry
        | _ => None
        end
      else None
  | _ => None
  end.

(** The display name of [entry], resolved from the bytes of the file. *)
Definition name_of (entry : ImageResourceDirEntry.t) : outcome string :=
  fst (ResourceCrawler.read_entry_name args entry
         (mk_state (io.mk buf 0) [] [])).

(** From the directory stored at [offset] a chain of entries leads to the
    entry [leaf]: every entry of the chain but the last is a subdirectory
    entry, recorded in the table of the directory that the entry before it
    points to, and the last is recorded there as a leaf.  [names] are the
    display names of the entries of the chain, outermost first. *)
Inductive leads_to : Z -> list string -> ImageResourceDirEntry.t -> Prop :=
| leads_to_leaf (offset : Z) (i : nat) (entry : ImageResourceDirEntry.t)
    (name : string) :
    entry_at offset i = Some entry ->
    ImageResourceDirEntry.data_is_dir entry = 0 ->
    name_of entry = Done name ->
    leads_to offset [name] entry
| leads_to_subdirectory (offset : Z) (i : nat)
    (entry : ImageResourceDirEntry.t) (name : string) (names : list string)
    (leaf : ImageResourceDirEntry.t) :
    entry_at offset i = Some entry ->
    ImageResourceDirEntry.data_is_dir entry <> 0 ->
    name_of entry = Done name ->
    leads_to (ImageResourceDirEntry.offset_to_data entry) names leaf ->
    leads_to offset (name :: names) leaf.

(** The offset and the size of [e] are those of the data entry stored at
    [offset]: the data entry lies within the file, its first word is an
    address that the translator maps to the offset of [e], its second word
    is the size of [e]. *)
Definition resource_at (offset : Z) (e : ArchiveEntryImpl.t) : Prop :=
  let start := start_of offset in
  start + 16 <= Z.of_nat (List.length buf)
  /\ RvaHelper.rva_to_offset (ResourceCrawlerArgs.rva_helper args)
       (io.le_value (io.slice buf start 4))
     = Done (ArchiveEntryImpl.offset e)
  /\ ArchiveEntryImpl.size e = io.le_value (io.slice buf (start + 4) 4).

(** [e] is the entry of a leaf that a chain of entries leads to from the
    directory stored at [offset]: its offset and size are those of the data
    entry the leaf points to, and its path is accumulated from [path] along
    the display names of the chain, outermost first. *)
Definition produced_along (offset : Z) (path : string)
    (e : ArchiveEntryImpl.t) : Prop :=
  exists names leaf,
    leads_to offset names leaf
    /\ resource_at (ImageResourceDirEntry.offset_to_data leaf) e
    /\ ArchiveEntryImpl.path e = Spec.path_along path names.

End Tree.
End OnDisk.

(** The ids of the [switch] of [read_entry_name]. *)
Definition resource_type_ids : list Z :=
  [1; 2; 3; 4; 5; 6; 7; 8; 9; 10; 11; 16; 17; 19; 20; 21; 22; 23; 24].

(** * Properties *)

Lemma u32_small (x : Z) : 0 <= x < 2 ^ 32 -> u32 x = x.
Proof. intros H. unfold u32, wrap. apply Z.mod_small. exact H. Qed.

Lemma round_down_bounds (d x : Z) :
  0 < d -> 0 <= x -> 0 <= d * (x / d) <= x /\ x < d * (x / d) + d.
Proof.
  intros Hd Hx.
  pose proof (Z.mul_div_le x d Hd).
  pose proof (Z.mod_pos_bound x d Hd).
  pose proof (Z.div_mod x d ltac:(lia)).
  pose proof (Z.div_pos x d Hx Hd).
  nia.
Qed.

(** ** Address translator *)

Section AddressTranslator.
Variable h : RvaHelper.t.

(** C1, as the code has it: a declared file alignment below 512 leaves
    [pointer_to_raw_data] unchanged; a declared file alignment of 512 or
    more rounds it down to a 512-byte boundary. *)
Theorem adjust_file_alignment_rounds_when_large (offset : Z) :
  0 <= offset < 2 ^ 32 ->
  (RvaHelper.file_alignment h < 512 ->
     RvaHelper.adjust_file_alignment h offset = offset)
  /\ (512 <= RvaHelper.file_alignment h ->
        RvaHelper.adjust_file_alignment h offset = 512 * (offset / 512)
        /\ RvaHelper.adjust_file_alignment h offset mod 512 = 0
        /\ RvaHelper.adjust_file_alignment h offset <= offset
             < RvaHelper.adjust_file_alignment h offset + 512).
Proof.
  intros Hoff. unfold RvaHelper.adjust_file_alignment.
  change 0x200 with 512.
  split; intros Hfa.
  - apply Z.ltb_lt in Hfa. now rewrite Hfa.
  - apply Z.ltb_ge in Hfa. rewrite Hfa.
    destruct (round_down_bounds 512 offset ltac:(lia) ltac:(lia)) as [Hlo Hhi].
    rewrite Z.mul_comm, u32_small by lia.
    repeat split; try lia.
    rewrite Z.mul_comm. apply Z.mod_mul. lia.
Qed.

(** C6: the section-alignment adjustment rounds its argument down to a
    multiple of the effective section alignment when that divisor is
    nonzero, and leaves it unchanged when the divisor is zero or the
    argument is already a multiple; the divisor is the declared file
    alignment when the declared section alignment is below 4096 and the
    declared section alignment otherwise. *)
Theorem adjust_section_alignment_rounds_down (offset : Z) :
  0 <= offset < 2 ^ 32 ->
  0 <= RvaHelper.file_alignment h ->
  0 <= RvaHelper.section_alignment h ->
  let d := Spec.effective_section_alignment
             (RvaHelper.file_alignment h) (RvaHelper.section_alignment h) in
  let r := RvaHelper.adjust_section_alignment h offset in
  (d = 0 -> r = offset)
  /\ (d <> 0 -> r = d * (offset / d) /\ r mod d = 0 /\ r <= offset < r + d)
  /\ (offset mod d = 0 -> r = offset).
Proof.
  intros Hoff Hfa Hsa d r. subst r.
  unfold RvaHelper.adjust_section_alignment.
  change 0x1000 with 4096.
  fold (Spec.effective_section_alignment
          (RvaHelper.file_alignment h) (RvaHelper.section_alignment h)).
  fold d.
  assert (Hd : 0 <= d).
  { subst d. unfold Spec.effective_section_alignment.
    destruct (RvaHelper.section_alignment h <? 4096); assumption. }
  destruct (Z.eqb_spec d 0) as [Hz | Hnz]; cbn [negb andb].
  - split; [reflexivity |]. split; [contradiction | reflexivity].
  - destruct (round_down_bounds d offset ltac:(lia) ltac:(lia)) as [Hlo Hhi].
    assert (Hmul : (d * (offset / d)) mod d = 0)
      by (rewrite Z.mul_comm; apply Z.mod_mul; lia).
    destruct (Z.eqb_spec (offset mod d) 0) as [Hm | Hm]; cbn [negb].
    + assert (Heq : offset = d * (offset / d)).
      { pose proof (Z.div_mod offset d Hnz). lia. }
      split; [contradiction |].
      split; [| reflexivity].
      intros _. repeat split; first [lia | assumption].
    + rewrite u32_small by lia.
      split; [contradiction |].
      split; [| contradiction].
      intros _. repeat split; first [lia | assumption].
Qed.

Lemma in_section_iff (section : ImageSectionHeader.t) (rva : Z) :
  RvaHelper.in_section rva section = true <-> Spec.contains section rva.
Proof.
  unfold RvaHelper.in_section, Spec.contains.
  rewrite andb_true_iff, Z.geb_le, Z.ltb_lt. tauto.
Qed.

Lemma find_section_spec (rva : Z) (l : list ImageSectionHeader.t) :
  match RvaHelper.find_section rva l with
  | Done section =>
      exists before after,
        l = before ++ section :: after
        /\ (forall s, In s before -> ~ Spec.contains s rva)
        /\ Spec.contains section rva
  | Throw e =>
      e = CorruptDataError "Section not found"
      /\ forall s, In s l -> ~ Spec.contains s rva
  | Diverge | Undefined _ => False
  end.
Proof.
  induction l as [| s l IH]; cbn [RvaHelper.find_section].
  - split; [reflexivity | intros s []].
  - destruct (RvaHelper.in_section rva s) eqn:Hin.
    + exists [], l. split; [reflexivity |].
      split; [intros ? [] | now apply in_section_iff].
    + assert (Hs : ~ Spec.contains s rva).
      { intros Hc. apply in_section_iff in Hc. congruence. }
      destruct (RvaHelper.find_section rva l) as [sec | e | |];
        try contradiction.
      * destruct IH as (before & after & -> & Hb & Hc).
        exists (s :: before), after. split; [reflexivity |].
        split; [| exact Hc].
        intros s' [<- | Hs']; auto.
      * destruct IH as [-> Hall]. split; [reflexivity |].
        intros s' [<- | Hs']; auto.
Qed.

End AddressTranslator.


(** ** The byte stream and the header model *)

Section Stream.
Variable buf : list byte.
Variable p : Z.
Abbreviation len := (Z.of_nat (List.length buf)).

Lemma read_at (n : Z) :
  p + n <= len ->
  io.read n (io.mk buf p) = (Done (io.slice buf p n), io.mk buf (p + n)).
Proof.
  intros H. unfold io.read, io.size. cbn [io.buffer io.position].
  destruct (Z.gtb_spec (p + n) (Z.of_nat (List.length buf))) as [Hgt | _].
  - lia.
  - reflexivity.
Qed.

Lemma read_past_end (n : Z) :
  len < p + n -> io.read n (io.mk buf p) = (Throw EofError, io.mk buf p).
Proof.
  intros H. unfold io.read, io.size. cbn [io.buffer io.position].
  destruct (Z.gtb_spec (p + n) (Z.of_nat (List.length buf))) as [_ | Hle].
  - reflexivity.
  - lia.
Qed.

Lemma skip_at (n : Z) :
  p + n <= len -> io.skip n (io.mk buf p) = (Done tt, io.mk buf (p + n)).
Proof.
  intros H. unfold io.skip, io.seek, io.size. cbn [io.buffer io.position].
  destruct (Z.gtb_spec (p + n) (Z.of_nat (List.length buf))) as [Hgt | _].
  - lia.
  - reflexivity.
Qed.

Lemma skip_past_end (n : Z) :
  len < p + n -> io.skip n (io.mk buf p) = (Throw EofError, io.mk buf p).
Proof.
  intros H. unfold io.skip, io.seek, io.size. cbn [io.buffer io.position].
  destruct (Z.gtb_spec (p + n) (Z.of_nat (List.length buf))) as [_ | Hle].
  - reflexivity.
  - lia.
Qed.

Lemma read_u8_at :
  p + 1 <= len ->
  io.read_u8 (io.mk buf p)
  = (Done (io.le_value (io.slice buf p 1)), io.mk buf (p + 1)).
Proof. intros H. unfold io.read_u8, bind. now rewrite read_at. Qed.

Lemma read_le_u16_at :
  p + 2 <= len ->
  io.read_le_u16 (io.mk buf p)
  = (Done (io.le_value (io.slice buf p 2)), io.mk buf (p + 2)).
Proof. intros H. unfold io.read_le_u16, bind. now rewrite read_at. Qed.

Lemma read_le_u32_at :
  p + 4 <= len ->
  io.read_le_u32 (io.mk buf p)
  = (Done (io.le_value (io.slice buf p 4)), io.mk buf (p + 4)).
Proof. intros H. unfold io.read_le_u32, bind. now rewrite read_at. Qed.

Lemma read_le_u64_at :
  p + 8 <= len ->
  io.read_le_u64 (io.mk buf p)
  = (Done (io.le_value (io.slice buf p 8)), io.mk buf (p + 8)).
Proof. intros H. unfold io.read_le_u64, bind. now rewrite read_at. Qed.
End Stream.

Lemma reads_ret {A : Type} (a : A) : Spec.reads 0 (ret a).
Proof.
  split; [lia |]. intros buf p. split; intros H.
  - exists a. unfold ret. now rewrite Z.add_0_r.
  - lia.
Qed.

Lemma reads_bind {A B : Type} (k1 k2 : Z) (c : M io.IStream A)
    (f : A -> M io.IStream B) :
  Spec.reads k1 c -> (forall a, Spec.reads k2 (f a)) ->
  Spec.reads (k1 + k2) (bind c f).
Proof.
  intros [Hk1 Hc] Hf.
  assert (Hk2 : 0 <= k2).
  { destruct (Hc [] (- k1)) as [Hok _].
    destruct Hok as [v _]; [cbn; lia |]. apply (Hf v). }
  split; [lia |]. intros buf p. destruct (Hc buf p) as [Hok Hfail].
  split; intros H; unfold bind.
  - destruct Hok as [v ->]; [lia |].
    destruct (Hf v) as [_ Hfv]. destruct (Hfv buf (p + k1)) as [Hok2 _].
    destruct Hok2 as [w ->]; [lia |]. exists w. now rewrite Z.add_assoc.
  - destruct (Z_le_gt_dec (p + k1) (Z.of_nat (List.length buf))) as [Hle | Hgt].
    + destruct Hok as [v ->]; [lia |].
      destruct (Hf v) as [_ Hfv]. destruct (Hfv buf (p + k1)) as [_ Hfail2].
      destruct Hfail2 as [p' ->]; [lia |]. now exists p'.
    + destruct Hfail as [p' ->]; [lia |]. now exists p'.
Qed.

Lemma reads_read (n : Z) : 0 <= n -> Spec.reads n (io.read n).
Proof.
  intros Hn. split; [exact Hn |]. intros buf p. split; intros H.
  - eexists. now apply read_at.
  - exists p. apply read_past_end. lia.
Qed.

Lemma reads_skip (n : Z) : 0 <= n -> Spec.reads n (io.skip n).
Proof.
  intros Hn. split; [exact Hn |]. intros buf p. split; intros H.
  - exists tt. now apply skip_at.
  - exists p. apply skip_past_end. lia.
Qed.

Lemma reads_eq {A : Type} (k k' : Z) (c : M io.IStream A) :
  Spec.reads k c -> k = k' -> Spec.reads k' c.
Proof. now intros H <-. Qed.

Lemma reads_word {A : Type} (n : Z) (f : list byte -> A) :
  0 <= n -> Spec.reads n (bs <- io.read n ;; ret (f bs)).
Proof.
  intros Hn. apply (reads_eq (n + 0)); [| lia].
  apply reads_bind; [now apply reads_read | intros; apply reads_ret].
Qed.

Lemma reads_u8 : Spec.reads 1 io.read_u8.
Proof. apply reads_word. lia. Qed.
Lemma reads_le_u16 : Spec.reads 2 io.read_le_u16.
Proof. apply reads_word. lia. Qed.
Lemma reads_le_u32 : Spec.reads 4 io.read_le_u32.
Proof. apply reads_word. lia. Qed.
Lemma reads_le_u64 : Spec.reads 8 io.read_le_u64.
Proof. apply reads_word. lia. Qed.

Create HintDb reads.
#[local] Hint Resolve reads_ret reads_u8 reads_le_u16 reads_le_u32 reads_le_u64
  : reads.
#[local] Hint Extern 1 (Spec.reads _ (io.read _)) =>
  apply reads_read; lia : reads.
#[local] Hint Extern 1 (Spec.reads _ (io.skip _)) =>
  apply reads_skip; lia : reads.

(** A structure decoded by a fixed run of reads and skips consumes the sum
    of their widths. *)
Ltac reads_structure :=
  eapply reads_eq;
  [ repeat (eapply reads_bind; [solve [eauto with reads] | intros ?]);
    apply reads_ret
  | reflexivity ].

Lemma reads_DosHeader : Spec.reads 64 DosHeader.DosHeader.
Proof. unfold DosHeader.DosHeader. reads_structure. Qed.

Lemma reads_ImageFileHeader : Spec.reads 20 ImageFileHeader.ImageFileHeader.
Proof. unfold ImageFileHeader.ImageFileHeader. reads_structure. Qed.

Lemma reads_ImageDataDir : Spec.reads 8 ImageDataDir.ImageDataDir.
Proof. unfold ImageDataDir.ImageDataDir. reads_structure. Qed.

Lemma reads_ImageSectionHeader :
  Spec.reads 40 ImageSectionHeader.ImageSectionHeader.
Proof. unfold ImageSectionHeader.ImageSectionHeader. reads_structure. Qed.

Lemma reads_ImageResourceDir : Spec.reads 16 ImageResourceDir.ImageResourceDir.
Proof. unfold ImageResourceDir.ImageResourceDir. reads_structure. Qed.

Lemma reads_ImageResourceDirEntry :
  Spec.reads 8 ImageResourceDirEntry.ImageResourceDirEntry.
Proof. unfold ImageResourceDirEntry.ImageResourceDirEntry. reads_structure. Qed.

Lemma reads_ImageResourceDataEntry :
  Spec.reads 16 ImageResourceDataEntry.ImageResourceDataEntry.
Proof. unfold ImageResourceDataEntry.ImageResourceDataEntry. reads_structure. Qed.

(** Runs a decoder on a stream that is long enough for its reads. *)
Ltac run_reads :=
  unfold bind;
  repeat (first [ rewrite read_le_u16_at by lia
                | rewrite read_le_u32_at by lia
                | rewrite read_le_u64_at by lia
                | rewrite read_u8_at by lia
                | rewrite read_at by lia
                | rewrite skip_at by lia ];
          cbv beta iota).

Lemma bstr_eqb_eq (a b : list byte) :
  ExeArchiveDecoder.bstr_eqb a b = true <-> a = b.
Proof.
  unfold ExeArchiveDecoder.bstr_eqb.
  destruct (list_eq_dec Byte.byte_eq_dec a b); split; congruence.
Qed.

(** ** Decoder facade: detection *)

(** C3, as the code has it: detection decodes the whole 64-byte DOS header.
    When 64 bytes are left it returns, and returns true exactly when the
    first 2 bytes are "MZ"; when fewer are left it fails with the
    end-of-stream error. *)
Theorem is_recognized_impl_decodes_dos_header (buf : list byte) (p : Z) :
  (p + 64 <= Z.of_nat (List.length buf) ->
     exists recognized,
       ExeArchiveDecoder.is_recognized_impl (io.mk buf p)
       = (Done recognized, io.mk buf (p + 64))
       /\ (recognized = true <-> io.slice buf p 2 = ExeArchiveDecoder.MZ))
  /\ (p <= Z.of_nat (List.length buf) < p + 64 ->
        exists p',
          ExeArchiveDecoder.is_recognized_impl (io.mk buf p)
          = (Throw EofError, io.mk buf p')).
Proof.
  split; intros H.
  - exists (ExeArchiveDecoder.bstr_eqb (io.slice buf p 2) ExeArchiveDecoder.MZ).
    split; [| apply bstr_eqb_eq].
    unfold ExeArchiveDecoder.is_recognized_impl, DosHeader.DosHeader.
    run_reads. unfold ret. cbn [DosHeader.magic].
    do 2 f_equal. lia.
  - destruct reads_DosHeader as [_ Hr]. destruct (Hr buf p) as [_ Hfail].
    destruct (Hfail H) as [p' Hp'].
    exists p'. unfold ExeArchiveDecoder.is_recognized_impl, bind.
    now rewrite Hp'.
Qed.

(** ** Header model: the optional header *)

(** C2, as the code has it: the magic only selects the width of the four
    stack and heap fields.  Magic 0x20B reads them as 8-byte words (a
    112-byte header); every other magic, 0x10B or not, reads them as 4-byte
    words (a 96-byte header) and decoding returns normally. *)
Theorem optional_header_magic_selects_width (buf : list byte) (p : Z) :
  let magic := io.le_value (io.slice buf p 2) in
  let width := if magic =? 0x20B then 8 else 4 in
  p + 80 + 4 * width <= Z.of_nat (List.length buf) ->
  exists h,
    ImageOptionalHeader.ImageOptionalHeader (io.mk buf p)
    = (Done h, io.mk buf (p + 80 + 4 * width))
    /\ ImageOptionalHeader.magic h = magic
    /\ ImageOptionalHeader.size_of_stack_reserve h
       = io.le_value (io.slice buf (p + 72) width)
    /\ ImageOptionalHeader.size_of_stack_commit h
       = io.le_value (io.slice buf (p + 72 + width) width)
    /\ ImageOptionalHeader.size_of_heap_reserve h
       = io.le_value (io.slice buf (p + 72 + 2 * width) width)
    /\ ImageOptionalHeader.size_of_heap_commit h
       = io.le_value (io.slice buf (p + 72 + 3 * width) width)
    /\ ImageOptionalHeader.number_of_rva_and_sizes h
       = io.le_value (io.slice buf (p + 76 + 4 * width) 4).
Proof.
  intros magic width H.
  assert (Hw : width = 4 \/ width = 8)
    by (subst width; destruct (magic =? 0x20B); auto).
  unfold ImageOptionalHeader.ImageOptionalHeader.
  run_reads.
  fold magic. cbv zeta.
  destruct (magic =? 0x20B) eqn:Hm; subst width.
  - run_reads. unfold ret. eexists. split.
    + f_equal. f_equal. lia.
    + cbn [ImageOptionalHeader.magic ImageOptionalHeader.size_of_stack_reserve
           ImageOptionalHeader.size_of_stack_commit
           ImageOptionalHeader.size_of_heap_reserve
           ImageOptionalHeader.size_of_heap_commit
           ImageOptionalHeader.number_of_rva_and_sizes].
      repeat split; do 2 f_equal; lia.
  - run_reads. unfold ret. eexists. split.
    + f_equal. f_equal. lia.
    + cbn [ImageOptionalHeader.magic ImageOptionalHeader.size_of_stack_reserve
           ImageOptionalHeader.size_of_stack_commit
           ImageOptionalHeader.size_of_heap_reserve
           ImageOptionalHeader.size_of_heap_commit
           ImageOptionalHeader.number_of_rva_and_sizes].
      repeat split; do 2 f_equal; lia.
Qed.

(** ** Concrete runs *)

Lemma adjust_file_alignment_rounds_when_large_witness :
  0 <= 0x345 < 2 ^ 32
  /\ RvaHelper.adjust_file_alignment (RvaHelper.mk 0x200 0x1000 []) 0x345
     = 512 * (0x345 / 512).
Proof.
  split; [lia |].
  apply (adjust_file_alignment_rounds_when_large
           (RvaHelper.mk 0x200 0x1000 []) 0x345); cbn; lia.
Defined.

(** Against C1 as worded: with a declared file alignment of 0x100 the
    offset 0x345 is not rounded, and with a declared file alignment of
    0x200 it is rounded to 0x200. *)
Lemma adjust_file_alignment_not_as_worded :
  RvaHelper.adjust_file_alignment (RvaHelper.mk 0x100 0x1000 []) 0x345
    <> Spec.align_file 0x100 0x345
  /\ RvaHelper.adjust_file_alignment (RvaHelper.mk 0x200 0x1000 []) 0x345
    <> Spec.align_file 0x200 0x345.
Proof. split; vm_compute; discriminate. Qed.

Lemma adjust_section_alignment_rounds_down_witness :
  0 <= 0x1234 < 2 ^ 32
  /\ RvaHelper.adjust_section_alignment (RvaHelper.mk 0x200 0x800 []) 0x1234
     = 0x200 * (0x1234 / 0x200).
Proof.
  split; [lia |].
  apply (adjust_section_alignment_rounds_down
           (RvaHelper.mk 0x200 0x800 []) 0x1234); cbn; lia.
Defined.

Lemma is_recognized_impl_decodes_dos_header_witness :
  exists recognized,
    ExeArchiveDecoder.is_recognized_impl
      (io.mk (Samples.pe_image 0x10B 3 Samples.tree) 0)
    = (Done recognized, io.mk (Samples.pe_image 0x10B 3 Samples.tree) (0 + 64))
    /\ (recognized = true
        <-> io.slice (Samples.pe_image 0x10B 3 Samples.tree) 0 2
            = ExeArchiveDecoder.MZ).
Proof.
  apply (is_recognized_impl_decodes_dos_header
           (Samples.pe_image 0x10B 3 Samples.tree) 0).
  vm_compute. discriminate.
Defined.

(** Against C3 as worded: on the 2-byte input "MZ", detection does not
    return true; it fails with the end-of-stream error. *)
Lemma is_recognized_impl_two_byte_input :
  io.slice ExeArchiveDecoder.MZ 0 2 = ExeArchiveDecoder.MZ
  /\ fst (ExeArchiveDecoder.is_recognized_impl (io.mk ExeArchiveDecoder.MZ 0))
     = Throw EofError.
Proof. split; reflexivity. Qed.

Lemma optional_header_magic_selects_width_witness :
  88 + 80 + 4 * 4 <= Z.of_nat (List.length (Samples.pe_image 0 3 Samples.tree))
  /\ exists h,
       ImageOptionalHeader.ImageOptionalHeader
         (io.mk (Samples.pe_image 0 3 Samples.tree) 88)
       = (Done h, io.mk (Samples.pe_image 0 3 Samples.tree) (88 + 80 + 4 * 4))
       /\ ImageOptionalHeader.magic h = 0.
Proof.
  split; [vm_compute; discriminate |].
  destruct (optional_header_magic_selects_width
              (Samples.pe_image 0 3 Samples.tree) 88) as (h & Hrun & Hmagic & _).
  - vm_compute. discriminate.
  - exists h. split; [exact Hrun | exact Hmagic].
Defined.

(** Against C2 as worded: an image whose optional-header magic is 0,
    neither 0x10B nor 0x20B, is decoded with the 4-byte layout and
    enumerated without any failure. *)
Lemma optional_header_magic_not_validated :
  (exists h s,
     ImageOptionalHeader.ImageOptionalHeader
       (io.mk (Samples.pe_image 0 3 Samples.tree) 88) = (Done h, s)
     /\ ImageOptionalHeader.magic h = 0
     /\ io.position s = 88 + 96)
  /\ fst (ExeArchiveDecoder.read_meta_impl Samples.ample 3
            (Samples.start (Samples.pe_image 0 3 Samples.tree)))
     = Done [ArchiveEntryImpl.mk ("A" ++ path_sep ++ "ICON" ++ path_sep ++ "1033")
               712 4;
             ArchiveEntryImpl.mk "MANIFEST" 716 2].
Proof.
  split.
  - do 2 eexists. split; [vm_compute; reflexivity |]. split; reflexivity.
  - vm_compute. reflexivity.
Qed.


(** ** What stream computations leave behind *)

Lemma stream_ok_ret {A : Type} (a : A) : Spec.stream_ok (ret a).
Proof. intros s. cbn. auto. Qed.

Lemma stream_ok_bind {A B : Type} (c : M io.IStream A) (f : A -> M io.IStream B) :
  Spec.stream_ok c -> (forall a, Spec.stream_ok (f a)) ->
  Spec.stream_ok (bind c f).
Proof.
  intros Hc Hf s. unfold bind. specialize (Hc s).
  destruct (c s) as [[a | e | | w] s1]; cbn in Hc |- *;
    destruct Hc as [Hb Hfin]; try contradiction; auto.
  destruct (Hf a s1) as [Hb1 Hfin1]. split; [congruence | exact Hfin1].
Qed.

Lemma stream_ok_tell : Spec.stream_ok io.tell.
Proof. intros s. cbn. auto. Qed.

Lemma stream_ok_seek (offset : Z) : Spec.stream_ok (io.seek offset).
Proof. intros s. unfold io.seek. destruct (offset >? io.size s); cbn; auto. Qed.

Lemma stream_ok_skip (n : Z) : Spec.stream_ok (io.skip n).
Proof. intros s. unfold io.skip. apply stream_ok_seek. Qed.

Lemma stream_ok_read (n : Z) : Spec.stream_ok (io.read n).
Proof.
  intros s. unfold io.read. destruct (io.position s + n >? io.size s); cbn; auto.
Qed.

Create HintDb stream_ok.
#[local] Hint Resolve stream_ok_ret stream_ok_tell stream_ok_seek stream_ok_skip
  stream_ok_read : stream_ok.

Ltac stream_ok_structure :=
  repeat (apply stream_ok_bind; [solve [eauto with stream_ok] | intros ?]);
  eauto with stream_ok.

Lemma stream_ok_read_u8 : Spec.stream_ok io.read_u8.
Proof. unfold io.read_u8. stream_ok_structure. Qed.
Lemma stream_ok_read_le_u16 : Spec.stream_ok io.read_le_u16.
Proof. unfold io.read_le_u16. stream_ok_structure. Qed.
Lemma stream_ok_read_le_u32 : Spec.stream_ok io.read_le_u32.
Proof. unfold io.read_le_u32. stream_ok_structure. Qed.
Lemma stream_ok_read_le_u64 : Spec.stream_ok io.read_le_u64.
Proof. unfold io.read_le_u64. stream_ok_structure. Qed.
#[local] Hint Resolve stream_ok_read_u8 stream_ok_read_le_u16
  stream_ok_read_le_u32 stream_ok_read_le_u64 : stream_ok.

Lemma stream_ok_ImageResourceDir :
  Spec.stream_ok ImageResourceDir.ImageResourceDir.
Proof. unfold ImageResourceDir.ImageResourceDir. stream_ok_structure. Qed.

Lemma stream_ok_ImageResourceDirEntry :
  Spec.stream_ok ImageResourceDirEntry.ImageResourceDirEntry.
Proof. unfold ImageResourceDirEntry.ImageResourceDirEntry. stream_ok_structure. Qed.

Lemma stream_ok_ImageResourceDataEntry :
  Spec.stream_ok ImageResourceDataEntry.ImageResourceDataEntry.
Proof. unfold ImageResourceDataEntry.ImageResourceDataEntry. stream_ok_structure. Qed.
#[local] Hint Resolve stream_ok_ImageResourceDir stream_ok_ImageResourceDirEntry
  stream_ok_ImageResourceDataEntry : stream_ok.

(** ** What crawler computations leave behind *)

Section Invariant.
Variable Q : ArchiveEntryImpl.t -> Prop.

Lemma extends_refl (st : state) : Spec.extends Q st st.
Proof.
  split; [reflexivity |]. split.
  - exists []. now rewrite app_nil_r.
  - exists []. now rewrite app_nil_r.
Qed.

Lemma extends_trans (a b c : state) :
  Spec.extends Q a b -> Spec.extends Q b c -> Spec.extends Q a c.
Proof.
  intros (Hb1 & (n1 & Hm1 & Hq1) & (l1 & Hl1))
         (Hb2 & (n2 & Hm2 & Hq2) & (l2 & Hl2)).
  split; [congruence |]. split.
  - exists (n1 ++ n2). split.
    + now rewrite Hm2, Hm1, app_assoc.
    + apply Forall_app. now split.
  - exists (l1 ++ l2). now rewrite Hl2, Hl1, app_assoc.
Qed.

Lemma extends_set_position (st st' : state) (pos : Z) :
  Spec.extends Q st st' -> Spec.extends Q st (set_position pos st').
Proof. intros (Hb & Hm & Hl). split; [exact Hb |]. split; assumption. Qed.

Variable div : bool.

Lemma inv_ret {A : Type} (a : A) : Spec.inv div Q (ret a).
Proof. intros st. cbn. split; [apply extends_refl | exact I]. Qed.

Lemma inv_bind {A B : Type} (c : M state A) (f : A -> M state B) :
  Spec.inv div Q c ->
  (forall a st, fst (c st) = Done a -> Spec.inv div Q (f a)) ->
  Spec.inv div Q (bind c f).
Proof.
  intros Hc Hf st. unfold bind.
  assert (Hf' : forall a, fst (c st) = Done a -> Spec.inv div Q (f a))
    by (intros a; apply Hf).
  specialize (Hc st). clear Hf. revert Hc Hf'.
  destruct (c st) as [[a | e | | w] st1]; cbn; intros Hc Hf'; try exact Hc.
  destruct (Hf' a eq_refl st1) as [He Ha].
  split; [| exact Ha]. eapply extends_trans; [apply Hc | exact He].
Qed.

Lemma inv_try_catch {A : Type} (c : M state A) (handler : exn -> M state A) :
  Spec.inv div Q c -> (forall e, Spec.inv div Q (handler e)) ->
  Spec.inv div Q (try_catch c handler).
Proof.
  intros Hc Hh st. unfold try_catch. specialize (Hc st).
  destruct (c st) as [[a | e | | w] st1]; cbn in Hc |- *; try exact Hc.
  destruct (Hh e st1) as [He Ha].
  split; [| exact Ha]. eapply extends_trans; [apply Hc | exact He].
Qed.

Lemma inv_on_stream {A : Type} (c : M io.IStream A) :
  Spec.stream_ok c -> Spec.inv div Q (on_stream c).
Proof.
  intros Hc st. unfold on_stream. specialize (Hc (input_stream st)).
  destruct (c (input_stream st)) as [o s1]. cbn in Hc |- *.
  destruct Hc as [Hb Hfin]. split.
  - split; [exact Hb |]. split.
    + exists []. now rewrite app_nil_r.
    + exists []. now rewrite app_nil_r.
  - destruct o; cbn in Hfin |- *; auto; contradiction.
Qed.

Lemma inv_lift_outcome {A : Type} (o : outcome A) :
  Spec.finishes o -> Spec.inv div Q (lift_outcome o).
Proof.
  intros Hfin st. cbn. split; [apply extends_refl |].
  destruct o; cbn in Hfin |- *; auto; contradiction.
Qed.

Lemma inv_peek {A : Type} (offset : Z) (body : M state A) :
  Spec.inv div Q body -> Spec.inv div Q (peek offset body).
Proof.
  intros Hbody st. unfold peek.
  pose proof (inv_on_stream (io.seek offset) (stream_ok_seek offset) st) as Hs.
  destruct (on_stream (io.seek offset) st) as [[[] | e | | w] st1];
    cbn in Hs |- *; try exact Hs.
  specialize (Hbody st1).
  destruct (body st1) as [[a | e | | w] st2]; cbn in Hbody |- *;
    destruct Hbody as [He Ha]; (split; [| exact Ha]).
  - apply extends_set_position. eapply extends_trans; [apply Hs | exact He].
  - apply extends_set_position. eapply extends_trans; [apply Hs | exact He].
  - eapply extends_trans; [apply Hs | exact He].
  - eapply extends_trans; [apply Hs | exact He].
Qed.

Lemma inv_push_back (e : ArchiveEntryImpl.t) : Q e -> Spec.inv div Q (push_back e).
Proof.
  intros He st. cbn. split; [| exact I].
  split; [reflexivity |]. split.
  - exists [e]. split; [reflexivity | now constructor].
  - exists []. now rewrite app_nil_r.
Qed.

Lemma inv_logger_err (offset : Z) (e : exn) :
  Spec.inv div Q (logger_err offset e).
Proof.
  intros st. cbn. split; [| exact I].
  split; [reflexivity |]. split.
  - exists []. split; [now rewrite app_nil_r | constructor].
  - now eexists.
Qed.

Lemma inv_for_range (n : nat) (body : M state unit) :
  Spec.inv div Q body -> Spec.inv div Q (for_range n body).
Proof.
  intros Hbody. induction n as [| n IH]; cbn [for_range].
  - apply inv_ret.
  - apply inv_bind; [exact Hbody | intros; exact IH].
Qed.
End Invariant.

Lemma inv_mono {A : Type} (div : bool) (Q Q' : ArchiveEntryImpl.t -> Prop)
    (c : M state A) :
  (forall e, Q e -> Q' e) -> Spec.inv div Q c -> Spec.inv div Q' c.
Proof.
  intros HQ Hc st. destruct (Hc st) as [(Hb & (new & Hm & Hq) & Hl) Ha].
  split; [| exact Ha]. split; [exact Hb |]. split; [| exact Hl].
  exists new. split; [exact Hm |]. eapply Forall_impl; [exact HQ | exact Hq].
Qed.

(** ** The crawler: what it leaves behind *)

Lemma utf16_to_utf8_finishes (input : list byte) :
  Spec.finishes (algo.utf16_to_utf8 input).
Proof.
  unfold algo.utf16_to_utf8.
  destruct (algo.code_points (algo.code_units input)); exact I.
Qed.

Lemma find_section_finishes (rva : Z) (l : list ImageSectionHeader.t) :
  Spec.finishes (RvaHelper.find_section rva l).
Proof.
  induction l as [| s l IH]; cbn; [exact I |].
  destruct (RvaHelper.in_section rva s); [exact I | exact IH].
Qed.

Lemma rva_to_offset_finishes (h : RvaHelper.t) (rva : Z) :
  Spec.finishes (RvaHelper.rva_to_offset h rva).
Proof.
  unfold RvaHelper.rva_to_offset, RvaHelper.section_for_rva.
  pose proof (find_section_finishes rva (RvaHelper.sections h)) as H.
  destruct (RvaHelper.find_section rva (RvaHelper.sections h)); auto.
Qed.

Section CrawlerInvariant.
Variable args : ResourceCrawlerArgs.t.
Variable Q : ArchiveEntryImpl.t -> Prop.

Lemma inv_read_entry_name (div : bool) (entry : ImageResourceDirEntry.t) :
  Spec.inv div Q (ResourceCrawler.read_entry_name args entry).
Proof.
  unfold ResourceCrawler.read_entry_name.
  destruct (ImageResourceDirEntry.name_is_string entry); [| apply inv_ret].
  apply inv_bind; [apply inv_on_stream; auto with stream_ok | intros _ _ _].
  apply inv_bind; [apply inv_on_stream; auto with stream_ok | intros max_size _ _].
  apply inv_bind; [apply inv_on_stream; auto with stream_ok | intros name _ _].
  apply inv_lift_outcome, utf16_to_utf8_finishes.
Qed.

Lemma inv_process_entry (div : bool) (offset : Z) (path : string) :
  (forall off size, Q (ArchiveEntryImpl.mk path off size)) ->
  Spec.inv div Q (ResourceCrawler.process_entry args offset path).
Proof.
  intros HQ. unfold ResourceCrawler.process_entry.
  apply inv_bind; [apply inv_on_stream; auto with stream_ok | intros _ _ _].
  apply inv_bind; [apply inv_on_stream; auto with stream_ok | intros r _ _].
  apply inv_bind;
    [apply inv_lift_outcome, rva_to_offset_finishes | intros off _ _].
  apply inv_push_back, HQ.
Qed.

Lemma inv_entry_body (div : bool) (descend : Z -> string -> M state unit)
    (path : string) (entry : ImageResourceDirEntry.t) :
  (forall name off, Spec.resolved args name ->
     Spec.inv div Q (descend off (ResourceCrawler.entry_path path name))) ->
  (forall name off size, Spec.resolved args name ->
     Q (ArchiveEntryImpl.mk (ResourceCrawler.entry_path path name) off size)) ->
  Spec.inv div Q (ResourceCrawler.entry_body args descend path entry).
Proof.
  intros Hd HQ. unfold ResourceCrawler.entry_body.
  apply inv_bind; [apply inv_read_entry_name | intros name st Hname].
  assert (Hres : Spec.resolved args name) by (now exists entry, st).
  cbv zeta.
  destruct (negb (ImageResourceDirEntry.data_is_dir entry =? 0)).
  - now apply Hd.
  - apply inv_process_entry. intros off size. now apply HQ.
Qed.

Lemma inv_process_dir_entry (div : bool) (descend : Z -> string -> M state unit)
    (path : string) (entry : ImageResourceDirEntry.t) :
  (forall name off, Spec.resolved args name ->
     Spec.inv div Q (descend off (ResourceCrawler.entry_path path name))) ->
  (forall name off size, Spec.resolved args name ->
     Q (ArchiveEntryImpl.mk (ResourceCrawler.entry_path path name) off size)) ->
  Spec.inv div Q (ResourceCrawler.process_dir_entry args descend path entry).
Proof.
  intros Hd HQ. unfold ResourceCrawler.process_dir_entry.
  apply inv_try_catch; [| intros e; apply inv_logger_err].
  apply inv_bind; [apply inv_on_stream; auto with stream_ok | intros pos _ _].
  apply inv_peek. now apply inv_entry_body.
Qed.
End CrawlerInvariant.

Lemma path_from_child (args : ResourceCrawlerArgs.t) (path name : string)
    (e : ArchiveEntryImpl.t) :
  Spec.resolved args name ->
  Spec.path_from args (ResourceCrawler.entry_path path name) e ->
  Spec.path_from args path e.
Proof.
  intros Hres (names & Hne & Hall & Hpath).
  exists (name :: names). split; [discriminate |].
  split; [now constructor | exact Hpath].
Qed.

Lemma inv_process_dir (args : ResourceCrawlerArgs.t) (fuel : nat) :
  forall offset path,
    Spec.inv true (Spec.path_from args path)
      (ResourceCrawler.process_dir fuel args offset path).
Proof.
  induction fuel as [| fuel IH]; intros offset path; cbn [ResourceCrawler.process_dir].
  - intros st. cbn. split; [apply extends_refl | reflexivity].
  - apply inv_bind; [apply inv_on_stream; auto with stream_ok | intros _ _ _].
    apply inv_bind; [apply inv_on_stream; auto with stream_ok | intros dir _ _].
    cbv zeta. apply inv_for_range. unfold ResourceCrawler.process_dir_step.
    apply inv_bind; [apply inv_on_stream; auto with stream_ok | intros entry _ _].
    apply inv_process_dir_entry.
    + intros name off Hres.
      eapply inv_mono; [| apply IH].
      intros e. now apply path_from_child.
    + intros name off size Hres. exists [name].
      split; [discriminate |]. split; [now constructor | reflexivity].
Qed.

(** The bytes of the stream are those the crawl started from. *)
Lemma process_dir_buffer (args : ResourceCrawlerArgs.t) (fuel : nat)
    (offset : Z) (path : string) (st : state) :
  io.buffer (input_stream
               (snd (ResourceCrawler.process_dir fuel args offset path st)))
  = io.buffer (input_stream st).
Proof. apply (inv_process_dir args fuel offset path st). Qed.

(** ** The crawler: one directory entry *)

Lemma process_dir_entry_outcome (args : ResourceCrawlerArgs.t)
    (descend : Z -> string -> M state unit) (path : string)
    (entry : ImageResourceDirEntry.t) (st : state) :
  match ResourceCrawler.process_dir_entry args descend path entry st with
  | (Done _, st') =>
      io.position (input_stream st') = io.position (input_stream st)
  | (Throw _, _) => False
  | (Diverge, _) | (Undefined _, _) => True
  end.
Proof.
  unfold ResourceCrawler.process_dir_entry, try_catch, bind, on_stream, io.tell.
  destruct st as [[buf p] m l]. cbn [input_stream io.position].
  unfold peek, on_stream, io.seek. cbn [input_stream io.position io.buffer].
  destruct (p >? io.size (io.mk buf p)); [reflexivity |].
  cbn [input_stream io.position io.buffer meta logger].
  match goal with
  | |- context [ResourceCrawler.entry_body ?a ?d ?q ?e ?s] =>
      destruct (ResourceCrawler.entry_body a d q e s) as [[[] | e' | | w] st2]
  end; cbn; auto.
Qed.

(** C8: the position of the stream after the step of one directory entry
    is the position before it, where the next sibling entry is read,
    whether the name resolution and the descent returned or failed; a
    failure is caught, so the step itself never throws. *)
Theorem process_dir_entry_restores_position (args : ResourceCrawlerArgs.t)
    (descend : Z -> string -> M state unit) (path : string)
    (entry : ImageResourceDirEntry.t) (st : state) :
  match ResourceCrawler.process_dir_entry args descend path entry st with
  | (Done _, st') =>
      io.position (input_stream st') = io.position (input_stream st)
  | (Throw _, _) => False
  | (Diverge, _) | (Undefined _, _) =>
      ~ Spec.finishes
          (fst (ResourceCrawler.entry_body args descend path entry st))
  end.
Proof.
  pose proof (process_dir_entry_outcome args descend path entry st) as H.
  destruct (ResourceCrawler.process_dir_entry args descend path entry st)
    as [[[] | e | | w] st'] eqn:Hrun; try exact H.
  all: revert Hrun;
    unfold ResourceCrawler.process_dir_entry, try_catch, bind, on_stream, io.tell;
    destruct st as [[buf p] m l]; cbn [input_stream io.position];
    unfold peek, on_stream, io.seek; cbn [input_stream io.position io.buffer];
    (destruct (p >? io.size (io.mk buf p)); [discriminate |]);
    cbn [input_stream io.position io.buffer meta logger];
    destruct (ResourceCrawler.entry_body args descend path entry
                (mk_state (io.mk buf p) m l)) as [[[] | e' | | w'] st2];
    cbn; intros Hrun Hfin; try discriminate; exact Hfin.
Qed.

(** ** The crawler: the loop over the entries of a directory *)

Lemma reads_cases {A : Type} (k : Z) (c : M io.IStream A) (buf : list byte)
    (p : Z) :
  Spec.reads k c -> p <= Z.of_nat (List.length buf) ->
  (p + k <= Z.of_nat (List.length buf)
   /\ exists v, c (io.mk buf p) = (Done v, io.mk buf (p + k)))
  \/ (Z.of_nat (List.length buf) < p + k
      /\ exists p', c (io.mk buf p) = (Throw EofError, io.mk buf p')).
Proof.
  intros [Hk Hc] Hp. destruct (Hc buf p) as [Hok Hfail].
  destruct (Z_le_gt_dec (p + k) (Z.of_nat (List.length buf))) as [Hle | Hgt].
  - left. split; [exact Hle | now apply Hok].
  - right. split; [lia | apply Hfail; lia].
Qed.

Lemma inv_process_dir_any (args : ResourceCrawlerArgs.t) (fuel : nat)
    (offset : Z) (path : string) :
  Spec.inv true (fun _ => True)
    (ResourceCrawler.process_dir fuel args offset path).
Proof. eapply inv_mono; [| apply inv_process_dir]. auto. Qed.

Lemma inv_process_dir_entry_any (args : ResourceCrawlerArgs.t) (fuel : nat)
    (path : string) (entry : ImageResourceDirEntry.t) :
  Spec.inv true (fun _ => True)
    (ResourceCrawler.process_dir_entry args
       (ResourceCrawler.process_dir fuel args) path entry).
Proof.
  apply inv_process_dir_entry; [| auto].
  intros name off _. apply inv_process_dir_any.
Qed.

(** When the step of an entry runs out of fuel, the entry is a
    subdirectory and the descent into it ran out of fuel. *)
Lemma process_dir_entry_diverges (args : ResourceCrawlerArgs.t)
    (descend : Z -> string -> M state unit) (path : string)
    (entry : ImageResourceDirEntry.t) (st : state) :
  Spec.diverges
    (fst (ResourceCrawler.process_dir_entry args descend path entry st)) ->
  ImageResourceDirEntry.data_is_dir entry <> 0
  /\ exists path' st',
       io.buffer (input_stream st') = io.buffer (input_stream st)
       /\ Spec.diverges
            (fst (descend (ImageResourceDirEntry.offset_to_data entry)
                    path' st')).
Proof.
  unfold ResourceCrawler.process_dir_entry, try_catch, bind, on_stream, io.tell.
  destruct st as [[buf p] m l]. cbn [input_stream io.position].
  unfold peek, on_stream, io.seek. cbn [input_stream io.position io.buffer].
  destruct (p >? io.size (io.mk buf p)); [intros [] |].
  cbn [input_stream io.position io.buffer meta logger].
  unfold ResourceCrawler.entry_body, bind.
  pose proof (inv_read_entry_name args (fun _ => True) false entry
                (mk_state (io.mk buf p) m l)) as [(Hbuf & _) Hname].
  destruct (ResourceCrawler.read_entry_name args entry
              (mk_state (io.mk buf p) m l)) as [[name | e | | w] st1];
    cbn in Hname, Hbuf |- *; try discriminate; try contradiction;
    try (intros []).
  destruct (Z.eqb_spec (ImageResourceDirEntry.data_is_dir entry) 0)
    as [Hz | Hnz]; cbn [negb].
  - pose proof (inv_process_entry args (fun _ => True) false
                  (ImageResourceDirEntry.offset_to_data entry)
                  (ResourceCrawler.entry_path path name)
                  (fun _ _ => I) st1) as [_ Hpe].
    destruct (ResourceCrawler.process_entry args
                (ImageResourceDirEntry.offset_to_data entry)
                (ResourceCrawler.entry_path path name) st1)
      as [[[] | e | | w] st2]; cbn in Hpe |- *;
      try discriminate; try contradiction; intros [].
  - intros Hdiv. split; [exact Hnz |].
    exists (ResourceCrawler.entry_path path name), st1.
    split; [exact Hbuf |].
    destruct (descend (ImageResourceDirEntry.offset_to_data entry)
                (ResourceCrawler.entry_path path name) st1)
      as [[[] | e | | w] st2]; cbn in Hdiv |- *; auto.
Qed.

Section DirectoryLoop.
Variable args : ResourceCrawlerArgs.t.
Variable fuel : nat.
Variable path : string.
Variable buf : list byte.
Variable start : Z.

Abbreviation body :=
  (ResourceCrawler.process_dir_step args
     (ResourceCrawler.process_dir fuel args) path).
Abbreviation descent_returns := (Spec.descent_returns args fuel buf start).

Lemma for_range_entries (k i : nat) (st : state) :
  io.buffer (input_stream st) = buf ->
  io.position (input_stream st) = start + 16 + 8 * Z.of_nat i ->
  io.position (input_stream st) <= Z.of_nat (List.length buf) ->
  (start + 16 + 8 * Z.of_nat (i + k) <= Z.of_nat (List.length buf) ->
     ~ Spec.throws (fst (for_range k body st)))
  /\ ((forall j, (i <= j < i + k)%nat -> descent_returns j) ->
        ~ Spec.diverges (fst (for_range k body st))).
Proof.
  revert i st. induction k as [| k IH]; intros i st Hbuf Hpos Hle.
  - cbn. auto.
  - assert (Hunfold :
      for_range (S k) body st
      = match ImageResourceDirEntry.ImageResourceDirEntry (input_stream st) with
        | (Done entry, s1) =>
            match ResourceCrawler.process_dir_entry args
                    (ResourceCrawler.process_dir fuel args) path entry
                    (mk_state s1 (meta st) (logger st)) with
            | (Done _, st2) => for_range k body st2
            | (Throw e, st2) => (Throw e, st2)
            | (Diverge, st2) => (Diverge, st2)
            | (Undefined w, st2) => (Undefined w, st2)
            end
        | (Throw e, s1) => (Throw e, mk_state s1 (meta st) (logger st))
        | (Diverge, s1) => (Diverge, mk_state s1 (meta st) (logger st))
        | (Undefined w, s1) => (Undefined w, mk_state s1 (meta st) (logger st))
        end).
    { cbn [for_range]. unfold bind at 1.
      unfold ResourceCrawler.process_dir_step at 1. unfold bind at 1.
      unfold on_stream.
      destruct (ImageResourceDirEntry.ImageResourceDirEntry (input_stream st))
        as [[entry | e | | w] s1]; reflexivity. }
    rewrite Hunfold. clear Hunfold.
    destruct st as [[b p] m l].
    cbn [input_stream io.buffer io.position] in Hbuf, Hpos, Hle. subst b.
    cbn [input_stream meta logger].
    destruct (reads_cases 8 _ buf p reads_ImageResourceDirEntry Hle)
      as [[Hin [entry Hrun]] | [Hout [p' Hrun]]]; rewrite Hrun.
    + pose proof (process_dir_entry_outcome args
                    (ResourceCrawler.process_dir fuel args) path entry
                    (mk_state (io.mk buf (p + 8)) m l)) as Hstep.
      pose proof (inv_process_dir_entry_any args fuel path entry
                    (mk_state (io.mk buf (p + 8)) m l)) as [(Hb & _) _].
      pose proof (process_dir_entry_diverges args
                    (ResourceCrawler.process_dir fuel args) path entry
                    (mk_state (io.mk buf (p + 8)) m l)) as Hdiv.
      destruct (ResourceCrawler.process_dir_entry args
                  (ResourceCrawler.process_dir fuel args) path entry
                  (mk_state (io.mk buf (p + 8)) m l))
        as [[[] | e | | w] st2];
        cbn [fst snd input_stream io.buffer io.position Spec.diverges
             Spec.throws] in Hstep, Hb, Hdiv |- *;
        try contradiction.
      * destruct (IH (S i) st2) as [Hthrow Hdiverge];
          [exact Hb | lia | lia |].
        split.
        -- intros Hfit. apply Hthrow.
           replace (S i + k)%nat with (i + S k)%nat by lia. exact Hfit.
        -- intros Hall. apply Hdiverge. intros j Hj. apply Hall. lia.
      * split; [auto |]. intros Hall _.
        destruct (Hdiv I) as (Hdir & path' & st' & Hb' & Hd).
        refine (Hall i _ entry (io.mk buf (p + 8)) _ Hdir path' st' Hb' Hd);
          [lia | now rewrite <- Hpos].
      * split; auto.
    + cbn [fst Spec.throws Spec.diverges]. split; [| auto]. intros Hfit _. lia.
Qed.
End DirectoryLoop.

(** ** The crawler: one directory *)

Lemma ImageResourceDir_done (buf : list byte) (p : Z)
    (dir : ImageResourceDir.t) (s' : io.IStream) :
  ImageResourceDir.ImageResourceDir (io.mk buf p) = (Done dir, s') ->
  p + 16 <= Z.of_nat (List.length buf) /\ s' = io.mk buf (p + 16).
Proof.
  intros H. destruct (Z_le_gt_dec p (Z.of_nat (List.length buf))) as [Hle | Hgt].
  - destruct (reads_cases 16 _ buf p reads_ImageResourceDir Hle)
      as [[Hin [v Hrun]] | [Hout [p' Hrun]]]; rewrite Hrun in H.
    + split; [exact Hin | congruence].
    + discriminate.
  - exfalso. revert H.
    unfold ImageResourceDir.ImageResourceDir. unfold bind at 1.
    unfold io.read_le_u32, bind, io.read, io.size.
    cbn [io.buffer io.position].
    destruct (Z.gtb_spec (p + 4) (Z.of_nat (List.length buf)));
      [discriminate | lia].
Qed.

Lemma process_dir_unfold (args : ResourceCrawlerArgs.t) (fuel : nat)
    (offset : Z) (path : string) (st : state) :
  let buf := io.buffer (input_stream st) in
  let start := size_t (ResourceCrawlerArgs.base_offset args + offset) in
  ResourceCrawler.process_dir (S fuel) args offset path st
  = if start >? Z.of_nat (List.length buf)
    then (Throw EofError, st)
    else
      match ImageResourceDir.ImageResourceDir (io.mk buf start) with
      | (Done dir, s1) =>
          for_range
            (Z.to_nat (ImageResourceDir.number_of_named_entries dir
                       + ImageResourceDir.number_of_id_entries dir))
            (ResourceCrawler.process_dir_step args
               (ResourceCrawler.process_dir fuel args) path)
            (mk_state s1 (meta st) (logger st))
      | (Throw e, s1) => (Throw e, mk_state s1 (meta st) (logger st))
      | (Diverge, s1) => (Diverge, mk_state s1 (meta st) (logger st))
      | (Undefined w, s1) => (Undefined w, mk_state s1 (meta st) (logger st))
      end.
Proof.
  intros buf start. cbn [ResourceCrawler.process_dir].
  unfold bind at 1. unfold on_stream at 1. unfold io.seek, io.size.
  fold start. fold buf.
  destruct st as [[b p] m l]. cbn [input_stream io.buffer meta logger] in *.
  destruct (start >? Z.of_nat (List.length buf)); [reflexivity |].
  unfold bind at 1. unfold on_stream at 1. cbn [input_stream meta logger].
  destruct (ImageResourceDir.ImageResourceDir (io.mk buf start))
    as [[dir | e | | w] s1]; reflexivity.
Qed.

Lemma process_dir_no_throw (args : ResourceCrawlerArgs.t) (fuel : nat)
    (offset : Z) (path : string) (st : state) (dir : ImageResourceDir.t)
    (s' : io.IStream) :
  let buf := io.buffer (input_stream st) in
  let start := size_t (ResourceCrawlerArgs.base_offset args + offset) in
  ImageResourceDir.ImageResourceDir (io.mk buf start) = (Done dir, s') ->
  start + 16
  + 8 * (ImageResourceDir.number_of_named_entries dir
         + ImageResourceDir.number_of_id_entries dir)
  <= Z.of_nat (List.length buf) ->
  ~ Spec.throws (fst (ResourceCrawler.process_dir fuel args offset path st)).
Proof.
  intros buf start Hdir Hfit.
  destruct fuel as [| fuel]; [cbn; auto |].
  rewrite process_dir_unfold. fold buf start.
  destruct (ImageResourceDir_done _ _ _ _ Hdir) as [Hin ->].
  destruct (Z.gtb_spec start (Z.of_nat (List.length buf))); [lia |].
  rewrite Hdir.
  apply (for_range_entries args fuel path buf start _ 0%nat);
    cbn [input_stream io.buffer io.position]; try reflexivity; lia.
Qed.



(** ** Decoder facade: enumeration *)

Lemma read_meta_impl_unfold (can_reserve : Z -> bool) (fuel : nat)
    (st : state) :
  ExeArchiveDecoder.read_meta_impl can_reserve fuel st
  = match ExeArchiveDecoder.read_headers can_reserve st with
    | (Done (nt_header, data_dirs, sections), st1) =>
        ExeArchiveDecoder.enumerate_resources fuel nt_header data_dirs
          sections st1
    | (Throw e, st1) => (Throw e, st1)
    | (Diverge, st1) => (Diverge, st1)
    | (Undefined w, st1) => (Undefined w, st1)
    end.
Proof.
  unfold ExeArchiveDecoder.read_meta_impl, ExeArchiveDecoder.read_headers,
    ExeArchiveDecoder.enumerate_resources, bind, ret.
  destruct (on_stream DosHeader.DosHeader st) as [[dos | e | | w] st1];
    try reflexivity.
  destruct (on_stream (io.seek (DosHeader.e_lfanew dos)) st1)
    as [[[] | e | | w] st2]; try reflexivity.
  destruct (on_stream ImageNtHeader.ImageNtHeader st2)
    as [[nt | e | | w] st3]; try reflexivity.
  unfold ExeArchiveDecoder.vector_reserve.
  destruct (ExeArchiveDecoder.reserve_fails _ _); try reflexivity.
  match goal with
  | |- context [on_stream (repeat_read ?n ImageDataDir.ImageDataDir) st3] =>
      destruct (on_stream (repeat_read n ImageDataDir.ImageDataDir) st3)
        as [[dirs | e | | w] st4]; try reflexivity
  end.
  match goal with
  | |- context [on_stream
                  (repeat_read ?n ImageSectionHeader.ImageSectionHeader) st4] =>
      destruct (on_stream
                  (repeat_read n ImageSectionHeader.ImageSectionHeader) st4)
        as [[secs | e | | w] st5]; reflexivity
  end.
Qed.

Lemma bind_done_inv {St A B : Type} (c : M St A) (f : A -> M St B)
    (s s' : St) (b : B) :
  bind c f s = (Done b, s') ->
  exists a s1, c s = (Done a, s1) /\ f a s1 = (Done b, s').
Proof.
  unfold bind. destruct (c s) as [[a | e | | w] s1]; try discriminate.
  intros H. now exists a, s1.
Qed.

Lemma on_stream_done_inv {A : Type} (c : M io.IStream A) (st st' : state)
    (a : A) :
  on_stream c st = (Done a, st') ->
  exists s', c (input_stream st) = (Done a, s').
Proof.
  unfold on_stream. destruct (c (input_stream st)) as [o s'].
  intros H. exists s'. congruence.
Qed.

Lemma repeat_read_length {St A : Type} (c : M St A) (n : nat) :
  forall s s' l, repeat_read n c s = (Done l, s') -> List.length l = n.
Proof.
  induction n as [| n IH]; intros s s' l H; cbn [repeat_read] in H.
  - unfold ret in H. injection H as <- _. reflexivity.
  - apply bind_done_inv in H. destruct H as (x & s1 & _ & H).
    apply bind_done_inv in H. destruct H as (xs & s2 & Hxs & H).
    unfold ret in H. injection H as <- _. cbn. f_equal. eapply IH, Hxs.
Qed.

Lemma read_headers_data_dirs (can_reserve : Z -> bool) (st st' : state)
    (nt_header : ImageNtHeader.t) (data_dirs : list ImageDataDir.t)
    (sections : list ImageSectionHeader.t) :
  ExeArchiveDecoder.read_headers can_reserve st
  = (Done (nt_header, data_dirs, sections), st') ->
  List.length data_dirs
  = Z.to_nat (ImageOptionalHeader.number_of_rva_and_sizes
                (ImageNtHeader.optional_header nt_header)).
Proof.
  unfold ExeArchiveDecoder.read_headers. intros H.
  apply bind_done_inv in H. destruct H as (dos & s1 & _ & H).
  apply bind_done_inv in H. destruct H as ([] & s2 & _ & H).
  apply bind_done_inv in H. destruct H as (nt & s3 & _ & H).
  apply bind_done_inv in H. destruct H as ([] & s3' & _ & H).
  apply bind_done_inv in H. destruct H as (dirs & s4 & Hdirs & H).
  apply bind_done_inv in H. destruct H as (secs & s5 & _ & H).
  unfold ret in H. injection H as -> -> -> _.
  apply on_stream_done_inv in Hdirs. destruct Hdirs as [s' Hdirs].
  eapply repeat_read_length, Hdirs.
Qed.

(** C10: [read_meta_impl] indexes [data_dirs] at position 2 without looking
    at its length.  Once the headers are decoded, a declared
    [number_of_rva_and_sizes] below 3 makes that access fall outside the
    vector: the call neither returns nor reports an error, its behaviour is
    undefined.  With 3 or more the access is within bounds. *)
Theorem data_dirs_index_is_unchecked (can_reserve : Z -> bool) (fuel : nat)
    (st st' : state) (nt_header : ImageNtHeader.t)
    (data_dirs : list ImageDataDir.t) (sections : list ImageSectionHeader.t) :
  ExeArchiveDecoder.read_headers can_reserve st
  = (Done (nt_header, data_dirs, sections), st') ->
  let count :=
    ImageOptionalHeader.number_of_rva_and_sizes
      (ImageNtHeader.optional_header nt_header) in
  (count < 3 ->
     ExeArchiveDecoder.read_meta_impl can_reserve fuel st
     = (Undefined "data_dirs[2]", st'))
  /\ (3 <= count ->
        forall w,
          fst (ExeArchiveDecoder.read_meta_impl can_reserve fuel st)
          <> Undefined w).
Proof.
  intros H count. pose proof (read_headers_data_dirs _ _ _ _ _ _ H) as Hlen.
  fold count in Hlen. rewrite read_meta_impl_unfold, H.
  unfold ExeArchiveDecoder.enumerate_resources. unfold bind at 1.
  unfold ExeArchiveDecoder.vector_at. split; intros Hcount.
  - assert (Hnone : nth_error data_dirs 2 = None)
      by (apply nth_error_None; lia).
    now rewrite Hnone.
  - destruct (nth_error data_dirs 2) as [resource_dir |] eqn:Hnth;
      [| apply nth_error_None in Hnth; lia].
    unfold ret. unfold bind at 1. unfold lift_outcome at 1.
    match goal with
    | |- context [RvaHelper.rva_to_offset ?h ?a] =>
        pose proof (rva_to_offset_finishes h a) as Hfin;
        destruct (RvaHelper.rva_to_offset h a) as [base | e | |];
        cbn in Hfin; try contradiction; try (intros w; discriminate)
    end.
    unfold bind.
    match goal with
    | |- context [ResourceCrawler.crawl fuel ?a ?s] =>
        pose proof (inv_process_dir_any a fuel 0 "" s) as [_ Hallowed];
        unfold ResourceCrawler.crawl;
        destruct (ResourceCrawler.process_dir fuel a 0 "" s)
          as [[[] | e | | w'] st2];
        cbn in Hallowed |- *; try contradiction; intros w; discriminate
    end.
Qed.

Lemma data_dirs_index_is_unchecked_witness :
  fst (ExeArchiveDecoder.read_meta_impl Samples.ample 3
         (Samples.start Samples.two_dirs_image))
  = Undefined "data_dirs[2]".
Proof.
  assert (H : exists nt dirs secs st',
             ExeArchiveDecoder.read_headers Samples.ample
               (Samples.start Samples.two_dirs_image)
             = (Done (nt, dirs, secs), st')
             /\ ImageOptionalHeader.number_of_rva_and_sizes
                  (ImageNtHeader.optional_header nt) < 3).
  { do 4 eexists. split; [vm_compute; reflexivity | vm_compute; reflexivity]. }
  destruct H as (nt & dirs & secs & st' & Hrun & Hcount).
  destruct (data_dirs_index_is_unchecked _ 3 _ _ _ _ _ Hrun) as [Hlow _].
  now rewrite (Hlow Hcount).
Defined.

(** ** A directory that contains itself *)





(** The scenario of the specification: of three sibling entries the second
    has a name offset past the end of the file.  The other two are
    enumerated and the second is logged once, with its offset and the
    end-of-stream cause. *)
Example fault_isolation_on_sample_image :
  let run :=
    ExeArchiveDecoder.read_meta_impl Samples.ample 3
      (Samples.start Samples.image) in
  fst run
  = Done [ArchiveEntryImpl.mk ("A" ++ path_sep ++ "ICON" ++ path_sep ++ "1033")
            712 4;
          ArchiveEntryImpl.mk "MANIFEST" 716 2]
  /\ logger (snd run) = [LogRecord.mk (512 + 104) EofError].
Proof. vm_compute. split; reflexivity. Qed.

(** ** Paths *)

Lemma append_assoc (a b c : string) :
  ((a ++ b) ++ c)%string = (a ++ (b ++ c))%string.
Proof. induction a as [| ch a IH]; cbn; [reflexivity | now rewrite IH]. Qed.

Lemma entry_path_of_empty (name : string) :
  ResourceCrawler.entry_path ""%string name = name.
Proof. reflexivity. Qed.

Lemma entry_path_of_nonempty (path name : string) :
  path <> ""%string ->
  ResourceCrawler.entry_path path name = (path ++ path_sep ++ name)%string
  /\ ResourceCrawler.entry_path path name <> ""%string.
Proof.
  intros Hne. unfold ResourceCrawler.entry_path.
  destruct (String.eqb_spec path ""%string); [contradiction |].
  split; [reflexivity |]. destruct path; [contradiction | discriminate].
Qed.

Lemma path_along_nonempty (names : list string) :
  forall path,
    path <> ""%string ->
    Spec.path_along path names = String.concat path_sep (path :: names).
Proof.
  unfold Spec.path_along.
  induction names as [| name rest IH]; intros path Hne; [reflexivity |].
  cbn [fold_left].
  destruct (entry_path_of_nonempty path name Hne) as [Heq Hne'].
  rewrite (IH _ Hne'), Heq.
  destruct rest as [| next rest]; [reflexivity |].
  cbn [String.concat]. now rewrite !append_assoc.
Qed.

Lemma path_along_empty (names : list string) :
  Spec.path_along ""%string names = String.concat path_sep (Spec.skip_empty names).
Proof.
  induction names as [| name rest IH]; [reflexivity |].
  cbn [Spec.skip_empty]. unfold Spec.path_along in *. cbn [fold_left].
  rewrite entry_path_of_empty.
  destruct (String.eqb_spec name ""%string) as [-> | Hne]; [exact IH |].
  now apply path_along_nonempty.
Qed.

Lemma skip_empty_nonempty (names : list string) :
  Forall (fun name => name <> ""%string) names -> Spec.skip_empty names = names.
Proof.
  intros H. destruct H as [| name rest Hne _]; [reflexivity |].
  cbn. destruct (String.eqb_spec name ""%string); [contradiction | reflexivity].
Qed.

Lemma le_value_bounds (bs : list byte) :
  0 <= io.le_value bs < 256 ^ Z.of_nat (List.length bs).
Proof.
  induction bs as [| b bs IH]; [cbn; lia |].
  cbn [io.le_value List.length]. rewrite Nat2Z.inj_succ, Z.pow_succ_r by lia.
  assert (Hb : 0 <= Z.of_N (Byte.to_N b) < 256).
  { pose proof (Byte.to_N_bounded b). lia. }
  lia.
Qed.

Lemma slice_length (buf : list byte) (p n : Z) :
  0 <= n -> Z.of_nat (List.length (io.slice buf p n)) <= n.
Proof.
  intros Hn. unfold io.slice. rewrite length_firstn. lia.
Qed.

Lemma read_le_u16_bounds (buf : list byte) (p : Z) :
  0 <= io.le_value (io.slice buf p 2) < 65536.
Proof.
  pose proof (le_value_bounds (io.slice buf p 2)) as H.
  pose proof (slice_length buf p 2 ltac:(lia)) as Hlen.
  assert (256 ^ Z.of_nat (List.length (io.slice buf p 2)) <= 256 ^ 2)
    by (apply Z.pow_le_mono_r; lia).
  lia.
Qed.

(** ** Display names *)

Lemma format_d_small (v : Z) :
  0 <= v < 2 ^ 31 -> algo.format_d v = NilZero.string_of_int (Z.to_int v).
Proof.
  intros H. unfold algo.format_d. rewrite u32_small by lia.
  destruct (Z.ltb_spec v (2 ^ 31)); [reflexivity | lia].
Qed.

Lemma resource_type_name_other (id : Z) :
  0 <= id < 2 ^ 31 ->
  ~ In id [1; 2; 3; 4; 5; 6; 7; 8; 9; 10; 11; 16; 17; 19; 20; 21; 22; 23; 24] ->
  ResourceCrawler.resource_type_name id
  = NilZero.string_of_int (Z.to_int id).
Proof.
  intros Hrange Hnot. rewrite <- format_d_small by exact Hrange.
  unfold ResourceCrawler.resource_type_name.
  destruct id as [| p | p]; [reflexivity | | reflexivity].
  do 6 (try destruct p as [p | p |]); try reflexivity;
    exfalso; apply Hnot; cbn; tauto.
Qed.

Lemma read_entry_name_named (args : ResourceCrawlerArgs.t)
    (entry : ImageResourceDirEntry.t) (buf : list byte) (p : Z)
    (m : list ArchiveEntryImpl.t) (l : list LogRecord.t) :
  ImageResourceDirEntry.name_is_string entry = true ->
  let start :=
    size_t (ResourceCrawlerArgs.base_offset args
            + ImageResourceDirEntry.name_offset entry) in
  let count := io.le_value (io.slice buf start 2) in
  start + 2 + 2 * count <= Z.of_nat (List.length buf) ->
  ResourceCrawler.read_entry_name args entry (mk_state (io.mk buf p) m l)
  = (algo.utf16_to_utf8 (io.slice buf (start + 2) (2 * count)),
     mk_state (io.mk buf (start + 2 + 2 * count)) m l).
Proof.
  intros Hnamed start count Hfit.
  pose proof (read_le_u16_bounds buf start) as Hcount. fold count in Hcount.
  unfold ResourceCrawler.read_entry_name. rewrite Hnamed. fold start.
  unfold bind, on_stream, io.seek, io.size, lift_outcome.
  cbn [input_stream io.buffer io.position meta logger].
  destruct (Z.gtb_spec start (Z.of_nat (List.length buf))); [lia |].
  cbn [input_stream io.buffer io.position meta logger].
  rewrite read_le_u16_at by lia. fold count.
  cbn [input_stream io.buffer io.position meta logger].
  replace (size_t (count * 2)) with (2 * count)
    by (unfold size_t, wrap; rewrite Z.mod_small; lia).
  rewrite read_at by lia. reflexivity.
Qed.

(** Against C7 as worded: in an image whose directory "A" holds a directory
    with a name of length zero, which holds a leaf with a name of length
    zero, the path of the leaf is "A" followed by two separators: its
    second and third segments are empty. *)
Lemma crawl_path_with_empty_segments :
  fst (ExeArchiveDecoder.read_meta_impl Samples.ample 3
         (Samples.start Samples.empty_names_image))
  = Done [ArchiveEntryImpl.mk
            (String.concat path_sep ["A"; ""; ""]%string) 712 4].
Proof. vm_compute. reflexivity. Qed.

(** The interval of a section that ends within the 32-bit address space
    is the interval of the integers. *)
Lemma contains_without_overflow (section : ImageSectionHeader.t) (rva : Z) :
  0 <= ImageSectionHeader.virtual_address section
       + ImageSectionHeader.virtual_size section < 2 ^ 32 ->
  (Spec.contains section rva
   <-> ImageSectionHeader.virtual_address section <= rva
       < ImageSectionHeader.virtual_address section
         + ImageSectionHeader.virtual_size section).
Proof. intros H. unfold Spec.contains. now rewrite u32_small. Qed.

(** * Further properties of the decoder *)

(** ** Header model *)

(** X1: every fixed-layout structure of the header model consumes exactly
    its size: the decoder returns and advances the cursor by that size when
    that many bytes are left, and fails with the end-of-stream error without
    returning a partial structure when fewer are left. *)
Theorem header_structures_consume_their_size :
  Spec.reads 64 DosHeader.DosHeader
  /\ Spec.reads 20 ImageFileHeader.ImageFileHeader
  /\ Spec.reads 8 ImageDataDir.ImageDataDir
  /\ Spec.reads 40 ImageSectionHeader.ImageSectionHeader
  /\ Spec.reads 16 ImageResourceDir.ImageResourceDir
  /\ Spec.reads 8 ImageResourceDirEntry.ImageResourceDirEntry
  /\ Spec.reads 16 ImageResourceDataEntry.ImageResourceDataEntry.
Proof.
  split; [apply reads_DosHeader |].
  split; [apply reads_ImageFileHeader |].
  split; [apply reads_ImageDataDir |].
  split; [apply reads_ImageSectionHeader |].
  split; [apply reads_ImageResourceDir |].
  split; [apply reads_ImageResourceDirEntry |].
  apply reads_ImageResourceDataEntry.
Qed.

Lemma read_le_u32_done (s s' : io.IStream) (v : Z) :
  io.read_le_u32 s = (Done v, s') -> 0 <= v < 2 ^ 32.
Proof.
  unfold io.read_le_u32, bind, io.read, ret.
  destruct (io.position s + 4 >? io.size s); [discriminate |].
  intros H. injection H as <- _.
  pose proof (le_value_bounds (io.slice (io.buffer s) (io.position s) 4)) as Hv.
  pose proof (slice_length (io.buffer s) (io.position s) 4 ltac:(lia)) as Hlen.
  assert (256 ^ Z.of_nat
                  (List.length (io.slice (io.buffer s) (io.position s) 4))
          <= 256 ^ 4) by (apply Z.pow_le_mono_r; lia).
  lia.
Qed.

(** X2: the two words of a directory entry are split at bit 31.  Whatever
    the bytes, a decoded entry has [offset_to_data] and [name_offset] below
    2^31 and [data_is_dir] equal to 0 or 1; [id] is the whole name word, the
    name word is [name_offset] plus 2^31 when [name_is_string] holds, and a
    numeric entry has an id below 2^31 equal to its [name_offset]. *)
Theorem dir_entry_fields_are_split_at_bit_31 (s s' : io.IStream)
    (entry : ImageResourceDirEntry.t) :
  ImageResourceDirEntry.ImageResourceDirEntry s = (Done entry, s') ->
  0 <= ImageResourceDirEntry.offset_to_data entry < 2 ^ 31
  /\ 0 <= ImageResourceDirEntry.name_offset entry < 2 ^ 31
  /\ (ImageResourceDirEntry.data_is_dir entry = 0
      \/ ImageResourceDirEntry.data_is_dir entry = 1)
  /\ ImageResourceDirEntry.id entry = ImageResourceDirEntry.name entry
  /\ ImageResourceDirEntry.name entry
     = ImageResourceDirEntry.name_offset entry
       + (if ImageResourceDirEntry.name_is_string entry then 2 ^ 31 else 0)
  /\ (ImageResourceDirEntry.name_is_string entry = false ->
      ImageResourceDirEntry.id entry = ImageResourceDirEntry.name_offset entry).
Proof.
  unfold ImageResourceDirEntry.ImageResourceDirEntry. intros H.
  apply bind_done_inv in H. destruct H as (name & s1 & Hname & H).
  apply bind_done_inv in H. destruct H as (offset & s2 & Hoffset & H).
  unfold ret in H. injection H as <- _.
  apply read_le_u32_done in Hname. apply read_le_u32_done in Hoffset.
  cbn [ImageResourceDirEntry.offset_to_data ImageResourceDirEntry.name_offset
       ImageResourceDirEntry.data_is_dir ImageResourceDirEntry.id
       ImageResourceDirEntry.name ImageResourceDirEntry.name_is_string].
  change 0x7FFFFFFF with (Z.ones 31).
  rewrite !Z.land_ones, !Z.shiftr_div_pow2 by lia.
  pose proof (Z.mod_pos_bound name (2 ^ 31) ltac:(lia)).
  pose proof (Z.mod_pos_bound offset (2 ^ 31) ltac:(lia)).
  pose proof (Z.div_mod name (2 ^ 31) ltac:(lia)).
  pose proof (Z.div_mod offset (2 ^ 31) ltac:(lia)).
  assert (0 <= name / 2 ^ 31 < 2)
    by (split; [apply Z.div_pos; lia | apply Z.div_lt_upper_bound; lia]).
  assert (0 <= offset / 2 ^ 31 < 2)
    by (split; [apply Z.div_pos; lia | apply Z.div_lt_upper_bound; lia]).
  split; [lia |]. split; [lia |]. split; [lia |]. split; [reflexivity |].
  destruct (Z.gtb_spec (name / 2 ^ 31) 0);
    (split; [lia | intros Hnum; first [discriminate | lia]]).
Qed.

Lemma dir_entry_fields_are_split_at_bit_31_witness :
  exists entry,
    ImageResourceDirEntry.ImageResourceDirEntry (io.mk Samples.image 528)
    = (Done entry, io.mk Samples.image 536)
    /\ 0 <= ImageResourceDirEntry.offset_to_data entry < 2 ^ 31
    /\ ImageResourceDirEntry.data_is_dir entry = 1
    /\ ImageResourceDirEntry.name_is_string entry = true.
Proof.
  assert (Hrun :
    ImageResourceDirEntry.ImageResourceDirEntry (io.mk Samples.image 528)
    = (Done (ImageResourceDirEntry.mk 40 true 120 (2 ^ 31 + 120)
               (2 ^ 31 + 120) 1),
       io.mk Samples.image 536)) by (vm_compute; reflexivity).
  eexists. split; [exact Hrun |].
  split; [apply (dir_entry_fields_are_split_at_bit_31 _ _ _ Hrun) |].
  split; reflexivity.
Defined.

(** ** Address translator: alignment and sections *)

Lemma adjust_file_alignment_eq (h : RvaHelper.t) (x : Z) :
  0 <= x < 2 ^ 32 ->
  RvaHelper.adjust_file_alignment h x
  = if RvaHelper.file_alignment h <? 512 then x else 512 * (x / 512).
Proof.
  intros Hx. unfold RvaHelper.adjust_file_alignment. change 0x200 with 512.
  destruct (RvaHelper.file_alignment h <? 512); [reflexivity |].
  destruct (round_down_bounds 512 x ltac:(lia) ltac:(lia)).
  rewrite Z.mul_comm. apply u32_small. lia.
Qed.

Lemma adjust_section_alignment_eq (h : RvaHelper.t) (x : Z) :
  0 <= x < 2 ^ 32 ->
  0 <= RvaHelper.file_alignment h -> 0 <= RvaHelper.section_alignment h ->
  let d := Spec.effective_section_alignment
             (RvaHelper.file_alignment h) (RvaHelper.section_alignment h) in
  0 <= d
  /\ RvaHelper.adjust_section_alignment h x
     = if d =? 0 then x else d * (x / d).
Proof.
  intros Hx Hfa Hsa d.
  assert (Hd : 0 <= d).
  { subst d. unfold Spec.effective_section_alignment.
    destruct (RvaHelper.section_alignment h <? 4096); assumption. }
  split; [exact Hd |].
  unfold RvaHelper.adjust_section_alignment. change 0x1000 with 4096.
  fold (Spec.effective_section_alignment
          (RvaHelper.file_alignment h) (RvaHelper.section_alignment h)).
  fold d.
  destruct (Z.eqb_spec d 0) as [Hz | Hnz]; cbn [negb andb]; [reflexivity |].
  destruct (round_down_bounds d x ltac:(lia) ltac:(lia)).
  destruct (Z.eqb_spec (x mod d) 0) as [Hm | Hm]; cbn [negb].
  - pose proof (Z.div_mod x d Hnz). lia.
  - apply u32_small. lia.
Qed.

(** X3: both alignment adjustments are idempotent and monotone on 32-bit
    offsets: adjusting an adjusted offset changes nothing, and a larger
    offset never gets a smaller adjusted offset. *)
Theorem alignment_adjustments_are_idempotent_and_monotone (h : RvaHelper.t)
    (x y : Z) :
  0 <= x <= y -> y < 2 ^ 32 ->
  0 <= RvaHelper.file_alignment h -> 0 <= RvaHelper.section_alignment h ->
  RvaHelper.adjust_file_alignment h (RvaHelper.adjust_file_alignment h x)
  = RvaHelper.adjust_file_alignment h x
  /\ RvaHelper.adjust_file_alignment h x <= RvaHelper.adjust_file_alignment h y
  /\ RvaHelper.adjust_section_alignment h
       (RvaHelper.adjust_section_alignment h x)
     = RvaHelper.adjust_section_alignment h x
  /\ RvaHelper.adjust_section_alignment h x
     <= RvaHelper.adjust_section_alignment h y.
Proof.
  intros Hxy Hy Hfa Hsa.
  destruct (adjust_section_alignment_eq h x ltac:(lia) Hfa Hsa) as [Hd Hsx].
  destruct (adjust_section_alignment_eq h y ltac:(lia) Hfa Hsa) as [_ Hsy].
  pose proof (adjust_file_alignment_eq h x ltac:(lia)) as Hfx.
  pose proof (adjust_file_alignment_eq h y ltac:(lia)) as Hfy.
  set (d := Spec.effective_section_alignment
              (RvaHelper.file_alignment h) (RvaHelper.section_alignment h)) in *.
  assert (Hfx' : 0 <= RvaHelper.adjust_file_alignment h x < 2 ^ 32).
  { rewrite Hfx. destruct (RvaHelper.file_alignment h <? 512); [lia |].
    destruct (round_down_bounds 512 x ltac:(lia) ltac:(lia)). lia. }
  assert (Hsx' : 0 <= RvaHelper.adjust_section_alignment h x < 2 ^ 32).
  { rewrite Hsx. destruct (Z.eqb_spec d 0); [lia |].
    destruct (round_down_bounds d x ltac:(lia) ltac:(lia)). lia. }
  split; [| split; [| split]].
  - rewrite (adjust_file_alignment_eq h _ Hfx'), Hfx.
    destruct (RvaHelper.file_alignment h <? 512); [reflexivity |].
    f_equal. rewrite Z.mul_comm. apply Z.div_mul. lia.
  - rewrite Hfx, Hfy.
    destruct (RvaHelper.file_alignment h <? 512); [lia |].
    apply Z.mul_le_mono_nonneg_l; [lia |]. apply Z.div_le_mono; lia.
  - destruct (adjust_section_alignment_eq h _ Hsx' Hfa Hsa) as [_ Hss].
    fold d in Hss. rewrite Hss, Hsx.
    destruct (Z.eqb_spec d 0); [reflexivity |].
    f_equal. rewrite Z.mul_comm. apply Z.div_mul. lia.
  - rewrite Hsx, Hsy. destruct (Z.eqb_spec d 0); [lia |].
    apply Z.mul_le_mono_nonneg_l; [lia |]. apply Z.div_le_mono; lia.
Qed.

Lemma alignment_adjustments_are_idempotent_and_monotone_witness :
  RvaHelper.adjust_section_alignment Samples.rva_helper 0x1234
  <= RvaHelper.adjust_section_alignment Samples.rva_helper 0x2345.
Proof.
  apply (alignment_adjustments_are_idempotent_and_monotone
           Samples.rva_helper 0x1234 0x2345); cbn; lia.
Defined.

(** X4: a section of virtual size 0 contains no address, so the search for
    the owning section passes over it. *)
Theorem empty_section_is_passed_over (section : ImageSectionHeader.t)
    (rest : list ImageSectionHeader.t) (rva : Z) :
  0 <= ImageSectionHeader.virtual_address section < 2 ^ 32 ->
  ImageSectionHeader.virtual_size section = 0 ->
  RvaHelper.find_section rva (section :: rest) = RvaHelper.find_section rva rest.
Proof.
  intros Hva Hsize. cbn [RvaHelper.find_section].
  unfold RvaHelper.in_section. rewrite Hsize, Z.add_0_r, u32_small by exact Hva.
  destruct (Z.geb_spec rva (ImageSectionHeader.virtual_address section));
    destruct (Z.ltb_spec rva (ImageSectionHeader.virtual_address section));
    cbn [andb]; try reflexivity; lia.
Qed.

Lemma empty_section_is_passed_over_witness :
  RvaHelper.find_section 0x1000
    (ImageSectionHeader.mk [] 0 0x1000 0 0 0 0 0 0 0
     :: RvaHelper.sections Samples.rva_helper)
  = RvaHelper.find_section 0x1000 (RvaHelper.sections Samples.rva_helper).
Proof.
  apply (empty_section_is_passed_over
           (ImageSectionHeader.mk [] 0 0x1000 0 0 0 0 0 0 0)); cbn; lia.
Defined.

(** X5: inside a section whose raw-data pointer and virtual address need no
    adjustment (the file alignment is below 512 or the pointer is a
    multiple of 512; the effective section alignment is 0 or divides the
    virtual address), the translation is the plain shift: the offset of
    [rva] is [pointer_to_raw_data + (rva - virtual_address)], which lies
    within the [virtual_size] bytes that follow [pointer_to_raw_data]. *)
Theorem rva_to_offset_in_aligned_section (h : RvaHelper.t)
    (section : ImageSectionHeader.t) (rva : Z) :
  RvaHelper.section_for_rva h rva = Done section ->
  0 <= RvaHelper.file_alignment h -> 0 <= RvaHelper.section_alignment h ->
  0 <= ImageSectionHeader.virtual_address section ->
  0 <= ImageSectionHeader.virtual_size section ->
  0 <= ImageSectionHeader.pointer_to_raw_data section ->
  ImageSectionHeader.virtual_address section
  + ImageSectionHeader.virtual_size section < 2 ^ 32 ->
  ImageSectionHeader.pointer_to_raw_data section
  + ImageSectionHeader.virtual_size section <= 2 ^ 32 ->
  (RvaHelper.file_alignment h < 512
   \/ ImageSectionHeader.pointer_to_raw_data section mod 512 = 0) ->
  (Spec.effective_section_alignment
     (RvaHelper.file_alignment h) (RvaHelper.section_alignment h) = 0
   \/ ImageSectionHeader.virtual_address section
        mod Spec.effective_section_alignment
              (RvaHelper.file_alignment h) (RvaHelper.section_alignment h)
      = 0) ->
  let offset :=
    ImageSectionHeader.pointer_to_raw_data section
    + (rva - ImageSectionHeader.virtual_address section) in
  RvaHelper.rva_to_offset h rva = Done offset
  /\ ImageSectionHeader.pointer_to_raw_data section <= offset
       < ImageSectionHeader.pointer_to_raw_data section
         + ImageSectionHeader.virtual_size section.
Proof.
  intros Hfind Hfa Hsa Hva Hvsize Hptr Hvend Hpend Hfile Hsect offset.
  assert (Hin : Spec.contains section rva).
  { pose proof (find_section_spec rva (RvaHelper.sections h)) as Hspec.
    unfold RvaHelper.section_for_rva in Hfind. rewrite Hfind in Hspec.
    destruct Hspec as (_ & _ & _ & _ & Hc). exact Hc. }
  unfold Spec.contains in Hin. rewrite u32_small in Hin by lia.
  assert (Hsize : 0 < ImageSectionHeader.virtual_size section) by lia.
  unfold RvaHelper.rva_to_offset. rewrite Hfind.
  destruct (adjust_section_alignment_eq h
              (ImageSectionHeader.virtual_address section)
              ltac:(lia) Hfa Hsa) as [Hd ->].
  rewrite adjust_file_alignment_eq by lia.
  set (d := Spec.effective_section_alignment
              (RvaHelper.file_alignment h) (RvaHelper.section_alignment h)) in *.
  assert (Hs : (if d =? 0 then ImageSectionHeader.virtual_address section
                else d * (ImageSectionHeader.virtual_address section / d))
               = ImageSectionHeader.virtual_address section).
  { destruct (Z.eqb_spec d 0) as [_ | Hnz]; [reflexivity |].
    destruct Hsect as [Hz | Hsect]; [contradiction |].
    pose proof (Z.div_mod (ImageSectionHeader.virtual_address section) d Hnz).
    lia. }
  assert (Hf : (if RvaHelper.file_alignment h <? 512
                then ImageSectionHeader.pointer_to_raw_data section
                else 512 * (ImageSectionHeader.pointer_to_raw_data section / 512))
               = ImageSectionHeader.pointer_to_raw_data section).
  { destruct (Z.ltb_spec (RvaHelper.file_alignment h) 512); [reflexivity |].
    destruct Hfile as [Hlt | Hmod]; [lia |].
    pose proof (Z.div_mod (ImageSectionHeader.pointer_to_raw_data section) 512
                  ltac:(lia)). lia. }
  rewrite Hs, Hf. subst offset. split; [| lia].
  f_equal. rewrite u32_small by lia. lia.
Qed.

Lemma rva_to_offset_in_aligned_section_witness :
  RvaHelper.rva_to_offset Samples.rva_helper (0x1000 + 200)
  = Done (0x200 + (0x1000 + 200 - 0x1000))
  /\ RvaHelper.rva_to_offset
       (RvaHelper.mk 0 0
          [ImageSectionHeader.mk (Samples.zeros 8) 0x1000 0x1234 0x200 0x321
             0 0 0 0 0]) (0x1234 + 200)
     = Done (0x321 + (0x1234 + 200 - 0x1234)).
Proof.
  split.
  - apply (rva_to_offset_in_aligned_section Samples.rva_helper
             (ImageSectionHeader.mk (Samples.zeros 8) 0x1000 0x1000 0x200 0x200
                0 0 0 0 0) (0x1000 + 200));
      first [ reflexivity | right; reflexivity | cbn; lia ].
  - apply (rva_to_offset_in_aligned_section
             (RvaHelper.mk 0 0
                [ImageSectionHeader.mk (Samples.zeros 8) 0x1000 0x1234 0x200
                   0x321 0 0 0 0 0])
             (ImageSectionHeader.mk (Samples.zeros 8) 0x1000 0x1234 0x200 0x321
                0 0 0 0 0) (0x1234 + 200));
      first [ reflexivity | left; reflexivity | cbn; lia ].
Defined.

(** ** Extraction *)

Lemma slice_exact_length (buf : list byte) (p n : Z) :
  0 <= p -> 0 <= n -> p + n <= Z.of_nat (List.length buf) ->
  Z.of_nat (List.length (io.slice buf p n)) = n.
Proof.
  intros Hp Hn Hfit. unfold io.slice. rewrite length_firstn, length_skipn. lia.
Qed.

Lemma read_file_impl_run
    (guess_extension : File.t -> File.t) (entry : ArchiveEntryImpl.t)
    (buf : list byte) (p : Z) :
  0 <= ArchiveEntryImpl.offset entry -> 0 <= ArchiveEntryImpl.size entry ->
  let offset := ArchiveEntryImpl.offset entry in
  let size := ArchiveEntryImpl.size entry in
  (offset + size <= Z.of_nat (List.length buf) ->
     read_file_impl guess_extension entry (io.mk buf p)
     = (Done (guess_extension
                (File.mk (ArchiveEntryImpl.path entry)
                   (io.slice buf offset size))),
        io.mk buf (offset + size))
     /\ Z.of_nat (List.length (io.slice buf offset size)) = size)
  /\ (Z.of_nat (List.length buf) < offset + size ->
        fst (read_file_impl guess_extension entry (io.mk buf p))
        = Throw EofError).
Proof.
  intros Hoff Hsize offset size. unfold read_file_impl, bind, io.seek, io.size.
  cbn [io.buffer io.position]. fold offset size. split; intros Hfit.
  - destruct (Z.gtb_spec offset (Z.of_nat (List.length buf))); [lia |].
    rewrite read_at by lia. split; [reflexivity |].
    apply slice_exact_length; lia.
  - destruct (Z.gtb_spec offset (Z.of_nat (List.length buf))); [reflexivity |].
    rewrite read_past_end by lia. reflexivity.
Qed.


(** X6: extraction returns exactly the [size] bytes of the file that start
    at [offset], under the path of the entry and before any renaming by
    [guess_extension], when that range lies within the file; when it does
    not, extraction fails with the end-of-stream error and returns
    nothing. *)
Theorem read_file_impl_returns_the_byte_range
    (guess_extension : File.t -> File.t) (entry : ArchiveEntryImpl.t)
    (buf : list byte) (p : Z) :
  0 <= ArchiveEntryImpl.offset entry -> 0 <= ArchiveEntryImpl.size entry ->
  let offset := ArchiveEntryImpl.offset entry in
  let size := ArchiveEntryImpl.size entry in
  (offset + size <= Z.of_nat (List.length buf) ->
     read_file_impl guess_extension entry (io.mk buf p)
     = (Done (guess_extension
                (File.mk (ArchiveEntryImpl.path entry)
                   (io.slice buf offset size))),
        io.mk buf (offset + size))
     /\ Z.of_nat (List.length (io.slice buf offset size)) = size)
  /\ (Z.of_nat (List.length buf) < offset + size ->
        fst (read_file_impl guess_extension entry (io.mk buf p))
        = Throw EofError).
Proof.
  intros Hoff Hsize offset size.
  destruct (read_file_impl_run guess_extension entry buf p Hoff Hsize)
    as [Hin Hout].
  split; [exact Hin | exact Hout].
Qed.

Lemma read_file_impl_returns_the_byte_range_witness :
  read_file_impl (fun f => f) (ArchiveEntryImpl.mk "MANIFEST" 716 2)
    (io.mk Samples.image 0)
  = (Done (File.mk "MANIFEST" (io.slice Samples.image 716 2)),
     io.mk Samples.image (716 + 2)).
Proof.
  apply (read_file_impl_returns_the_byte_range (fun f => f)
           (ArchiveEntryImpl.mk "MANIFEST" 716 2) Samples.image 0).
  - cbn. lia.
  - cbn. lia.
  - vm_compute. discriminate.
Defined.

(** ** Enumeration: failures before the crawl *)

(** X7: when the headers decode and the address of the resource data
    directory lies in no section, enumeration fails with the corrupt-data
    error "Section not found": the failure is outside the isolation of the
    crawler, so it is neither caught nor logged, the crawl does not start
    and no entry list is returned. *)
Theorem read_meta_impl_fails_on_unmapped_resource_directory
    (can_reserve : Z -> bool) (fuel : nat)
    (st st' : state) (nt_header : ImageNtHeader.t)
    (data_dirs : list ImageDataDir.t) (sections : list ImageSectionHeader.t)
    (resource_dir : ImageDataDir.t) :
  ExeArchiveDecoder.read_headers can_reserve st
  = (Done (nt_header, data_dirs, sections), st') ->
  nth_error data_dirs 2 = Some resource_dir ->
  (forall section,
     In section sections ->
     ~ Spec.contains section (ImageDataDir.virtual_address resource_dir)) ->
  ExeArchiveDecoder.read_meta_impl can_reserve fuel st
  = (Throw (CorruptDataError "Section not found"), st').
Proof.
  intros Hrun Hnth Hnone. rewrite read_meta_impl_unfold, Hrun.
  unfold ExeArchiveDecoder.enumerate_resources, ExeArchiveDecoder.vector_at.
  rewrite Hnth. unfold bind at 1. unfold ret at 1. unfold bind at 1.
  unfold lift_outcome at 1.
  unfold RvaHelper.rva_to_offset, RvaHelper.section_for_rva.
  cbn [RvaHelper.sections].
  pose proof (find_section_spec
                (ImageDataDir.virtual_address resource_dir) sections) as Hspec.
  destruct (RvaHelper.find_section
              (ImageDataDir.virtual_address resource_dir) sections)
    as [section | e | |]; try contradiction.
  - destruct Hspec as (before & after & -> & _ & Hc).
    exfalso. apply (Hnone section); [| exact Hc].
    apply in_or_app. right. now left.
  - destruct Hspec as [-> _]. reflexivity.
Qed.

Lemma read_meta_impl_fails_on_unmapped_resource_directory_witness :
  fst (ExeArchiveDecoder.read_meta_impl Samples.ample 3
         (Samples.start MoreSamples.unmapped_image))
  = Throw (CorruptDataError "Section not found").
Proof.
  assert (H : exists nt dirs secs st',
             ExeArchiveDecoder.read_headers Samples.ample
               (Samples.start MoreSamples.unmapped_image)
             = (Done (nt, dirs, secs), st')
             /\ nth_error dirs 2 = Some (ImageDataDir.mk 0x5000 0x100)
             /\ secs = RvaHelper.sections Samples.rva_helper).
  { do 4 eexists. split; [vm_compute; reflexivity |].
    split; vm_compute; reflexivity. }
  destruct H as (nt & dirs & secs & st' & Hrun & Hnth & ->).
  rewrite (read_meta_impl_fails_on_unmapped_resource_directory _ 3 _ _ _ _ _ _
             Hrun Hnth); [reflexivity |].
  intros section [<- | []]. unfold Spec.contains. vm_compute.
  intros [_ Hlt]. discriminate.
Defined.

(** ** The crawler: what it appends *)

Lemma read_done_state (n : Z) (s s' : io.IStream) (v : list byte) :
  io.read n s = (Done v, s') ->
  s' = io.mk (io.buffer s) (io.position s + n).
Proof.
  unfold io.read. destruct (io.position s + n >? io.size s); [discriminate |].
  intros H. now injection H as _ <-.
Qed.

Lemma read_le_u32_done_state (s s' : io.IStream) (v : Z) :
  io.read_le_u32 s = (Done v, s') ->
  s' = io.mk (io.buffer s) (io.position s + 4).
Proof.
  unfold io.read_le_u32. intros H.
  apply bind_done_inv in H. destruct H as (bs & s1 & Hread & H).
  unfold ret in H. injection H as _ <-. eapply read_done_state, Hread.
Qed.

Lemma rva_to_offset_done_range (h : RvaHelper.t) (rva offset : Z) :
  RvaHelper.rva_to_offset h rva = Done offset -> 0 <= offset < 2 ^ 32.
Proof.
  unfold RvaHelper.rva_to_offset.
  destruct (RvaHelper.section_for_rva h rva); try discriminate.
  intros H. injection H as <-. unfold u32, wrap. apply Z.mod_pos_bound. lia.
Qed.

Section Translated.
Variable args : ResourceCrawlerArgs.t.

(** The offset of the entry is what the translator returned for some
    32-bit address, and its size is a 32-bit value. *)
Let translated (e : ArchiveEntryImpl.t) : Prop :=
  (exists rva,
     0 <= rva < 2 ^ 32
     /\ RvaHelper.rva_to_offset (ResourceCrawlerArgs.rva_helper args) rva
        = Done (ArchiveEntryImpl.offset e))
  /\ 0 <= ArchiveEntryImpl.offset e < 2 ^ 32
  /\ 0 <= ArchiveEntryImpl.size e < 2 ^ 32.

Lemma inv_process_entry_translated (div : bool) (offset : Z) (path : string) :
  Spec.inv div translated (ResourceCrawler.process_entry args offset path).
Proof.
  unfold ResourceCrawler.process_entry.
  apply inv_bind; [apply inv_on_stream; auto with stream_ok | intros _ _ _].
  apply inv_bind; [apply inv_on_stream; auto with stream_ok |].
  intros r st Hr.
  assert (Hfields :
    0 <= ImageResourceDataEntry.offset_to_data r < 2 ^ 32
    /\ 0 <= ImageResourceDataEntry.size r < 2 ^ 32).
  { unfold on_stream in Hr.
    destruct (ImageResourceDataEntry.ImageResourceDataEntry (input_stream st))
      as [o s1] eqn:Hrun.
    cbn [fst] in Hr. subst o.
    unfold ImageResourceDataEntry.ImageResourceDataEntry in Hrun.
    apply bind_done_inv in Hrun. destruct Hrun as (a & s2 & Ha & Hrun).
    apply bind_done_inv in Hrun. destruct Hrun as (b & s3 & Hb & Hrun).
    apply bind_done_inv in Hrun. destruct Hrun as (c & s4 & _ & Hrun).
    apply bind_done_inv in Hrun. destruct Hrun as ([] & s5 & _ & Hrun).
    unfold ret in Hrun. injection Hrun as <- _.
    apply read_le_u32_done in Ha. apply read_le_u32_done in Hb.
    cbn. split; assumption. }
  destruct Hfields as [Hrva Hsize].
  apply inv_bind;
    [apply inv_lift_outcome, rva_to_offset_finishes | intros off st' Hoff].
  unfold lift_outcome in Hoff. cbn [fst] in Hoff.
  apply inv_push_back. unfold translated.
  cbn [ArchiveEntryImpl.offset ArchiveEntryImpl.size].
  split; [| split; [eapply rva_to_offset_done_range, Hoff | exact Hsize]].
  exists (ImageResourceDataEntry.offset_to_data r). now split.
Qed.

Lemma inv_process_dir_translated (fuel : nat) :
  forall offset path,
    Spec.inv true translated
      (ResourceCrawler.process_dir fuel args offset path).
Proof.
  induction fuel as [| fuel IH]; intros offset path;
    cbn [ResourceCrawler.process_dir].
  - intros st. cbn. split; [apply extends_refl | reflexivity].
  - apply inv_bind; [apply inv_on_stream; auto with stream_ok | intros _ _ _].
    apply inv_bind; [apply inv_on_stream; auto with stream_ok | intros dir _ _].
    cbv zeta. apply inv_for_range. unfold ResourceCrawler.process_dir_step.
    apply inv_bind; [apply inv_on_stream; auto with stream_ok | intros entry _ _].
    unfold ResourceCrawler.process_dir_entry.
    apply inv_try_catch; [| intros e; apply inv_logger_err].
    apply inv_bind; [apply inv_on_stream; auto with stream_ok | intros pos _ _].
    apply inv_peek. unfold ResourceCrawler.entry_body.
    apply inv_bind; [apply inv_read_entry_name | intros name _ _].
    cbv zeta.
    destruct (negb (ImageResourceDirEntry.data_is_dir entry =? 0));
      [apply IH | apply inv_process_entry_translated].
Qed.

(** X8: whatever the outcome of the crawl, the bytes of the stream are left
    as they were, the entries and the log lines present before are kept in
    place and new ones only follow them, and every entry added has an offset
    that the address translator returned for some 32-bit address, hence
    below 2^32, and a size below 2^32. *)
Theorem crawl_appends_translated_entries (fuel : nat) (st : state) :
  let st' := snd (ResourceCrawler.crawl fuel args st) in
  io.buffer (input_stream st') = io.buffer (input_stream st)
  /\ (exists new,
        meta st' = meta st ++ new
        /\ Forall
             (fun e =>
                (exists rva,
                   0 <= rva < 2 ^ 32
                   /\ RvaHelper.rva_to_offset
                        (ResourceCrawlerArgs.rva_helper args) rva
                      = Done (ArchiveEntryImpl.offset e))
                /\ 0 <= ArchiveEntryImpl.offset e < 2 ^ 32
                /\ 0 <= ArchiveEntryImpl.size e < 2 ^ 32)
             new)
  /\ (exists lines, logger st' = logger st ++ lines).
Proof.
  intros st'. subst st'. unfold ResourceCrawler.crawl.
  destruct (inv_process_dir_translated fuel 0 ""%string st) as [Hext _].
  exact Hext.
Qed.
End Translated.

(** ** The crawler: one leaf *)

(** X9: for a data entry that lies within the file, [process_entry] reads
    the address from its first word and the size from its second, ignores
    the code page and the reserved word, and leaves the cursor after the 16
    bytes.  When the translator maps the address, exactly one entry with the
    given path, the translated offset and that size is appended after the
    entries already collected; when it does not, the corrupt-data error is
    thrown and nothing is appended.  A data entry that does not fit in the
    file gives the end-of-stream error and appends nothing. *)
Theorem process_entry_appends_one_translated_entry
    (args : ResourceCrawlerArgs.t) (offset : Z) (path : string)
    (buf : list byte) (p : Z) (m : list ArchiveEntryImpl.t)
    (l : list LogRecord.t) :
  let start := size_t (ResourceCrawlerArgs.base_offset args + offset) in
  let rva := io.le_value (io.slice buf start 4) in
  let size := io.le_value (io.slice buf (start + 4) 4) in
  let st := mk_state (io.mk buf p) m l in
  (start + 16 <= Z.of_nat (List.length buf) ->
     ResourceCrawler.process_entry args offset path st
     = match RvaHelper.rva_to_offset (ResourceCrawlerArgs.rva_helper args) rva
       with
       | Done translated =>
           (Done tt,
            mk_state (io.mk buf (start + 16))
              (m ++ [ArchiveEntryImpl.mk path translated size]) l)
       | Throw e => (Throw e, mk_state (io.mk buf (start + 16)) m l)
       | Diverge => (Diverge, mk_state (io.mk buf (start + 16)) m l)
       | Undefined w => (Undefined w, mk_state (io.mk buf (start + 16)) m l)
       end)
  /\ (Z.of_nat (List.length buf) < start + 16 ->
        fst (ResourceCrawler.process_entry args offset path st) = Throw EofError
        /\ meta (snd (ResourceCrawler.process_entry args offset path st)) = m).
Proof.
  intros start rva size st. subst st.
  unfold ResourceCrawler.process_entry. fold start.
  split; intros Hfit.
  - unfold bind at 1. unfold on_stream at 1. unfold io.seek, io.size.
    cbn [input_stream io.buffer io.position meta logger].
    destruct (Z.gtb_spec start (Z.of_nat (List.length buf))); [lia |].
    unfold bind at 1. unfold on_stream at 1.
    cbn [input_stream meta logger].
    unfold ImageResourceDataEntry.ImageResourceDataEntry.
    run_reads. unfold ret, lift_outcome, push_back.
    cbn [ImageResourceDataEntry.offset_to_data ImageResourceDataEntry.size
         input_stream meta logger].
    fold rva.
    replace (start + 4 + 4 + 4 + 4) with (start + 16) by lia.
    destruct (RvaHelper.rva_to_offset (ResourceCrawlerArgs.rva_helper args) rva);
      reflexivity.
  - match goal with
    | |- fst ?t = _ /\ _ =>
        assert (Hrun : exists p', t = (Throw EofError, mk_state (io.mk buf p') m l))
    end.
    { unfold bind at 1. unfold on_stream at 1. unfold io.seek, io.size.
      cbn [input_stream io.buffer io.position meta logger].
      destruct (Z.gtb_spec start (Z.of_nat (List.length buf))) as [Hgt | Hle];
        [now exists p |].
      unfold bind at 1. unfold on_stream at 1.
      cbn [input_stream meta logger].
      destruct (reads_cases 16 _ buf start reads_ImageResourceDataEntry Hle)
        as [[Hin _] | [_ [p' Hrun]]]; [lia |].
      rewrite Hrun. now exists p'. }
    destruct Hrun as [p' ->]. split; reflexivity.
Qed.

Lemma process_entry_appends_one_translated_entry_witness :
  ResourceCrawler.process_entry Samples.args 88 "ICON"
    (mk_state (io.mk Samples.image 0) [] [])
  = (Done tt,
     mk_state (io.mk Samples.image (600 + 16))
       ([] ++ [ArchiveEntryImpl.mk "ICON" 712 4]) []).
Proof.
  destruct (process_entry_appends_one_translated_entry Samples.args 88 "ICON"
              Samples.image 0 [] []) as [Hin _].
  rewrite Hin; [| vm_compute; discriminate].
  vm_compute. reflexivity.
Defined.

(** ** The crawler: the cursor after a directory *)

Lemma dir_entry_done_state (s s' : io.IStream)
    (entry : ImageResourceDirEntry.t) :
  ImageResourceDirEntry.ImageResourceDirEntry s = (Done entry, s') ->
  s' = io.mk (io.buffer s) (io.position s + 8).
Proof.
  unfold ImageResourceDirEntry.ImageResourceDirEntry. intros H.
  apply bind_done_inv in H. destruct H as (name & s1 & Hname & H).
  apply bind_done_inv in H. destruct H as (offset & s2 & Hoffset & H).
  unfold ret in H. injection H as _ <-.
  apply read_le_u32_done_state in Hname. subst s1.
  apply read_le_u32_done_state in Hoffset. subst s2.
  cbn [io.buffer io.position]. f_equal. lia.
Qed.

Lemma for_range_steps_position (args : ResourceCrawlerArgs.t)
    (descend : Z -> string -> M state unit) (path : string) (k : nat) :
  forall st st',
    for_range k (ResourceCrawler.process_dir_step args descend path) st
    = (Done tt, st') ->
    io.position (input_stream st')
    = io.position (input_stream st) + 8 * Z.of_nat k.
Proof.
  induction k as [| k IH]; intros st st' H; cbn [for_range] in H.
  - unfold ret in H. injection H as <-. lia.
  - apply bind_done_inv in H. destruct H as ([] & st1 & Hstep & H).
    apply IH in H. rewrite H. clear H IH.
    unfold ResourceCrawler.process_dir_step in Hstep.
    apply bind_done_inv in Hstep. destruct Hstep as (entry & st0 & Hentry & Hstep).
    pose proof (process_dir_entry_outcome args descend path entry st0) as Hpos.
    rewrite Hstep in Hpos. rewrite Hpos.
    unfold on_stream in Hentry.
    destruct (ImageResourceDirEntry.ImageResourceDirEntry (input_stream st))
      as [o s1] eqn:Hrun.
    injection Hentry as -> <-. apply dir_entry_done_state in Hrun. subst s1.
    cbn [input_stream io.position]. lia.
Qed.

(** X10: when [process_dir] returns normally, the directory header was
    decoded at [base_offset + offset] and the cursor stands right after the
    entry table of that directory, 16 + 8 * (named + id entries) bytes
    further, whatever the entries led to: every entry record of the table
    was read, each at its own place. *)
Theorem process_dir_ends_after_its_entry_table (fuel : nat)
    (args : ResourceCrawlerArgs.t) (offset : Z) (path : string)
    (st st' : state) :
  ResourceCrawler.process_dir fuel args offset path st = (Done tt, st') ->
  let start := size_t (ResourceCrawlerArgs.base_offset args + offset) in
  exists dir,
    ImageResourceDir.ImageResourceDir
      (io.mk (io.buffer (input_stream st)) start)
    = (Done dir, io.mk (io.buffer (input_stream st)) (start + 16))
    /\ 0 <= ImageResourceDir.number_of_named_entries dir
    /\ 0 <= ImageResourceDir.number_of_id_entries dir
    /\ io.position (input_stream st')
       = start + 16
         + 8 * (ImageResourceDir.number_of_named_entries dir
                + ImageResourceDir.number_of_id_entries dir).
Proof.
  intros H start. destruct fuel as [| fuel]; [discriminate |].
  rewrite process_dir_unfold in H. cbv zeta in H. fold start in H.
  destruct (start >? Z.of_nat (List.length (io.buffer (input_stream st))));
    [discriminate |].
  destruct (ImageResourceDir.ImageResourceDir
              (io.mk (io.buffer (input_stream st)) start))
    as [[dir | e | | w] s1] eqn:Hdir; try discriminate.
  destruct (ImageResourceDir_done _ _ _ _ Hdir) as [Hin ->].
  exists dir. split; [reflexivity |].
  apply for_range_steps_position in H. cbn [input_stream io.position] in H.
  assert (Hcounts : 0 <= ImageResourceDir.number_of_named_entries dir
                    /\ 0 <= ImageResourceDir.number_of_id_entries dir).
  { revert Hdir. unfold ImageResourceDir.ImageResourceDir. run_reads.
    unfold ret. intros Hdir. injection Hdir as <-.
    cbn [ImageResourceDir.number_of_named_entries
         ImageResourceDir.number_of_id_entries].
    split; apply le_value_bounds. }
  destruct Hcounts as [Hnamed Hids].
  split; [exact Hnamed |]. split; [exact Hids |]. lia.
Qed.

Lemma process_dir_ends_after_its_entry_table_witness :
  exists st',
    ResourceCrawler.process_dir 3 Samples.args 0 ""
      (mk_state (io.mk Samples.image 0) [] [])
    = (Done tt, st')
    /\ io.position (input_stream st') = 512 + 16 + 8 * (2 + 1).
Proof.
  assert (H : exists st',
             ResourceCrawler.process_dir 3 Samples.args 0 ""
               (mk_state (io.mk Samples.image 0) [] [])
             = (Done tt, st')) by (eexists; vm_compute; reflexivity).
  destruct H as [st' H]. exists st'. split; [exact H |].
  destruct (process_dir_ends_after_its_entry_table _ _ _ _ _ _ H)
    as (dir & Hdir & _ & _ & Hpos).
  rewrite Hpos. cbv zeta in Hdir.
  assert (Hdir' :
    ImageResourceDir.ImageResourceDir (io.mk Samples.image 512)
    = (Done (ImageResourceDir.mk 0 0 0 0 2 1), io.mk Samples.image 528))
    by (vm_compute; reflexivity).
  change (io.buffer (input_stream (mk_state (io.mk Samples.image 0) [] [])))
    with Samples.image in Hdir.
  change (size_t (ResourceCrawlerArgs.base_offset Samples.args + 0))
    with 512 in Hdir |- *.
  rewrite Hdir' in Hdir. injection Hdir as <-. reflexivity.
Defined.

(** ** Display names of numeric entries *)

Lemma to_int_parses (v : Z) :
  NilZero.int_of_string (NilZero.string_of_int (Z.to_int v))
  = Some (Z.to_int v).
Proof.
  apply NilZero.isi; destruct v; cbn; try discriminate;
    intros H; injection H as H;
    now apply DecimalPos.Unsigned.to_uint_nonnil in H.
Qed.

Lemma table_name_is_no_number (id : Z) :
  In id resource_type_ids ->
  NilZero.int_of_string (ResourceCrawler.resource_type_name id) = None.
Proof.
  unfold resource_type_ids. cbn [In]. intros H.
  repeat (destruct H as [<- | H]; [reflexivity |]). contradiction.
Qed.

(** X11: numeric entries never share a display name: on ids below 2^31,
    which are all the ids a numeric entry can have, two different ids get
    two different names, be they names of the resource-type table or
    decimal strings. *)
Theorem resource_type_name_is_injective (a b : Z) :
  0 <= a < 2 ^ 31 -> 0 <= b < 2 ^ 31 -> a <> b ->
  ResourceCrawler.resource_type_name a <> ResourceCrawler.resource_type_name b.
Proof.
  intros Ha Hb Hne Heq. apply Hne. clear Hne.
  destruct (in_dec Z.eq_dec a resource_type_ids) as [Hina | Hnota];
    destruct (in_dec Z.eq_dec b resource_type_ids) as [Hinb | Hnotb].
  - unfold resource_type_ids in Hina, Hinb. cbn [In] in Hina, Hinb.
    repeat (destruct Hina as [<- | Hina]; [| ]); try contradiction;
      repeat (destruct Hinb as [<- | Hinb]; [| ]); try contradiction;
      first [reflexivity | discriminate Heq].
  - exfalso. pose proof (table_name_is_no_number a Hina) as Hnone.
    rewrite Heq, (resource_type_name_other b Hb Hnotb), to_int_parses in Hnone.
    discriminate.
  - exfalso. pose proof (table_name_is_no_number b Hinb) as Hnone.
    rewrite <- Heq, (resource_type_name_other a Ha Hnota), to_int_parses
      in Hnone.
    discriminate.
  - rewrite (resource_type_name_other a Ha Hnota),
      (resource_type_name_other b Hb Hnotb) in Heq.
    apply (f_equal NilZero.int_of_string) in Heq.
    rewrite !to_int_parses in Heq. injection Heq as Heq.
    now apply DecimalZ.to_int_inj.
Qed.

Lemma resource_type_name_is_injective_witness :
  ResourceCrawler.resource_type_name 3 <> ResourceCrawler.resource_type_name 300.
Proof.
  apply (resource_type_name_is_injective 3 300); lia.
Defined.

(** ** Enumeration: the layout of the headers *)

Lemma bind_run {St A B : Type} (c : M St A) (f : A -> M St B) (s s1 : St)
    (a : A) :
  c s = (Done a, s1) -> bind c f s = f a s1.
Proof. intros H. unfold bind. now rewrite H. Qed.

Lemma on_stream_run {A : Type} (c : M io.IStream A) (s s1 : io.IStream)
    (m : list ArchiveEntryImpl.t) (l : list LogRecord.t) (a : A) :
  c s = (Done a, s1) ->
  on_stream c (mk_state s m l) = (Done a, mk_state s1 m l).
Proof. intros H. unfold on_stream. cbn [input_stream]. now rewrite H. Qed.

Lemma seek_at (buf : list byte) (p offset : Z) :
  offset <= Z.of_nat (List.length buf) ->
  io.seek offset (io.mk buf p) = (Done tt, io.mk buf offset).
Proof.
  intros H. unfold io.seek, io.size. cbn [io.buffer].
  destruct (Z.gtb_spec offset (Z.of_nat (List.length buf))); [lia | reflexivity].
Qed.

Lemma repeat_read_reads {A : Type} (k : Z) (c : M io.IStream A)
    (buf : list byte) (n : nat) :
  Spec.reads k c ->
  forall p,
    p + k * Z.of_nat n <= Z.of_nat (List.length buf) ->
    exists items,
      repeat_read n c (io.mk buf p)
      = (Done items, io.mk buf (p + k * Z.of_nat n))
      /\ List.length items = n.
Proof.
  intros [Hk Hc]. induction n as [| n IH]; intros p Hfit; cbn [repeat_read].
  - exists []. unfold ret. split; [| reflexivity]. do 2 f_equal. lia.
  - destruct (Hc buf p) as [Hok _].
    destruct Hok as [x Hx]; [nia |].
    destruct (IH (p + k)) as (items & Hitems & Hlen); [nia |].
    exists (x :: items). split; [| cbn; now rewrite Hlen].
    rewrite (bind_run _ _ _ _ _ Hx), (bind_run _ _ _ _ _ Hitems).
    unfold ret. do 2 f_equal. nia.
Qed.

(** Runs nested decoders on a stream that is long enough for their reads. *)
Ltac run_nested_reads :=
  unfold bind, ret;
  repeat (first [ rewrite read_le_u16_at by lia
                | rewrite read_le_u32_at by lia
                | rewrite read_le_u64_at by lia
                | rewrite read_u8_at by lia
                | rewrite read_at by lia
                | rewrite skip_at by lia ];
          cbv beta iota).

Lemma DosHeader_at_start (buf : list byte) :
  64 <= Z.of_nat (List.length buf) ->
  exists dos_header,
    DosHeader.DosHeader (io.mk buf 0) = (Done dos_header, io.mk buf 64)
    /\ DosHeader.e_lfanew dos_header = io.le_value (io.slice buf 60 4).
Proof.
  intros H. unfold DosHeader.DosHeader. run_reads. unfold ret.
  eexists. split; reflexivity.
Qed.

Lemma ImageNtHeader_at (buf : list byte) (p : Z) :
  let magic := io.le_value (io.slice buf (p + 24) 2) in
  let width := if magic =? 0x20B then 8 else 4 in
  p + 104 + 4 * width <= Z.of_nat (List.length buf) ->
  exists nt_header,
    ImageNtHeader.ImageNtHeader (io.mk buf p)
    = (Done nt_header, io.mk buf (p + 104 + 4 * width))
    /\ ImageFileHeader.number_of_sections
         (ImageNtHeader.file_header nt_header)
       = io.le_value (io.slice buf (p + 6) 2)
    /\ ImageFileHeader.size_of_optional_header
         (ImageNtHeader.file_header nt_header)
       = io.le_value (io.slice buf (p + 20) 2)
    /\ ImageOptionalHeader.number_of_rva_and_sizes
         (ImageNtHeader.optional_header nt_header)
       = io.le_value (io.slice buf (p + 100 + 4 * width) 4).
Proof.
  intros magic width H.
  assert (Hw : width = 4 \/ width = 8)
    by (subst width; destruct (magic =? 0x20B); auto).
  unfold ImageNtHeader.ImageNtHeader, ImageFileHeader.ImageFileHeader,
    ImageOptionalHeader.ImageOptionalHeader.
  run_nested_reads.
  replace (p + 4 + 2 + 2 + 4 + 4 + 4 + 2 + 2) with (p + 24) by lia.
  fold magic. cbv zeta.
  destruct (magic =? 0x20B) eqn:Hm; subst width;
    run_nested_reads; eexists;
    (split; [apply f_equal2; [reflexivity | f_equal; lia] |]);
    cbn [ImageNtHeader.file_header ImageNtHeader.optional_header
         ImageFileHeader.number_of_sections
         ImageFileHeader.size_of_optional_header
         ImageOptionalHeader.number_of_rva_and_sizes];
    repeat split; do 2 f_equal; lia.
Qed.

(** X12: the headers are read as one contiguous run.  The NT header is
    taken at [e_lfanew] (bytes 60..63 of the file); it is 120 bytes long, or
    136 when the optional-header magic is 0x20B; the declared number of data
    directories follows it at once, 8 bytes each, and the declared number of
    section headers follows those at once, 40 bytes each.  The
    [size_of_optional_header] field plays no part in locating the section
    table.  When the file holds that whole run the headers decode, with as
    many data directories and sections as declared, and the cursor ends
    after the last section header.  The storage for the declared number of
    data directories is reserved right after the NT header: the headers
    decode when none is declared or the allocator grants the storage, and
    [std::bad_alloc] leaves the call at that point when it does not. *)
Theorem read_headers_reads_one_contiguous_run (can_reserve : Z -> bool)
    (buf : list byte) (m : list ArchiveEntryImpl.t) (l : list LogRecord.t) :
  let e_lfanew := io.le_value (io.slice buf 60 4) in
  let section_count := io.le_value (io.slice buf (e_lfanew + 6) 2) in
  let magic := io.le_value (io.slice buf (e_lfanew + 24) 2) in
  let width := if magic =? 0x20B then 8 else 4 in
  let dir_count := io.le_value (io.slice buf (e_lfanew + 100 + 4 * width) 4) in
  let total :=
    e_lfanew + 104 + 4 * width + 8 * dir_count + 40 * section_count in
  total <= Z.of_nat (List.length buf) ->
  if ExeArchiveDecoder.reserve_fails can_reserve dir_count
  then
    ExeArchiveDecoder.read_headers can_reserve (mk_state (io.mk buf 0) m l)
    = (Throw BadAlloc,
       mk_state (io.mk buf (e_lfanew + 104 + 4 * width)) m l)
  else
    exists nt_header data_dirs sections,
      ExeArchiveDecoder.read_headers can_reserve (mk_state (io.mk buf 0) m l)
      = (Done (nt_header, data_dirs, sections), mk_state (io.mk buf total) m l)
      /\ Z.of_nat (List.length data_dirs) = dir_count
      /\ Z.of_nat (List.length sections) = section_count.
Proof.
  intros e_lfanew section_count magic width dir_count total Hfit.
  assert (He : 0 <= e_lfanew) by apply le_value_bounds.
  assert (Hs : 0 <= section_count) by apply le_value_bounds.
  assert (Hd : 0 <= dir_count) by apply le_value_bounds.
  assert (Hw : width = 4 \/ width = 8)
    by (subst width; destruct (magic =? 0x20B); auto).
  destruct (DosHeader_at_start buf ltac:(lia)) as (dos & Hdos & Hlfanew).
  destruct (ImageNtHeader_at buf e_lfanew ltac:(fold magic; fold width; lia))
    as (nt & Hnt & Hsections & _ & Hdirs).
  fold magic in Hnt, Hdirs. fold width in Hnt, Hdirs.
  fold section_count in Hsections. fold dir_count in Hdirs.
  destruct (repeat_read_reads 8 ImageDataDir.ImageDataDir buf
              (Z.to_nat dir_count) reads_ImageDataDir
              (e_lfanew + 104 + 4 * width) ltac:(lia))
    as (dirs & Hrundirs & Hlendirs).
  destruct (repeat_read_reads 40 ImageSectionHeader.ImageSectionHeader buf
              (Z.to_nat section_count) reads_ImageSectionHeader
              (e_lfanew + 104 + 4 * width + 8 * Z.of_nat (Z.to_nat dir_count))
              ltac:(lia))
    as (secs & Hrunsecs & Hlensecs).
  assert (Hprefix :
            ExeArchiveDecoder.read_headers can_reserve
              (mk_state (io.mk buf 0) m l)
            = (if ExeArchiveDecoder.reserve_fails can_reserve dir_count
               then throw BadAlloc
               else
                 data_dirs <- on_stream
                   (repeat_read (Z.to_nat dir_count)
                      ImageDataDir.ImageDataDir) ;;
                 sections <- on_stream
                   (repeat_read (Z.to_nat section_count)
                      ImageSectionHeader.ImageSectionHeader) ;;
                 ret (nt, data_dirs, sections))
                (mk_state (io.mk buf (e_lfanew + 104 + 4 * width)) m l)).
  { unfold ExeArchiveDecoder.read_headers.
    rewrite (bind_run _ _ _ _ _ (on_stream_run _ _ _ m l _ Hdos)).
    cbn [input_stream meta logger]. rewrite Hlfanew. fold e_lfanew.
    rewrite (bind_run _ _ _ _ _
               (on_stream_run _ _ _ m l _
                  (seek_at buf 64 e_lfanew ltac:(lia)))).
    cbn [input_stream meta logger].
    rewrite (bind_run _ _ _ _ _ (on_stream_run _ _ _ m l _ Hnt)).
    cbn [input_stream meta logger]. cbv zeta. rewrite Hdirs, Hsections.
    unfold ExeArchiveDecoder.vector_reserve, bind at 1.
    destruct (ExeArchiveDecoder.reserve_fails can_reserve dir_count);
      reflexivity. }
  rewrite Hprefix.
  destruct (ExeArchiveDecoder.reserve_fails can_reserve dir_count);
    [reflexivity |].
  exists nt, dirs, secs. split; [| split; lia].
  rewrite (bind_run _ _ _ _ _ (on_stream_run _ _ _ m l _ Hrundirs)).
  cbn [input_stream meta logger].
  rewrite (bind_run _ _ _ _ _ (on_stream_run _ _ _ m l _ Hrunsecs)).
  cbn [input_stream meta logger]. unfold ret.
  do 3 f_equal. subst total. lia.
Qed.

Lemma read_headers_reads_one_contiguous_run_witness :
  exists nt_header data_dirs sections,
    ExeArchiveDecoder.read_headers Samples.ample
      (mk_state (io.mk Samples.image 0) [] [])
    = (Done (nt_header, data_dirs, sections),
       mk_state (io.mk Samples.image (64 + 104 + 4 * 4 + 8 * 3 + 40 * 1)) [] [])
    /\ Z.of_nat (List.length data_dirs) = 3
    /\ Z.of_nat (List.length sections) = 1.
Proof.
  apply (read_headers_reads_one_contiguous_run Samples.ample Samples.image
           [] []).
  vm_compute. discriminate.
Defined.

(** ** Enumeration: what it returns *)

Lemma stream_ok_repeat_read {A : Type} (c : M io.IStream A) (n : nat) :
  Spec.stream_ok c -> Spec.stream_ok (repeat_read n c).
Proof.
  intros Hc. induction n as [| n IH]; cbn [repeat_read].
  - apply stream_ok_ret.
  - apply stream_ok_bind; [exact Hc | intros x].
    apply stream_ok_bind; [exact IH | intros xs]. apply stream_ok_ret.
Qed.

Lemma stream_ok_DosHeader : Spec.stream_ok DosHeader.DosHeader.
Proof. unfold DosHeader.DosHeader. stream_ok_structure. Qed.

Lemma stream_ok_ImageFileHeader : Spec.stream_ok ImageFileHeader.ImageFileHeader.
Proof. unfold ImageFileHeader.ImageFileHeader. stream_ok_structure. Qed.

Lemma stream_ok_ImageOptionalHeader :
  Spec.stream_ok ImageOptionalHeader.ImageOptionalHeader.
Proof.
  unfold ImageOptionalHeader.ImageOptionalHeader.
  do 24 (apply stream_ok_bind; [solve [eauto with stream_ok] | intros ?]).
  cbv zeta.
  match goal with |- context [if ?b then _ else _] => destruct b end;
    stream_ok_structure.
Qed.

Lemma stream_ok_ImageNtHeader : Spec.stream_ok ImageNtHeader.ImageNtHeader.
Proof.
  unfold ImageNtHeader.ImageNtHeader.
  apply stream_ok_bind; [auto with stream_ok | intros ?].
  apply stream_ok_bind; [apply stream_ok_ImageFileHeader | intros ?].
  apply stream_ok_bind; [apply stream_ok_ImageOptionalHeader | intros ?].
  apply stream_ok_ret.
Qed.

Lemma stream_ok_ImageDataDir : Spec.stream_ok ImageDataDir.ImageDataDir.
Proof. unfold ImageDataDir.ImageDataDir. stream_ok_structure. Qed.

Lemma stream_ok_ImageSectionHeader :
  Spec.stream_ok ImageSectionHeader.ImageSectionHeader.
Proof. unfold ImageSectionHeader.ImageSectionHeader. stream_ok_structure. Qed.

Lemma inv_vector_reserve (can_reserve : Z -> bool)
    (Q : ArchiveEntryImpl.t -> Prop) (n : Z) :
  Spec.inv false Q (ExeArchiveDecoder.vector_reserve can_reserve n).
Proof.
  intros st. unfold ExeArchiveDecoder.vector_reserve.
  destruct (ExeArchiveDecoder.reserve_fails can_reserve n); cbn [fst snd];
    (split; [| exact I]);
    (split; [reflexivity |]);
    (split; [exists []; now rewrite app_nil_r | exists []; now rewrite app_nil_r]).
Qed.

Lemma inv_read_headers (can_reserve : Z -> bool)
    (Q : ArchiveEntryImpl.t -> Prop) :
  Spec.inv false Q (ExeArchiveDecoder.read_headers can_reserve).
Proof.
  unfold ExeArchiveDecoder.read_headers.
  apply inv_bind;
    [apply inv_on_stream, stream_ok_DosHeader | intros dos _ _].
  apply inv_bind; [apply inv_on_stream, stream_ok_seek | intros _ _ _].
  apply inv_bind;
    [apply inv_on_stream, stream_ok_ImageNtHeader | intros nt _ _].
  cbv zeta. apply inv_bind; [apply inv_vector_reserve | intros _ _ _].
  apply inv_bind;
    [apply inv_on_stream, stream_ok_repeat_read, stream_ok_ImageDataDir
    | intros dirs _ _].
  apply inv_bind;
    [apply inv_on_stream, stream_ok_repeat_read, stream_ok_ImageSectionHeader
    | intros secs _ _].
  apply inv_ret.
Qed.

Lemma read_meta_impl_done (can_reserve : Z -> bool) (fuel : nat)
    (st st' : state) (entries : list ArchiveEntryImpl.t) :
  ExeArchiveDecoder.read_meta_impl can_reserve fuel st = (Done entries, st') ->
  meta st' = entries
  /\ Forall
       (fun e =>
          0 <= ArchiveEntryImpl.offset e < 2 ^ 32
          /\ 0 <= ArchiveEntryImpl.size e < 2 ^ 32)
       entries
  /\ io.buffer (input_stream st') = io.buffer (input_stream st)
  /\ exists lines, logger st' = logger st ++ lines.
Proof.
  intros H. rewrite read_meta_impl_unfold in H.
  destruct (inv_read_headers can_reserve (fun _ => True) st)
    as [(Hbuf1 & _ & (lines1 & Hlog1)) _].
  destruct (ExeArchiveDecoder.read_headers can_reserve st)
    as [[[[nt dirs] secs] | e | | w] st1]; try discriminate.
  cbn [snd] in Hbuf1, Hlog1.
  unfold ExeArchiveDecoder.enumerate_resources in H.
  apply bind_done_inv in H. destruct H as (dir & st1' & Hdir & H).
  assert (st1' = st1).
  { unfold ExeArchiveDecoder.vector_at in Hdir.
    destruct (nth_error dirs 2); [| discriminate].
    unfold ret in Hdir. now injection Hdir as _ <-. }
  subst st1'. clear Hdir.
  apply bind_done_inv in H. destruct H as (base & st1' & Hbase & H).
  unfold lift_outcome in Hbase. injection Hbase as _ <-.
  apply bind_done_inv in H. destruct H as ([] & st2 & Hreset & H).
  injection Hreset as <-.
  apply bind_done_inv in H. destruct H as ([] & st3 & Hcrawl & H).
  injection H as <- <-.
  unfold ResourceCrawler.crawl in Hcrawl.
  match type of Hcrawl with
  | ResourceCrawler.process_dir _ ?a _ _ ?s = _ =>
      destruct (inv_process_dir_translated a fuel 0 ""%string s)
        as [(Hbuf3 & (new & Hnew & Hall) & (lines3 & Hlog3)) _]
  end.
  rewrite Hcrawl in Hbuf3, Hnew, Hlog3. cbn [snd meta logger input_stream] in *.
  split; [reflexivity |]. split; [| split].
  - rewrite Hnew. cbn [app]. eapply Forall_impl; [| exact Hall].
    intros e (_ & Hoff & Hsize). now split.
  - congruence.
  - exists (lines1 ++ lines3). now rewrite Hlog3, Hlog1, app_assoc.
Qed.


(** X13: when enumeration returns, the list it returns holds only entries
    with an offset and a size below 2^32 (the offset is what the address
    translator returned, the size a 32-bit field); the bytes of the stream are left as they were, and
    the log lines present before the call are kept, new ones following
    them. *)
Theorem read_meta_impl_returns_translated_entries (can_reserve : Z -> bool)
    (fuel : nat) (st st' : state) (entries : list ArchiveEntryImpl.t) :
  ExeArchiveDecoder.read_meta_impl can_reserve fuel st = (Done entries, st') ->
  meta st' = entries
  /\ Forall
       (fun e =>
          0 <= ArchiveEntryImpl.offset e < 2 ^ 32
          /\ 0 <= ArchiveEntryImpl.size e < 2 ^ 32)
       entries
  /\ io.buffer (input_stream st') = io.buffer (input_stream st)
  /\ exists lines, logger st' = logger st ++ lines.
Proof.
  intros H.
  destruct (read_meta_impl_done can_reserve fuel st st' entries H)
    as (Hmeta & Hall & Hbuf & Hlog).
  split; [exact Hmeta |]. split; [exact Hall |]. split; [exact Hbuf | exact Hlog].
Qed.

Lemma read_meta_impl_returns_translated_entries_witness :
  exists entries st',
    ExeArchiveDecoder.read_meta_impl Samples.ample 3 (Samples.start Samples.image)
    = (Done entries, st')
    /\ Forall
         (fun e =>
            0 <= ArchiveEntryImpl.offset e < 2 ^ 32
            /\ 0 <= ArchiveEntryImpl.size e < 2 ^ 32)
         entries.
Proof.
  assert (H : exists entries st',
             ExeArchiveDecoder.read_meta_impl Samples.ample 3 (Samples.start Samples.image)
             = (Done entries, st')) by (do 2 eexists; vm_compute; reflexivity).
  destruct H as (entries & st' & H). exists entries, st'.
  split; [exact H |].
  apply (read_meta_impl_returns_translated_entries _ 3 _ _ _ H).
Defined.

(** ** Enumeration followed by extraction *)

(** X14: enumeration and extraction fit together: for every entry that
    enumeration returns and whose byte range lies within the file,
    extraction returns a file made of exactly [size] bytes, those of the
    input from [offset] on. *)
Theorem enumerated_entry_is_extracted_verbatim (can_reserve : Z -> bool)
    (guess_extension : File.t -> File.t) (fuel : nat) (st st' : state)
    (entries : list ArchiveEntryImpl.t) (entry : ArchiveEntryImpl.t) (p : Z) :
  ExeArchiveDecoder.read_meta_impl can_reserve fuel st = (Done entries, st') ->
  In entry entries ->
  let buf := io.buffer (input_stream st) in
  ArchiveEntryImpl.offset entry + ArchiveEntryImpl.size entry
  <= Z.of_nat (List.length buf) ->
  fst (read_file_impl guess_extension entry (io.mk buf p))
  = Done (guess_extension
            (File.mk (ArchiveEntryImpl.path entry)
               (io.slice buf (ArchiveEntryImpl.offset entry)
                  (ArchiveEntryImpl.size entry))))
  /\ Z.of_nat
       (List.length
          (io.slice buf (ArchiveEntryImpl.offset entry)
             (ArchiveEntryImpl.size entry)))
     = ArchiveEntryImpl.size entry.
Proof.
  intros Hrun Hin buf Hfit.
  destruct (read_meta_impl_done can_reserve fuel st st' entries Hrun)
    as (_ & Hall & _).
  rewrite Forall_forall in Hall. destruct (Hall entry Hin) as [Hoff Hsize].
  destruct (read_file_impl_run guess_extension entry buf p
              ltac:(lia) ltac:(lia)) as [Hok _].
  destruct (Hok Hfit) as [Heq Hlen]. rewrite Heq. split; [reflexivity | exact Hlen].
Qed.

Lemma enumerated_entry_is_extracted_verbatim_witness :
  fst (read_file_impl (fun f => f) (ArchiveEntryImpl.mk "MANIFEST" 716 2)
         (io.mk Samples.image 0))
  = Done (File.mk "MANIFEST" (io.slice Samples.image 716 2)).
Proof.
  assert (H : exists st',
             ExeArchiveDecoder.read_meta_impl Samples.ample 3 (Samples.start Samples.image)
             = (Done [ArchiveEntryImpl.mk
                        ("A" ++ path_sep ++ "ICON" ++ path_sep ++ "1033")
                        712 4;
                      ArchiveEntryImpl.mk "MANIFEST" 716 2], st'))
    by (eexists; vm_compute; reflexivity).
  destruct H as [st' H].
  apply (enumerated_entry_is_extracted_verbatim _ (fun f => f) 3 _ _ _
           (ArchiveEntryImpl.mk "MANIFEST" 716 2) 0 H).
  - right. left. reflexivity.
  - vm_compute. discriminate.
Defined.

(** ** Address translator: the owning section *)

(** X15: [section_for_rva] returns the first section, in table order, whose
    interval contains the address: sections listed after it play no part,
    even when they contain the address too. *)
Theorem section_for_rva_returns_first_containing_section (h : RvaHelper.t)
    (before after : list ImageSectionHeader.t) (section : ImageSectionHeader.t)
    (rva : Z) :
  RvaHelper.sections h = before ++ section :: after ->
  (forall s, In s before -> ~ Spec.contains s rva) ->
  Spec.contains section rva ->
  RvaHelper.section_for_rva h rva = Done section.
Proof.
  intros Hsections Hbefore Hin. unfold RvaHelper.section_for_rva.
  rewrite Hsections. clear Hsections.
  induction before as [| s before IH]; cbn [app RvaHelper.find_section].
  - apply in_section_iff in Hin. now rewrite Hin.
  - destruct (RvaHelper.in_section rva s) eqn:Hs.
    + apply in_section_iff in Hs. exfalso. apply (Hbefore s); [now left | exact Hs].
    + apply IH. intros s' Hs'. apply Hbefore. now right.
Qed.

Lemma section_for_rva_returns_first_containing_section_witness :
  RvaHelper.section_for_rva
    (RvaHelper.mk 0x200 0x1000
       [ImageSectionHeader.mk [] 0x1000 0x1000 0 0x200 0 0 0 0 0;
        ImageSectionHeader.mk [] 0x2000 0x2000 0 0x400 0 0 0 0 0;
        ImageSectionHeader.mk [] 0x4000 0x1000 0 0x800 0 0 0 0 0])
    0x2100
  = Done (ImageSectionHeader.mk [] 0x2000 0x2000 0 0x400 0 0 0 0 0).
Proof.
  apply (section_for_rva_returns_first_containing_section _
           [ImageSectionHeader.mk [] 0x1000 0x1000 0 0x200 0 0 0 0 0]
           [ImageSectionHeader.mk [] 0x4000 0x1000 0 0x800 0 0 0 0 0]).
  - reflexivity.
  - intros s [<- | []]. unfold Spec.contains. vm_compute.
    intros [_ Hlt]. discriminate.
  - unfold Spec.contains. vm_compute. split; [discriminate | reflexivity].
Defined.

(** ** The crawler: a truncated entry table *)

Lemma for_range_step_unfold (args : ResourceCrawlerArgs.t)
    (descend : Z -> string -> M state unit) (path : string) (k : nat)
    (st : state) :
  for_range (S k) (ResourceCrawler.process_dir_step args descend path) st
  = match ImageResourceDirEntry.ImageResourceDirEntry (input_stream st) with
    | (Done entry, s1) =>
        match ResourceCrawler.process_dir_entry args descend path entry
                (mk_state s1 (meta st) (logger st)) with
        | (Done _, st2) =>
            for_range k (ResourceCrawler.process_dir_step args descend path) st2
        | (Throw e, st2) => (Throw e, st2)
        | (Diverge, st2) => (Diverge, st2)
        | (Undefined w, st2) => (Undefined w, st2)
        end
    | (Throw e, s1) => (Throw e, mk_state s1 (meta st) (logger st))
    | (Diverge, s1) => (Diverge, mk_state s1 (meta st) (logger st))
    | (Undefined w, s1) => (Undefined w, mk_state s1 (meta st) (logger st))
    end.
Proof.
  cbn [for_range]. unfold bind at 1.
  unfold ResourceCrawler.process_dir_step at 1. unfold bind at 1.
  unfold on_stream.
  destruct (ImageResourceDirEntry.ImageResourceDirEntry (input_stream st))
    as [[entry | e | | w] s1]; reflexivity.
Qed.

Lemma for_range_truncated (args : ResourceCrawlerArgs.t) (fuel : nat)
    (path : string) (buf : list byte) (k : nat) :
  forall st,
    io.buffer (input_stream st) = buf ->
    io.position (input_stream st) <= Z.of_nat (List.length buf)
      < io.position (input_stream st) + 8 * Z.of_nat k ->
    let o :=
      fst (for_range k
             (ResourceCrawler.process_dir_step args
                (ResourceCrawler.process_dir fuel args) path) st) in
    o = Throw EofError \/ o = Diverge.
Proof.
  induction k as [| k IH]; intros st Hbuf Hpos; [lia |].
  cbv zeta. rewrite for_range_step_unfold.
  destruct st as [[b p] m l].
  cbn [input_stream io.buffer io.position meta logger] in *. subst b.
  destruct (reads_cases 8 _ buf p reads_ImageResourceDirEntry ltac:(lia))
    as [[Hin [entry Hrun]] | [Hout [p' Hrun]]]; rewrite Hrun;
    [| left; reflexivity].
  pose proof (process_dir_entry_outcome args
                (ResourceCrawler.process_dir fuel args) path entry
                (mk_state (io.mk buf (p + 8)) m l)) as Hstep.
  pose proof (inv_process_dir_entry_any args fuel path entry
                (mk_state (io.mk buf (p + 8)) m l)) as [(Hb & _) Hallowed].
  destruct (ResourceCrawler.process_dir_entry args
              (ResourceCrawler.process_dir fuel args) path entry
              (mk_state (io.mk buf (p + 8)) m l))
    as [[[] | e | | w] st2];
    cbn [fst snd input_stream io.buffer io.position Spec.allowed]
      in Hstep, Hb, Hallowed |- *;
    try contradiction.
  - apply IH; [exact Hb | lia].
  - right. reflexivity.
Qed.

(** X16: the entry records of a directory are decoded outside the scope
    that isolates failures.  When the header of a directory decodes and its
    entry table runs past the end of the file, [process_dir] never returns
    normally: the entries that fit are processed, then the end-of-stream
    error leaves the function (unless a descent before that does not
    return).  For the root directory this ends the enumeration. *)
Theorem process_dir_fails_on_truncated_entry_table (fuel : nat)
    (args : ResourceCrawlerArgs.t) (offset : Z) (path : string) (st : state)
    (dir : ImageResourceDir.t) (s' : io.IStream) :
  let buf := io.buffer (input_stream st) in
  let start := size_t (ResourceCrawlerArgs.base_offset args + offset) in
  ImageResourceDir.ImageResourceDir (io.mk buf start) = (Done dir, s') ->
  Z.of_nat (List.length buf)
  < start + 16
    + 8 * (ImageResourceDir.number_of_named_entries dir
           + ImageResourceDir.number_of_id_entries dir) ->
  let o := fst (ResourceCrawler.process_dir fuel args offset path st) in
  o = Throw EofError \/ o = Diverge.
Proof.
  intros buf start Hdir Htrunc o. subst o.
  destruct fuel as [| fuel]; [right; reflexivity |].
  rewrite process_dir_unfold. fold buf start.
  destruct (ImageResourceDir_done _ _ _ _ Hdir) as [Hin ->].
  destruct (Z.gtb_spec start (Z.of_nat (List.length buf))); [lia |].
  rewrite Hdir.
  apply (for_range_truncated args fuel path buf);
    cbn [input_stream io.buffer io.position]; [reflexivity | lia].
Qed.

Lemma process_dir_fails_on_truncated_entry_table_witness :
  fst (ResourceCrawler.process_dir 3 Samples.args 0 ""
         (mk_state (io.mk (firstn 532 Samples.image) 0) [] []))
  = Throw EofError
  \/ fst (ResourceCrawler.process_dir 3 Samples.args 0 ""
            (mk_state (io.mk (firstn 532 Samples.image) 0) [] []))
     = Diverge.
Proof.
  apply (process_dir_fails_on_truncated_entry_table 3 Samples.args 0
           ""%string (mk_state (io.mk (firstn 532 Samples.image) 0) [] [])
           (ImageResourceDir.mk 0 0 0 0 2 1)
           (io.mk (firstn 532 Samples.image) 528)).
  - vm_compute. reflexivity.
  - vm_compute. reflexivity.
Defined.

(** X17: a directory without entries is a normal, empty result: when its
    header lies within the file and declares no named and no id entries,
    [process_dir] returns with the cursor after the header and appends
    neither an entry nor a log line. *)
Theorem process_dir_of_empty_directory (fuel : nat)
    (args : ResourceCrawlerArgs.t) (offset : Z) (path : string)
    (buf : list byte) (p : Z) (m : list ArchiveEntryImpl.t)
    (l : list LogRecord.t) :
  let start := size_t (ResourceCrawlerArgs.base_offset args + offset) in
  start + 16 <= Z.of_nat (List.length buf) ->
  io.le_value (io.slice buf (start + 12) 2) = 0 ->
  io.le_value (io.slice buf (start + 14) 2) = 0 ->
  ResourceCrawler.process_dir (S fuel) args offset path
    (mk_state (io.mk buf p) m l)
  = (Done tt, mk_state (io.mk buf (start + 16)) m l).
Proof.
  intros start Hfit Hnamed Hids.
  rewrite process_dir_unfold. cbv zeta. fold start.
  cbn [input_stream io.buffer meta logger].
  destruct (Z.gtb_spec start (Z.of_nat (List.length buf))); [lia |].
  unfold ImageResourceDir.ImageResourceDir. run_reads. unfold ret.
  cbn [ImageResourceDir.number_of_named_entries
       ImageResourceDir.number_of_id_entries].
  replace (start + 4 + 4 + 2 + 2) with (start + 12) by lia.
  replace (start + 12 + 2) with (start + 14) by lia.
  rewrite Hnamed, Hids. cbn [Z.add Z.to_nat for_range]. unfold ret.
  do 3 f_equal. lia.
Qed.

Lemma process_dir_of_empty_directory_witness :
  ResourceCrawler.process_dir 1 Samples.args 0 ""
    (mk_state (io.mk (Samples.pe_image 0x10B 3 MoreSamples.empty_tree) 0) [] [])
  = (Done tt,
     mk_state (io.mk (Samples.pe_image 0x10B 3 MoreSamples.empty_tree)
                 (512 + 16)) [] []).
Proof.
  apply (process_dir_of_empty_directory 0 Samples.args 0 ""%string
           (Samples.pe_image 0x10B 3 MoreSamples.empty_tree) 0 [] []).
  - vm_compute. discriminate.
  - vm_compute. reflexivity.
  - vm_compute. reflexivity.
Defined.

(** ** Enumeration: truncated headers *)

Lemma bind_throw {St A B : Type} (c : M St A) (f : A -> M St B) (s s1 : St)
    (e : exn) :
  c s = (Throw e, s1) -> bind c f s = (Throw e, s1).
Proof. intros H. unfold bind. now rewrite H. Qed.

Lemma on_stream_throw {A : Type} (c : M io.IStream A) (s s1 : io.IStream)
    (m : list ArchiveEntryImpl.t) (l : list LogRecord.t) (e : exn) :
  c s = (Throw e, s1) ->
  on_stream c (mk_state s m l) = (Throw e, mk_state s1 m l).
Proof. intros H. unfold on_stream. cbn [input_stream]. now rewrite H. Qed.

Lemma reads_fail {A : Type} (k : Z) (c : M io.IStream A) (buf : list byte)
    (p : Z) :
  Spec.reads k c ->
  p <= Z.of_nat (List.length buf) < p + k ->
  exists p', c (io.mk buf p) = (Throw EofError, io.mk buf p').
Proof. intros [_ Hc] Hp. now apply (Hc buf p). Qed.

Lemma repeat_read_truncated {A : Type} (k : Z) (c : M io.IStream A)
    (buf : list byte) (n : nat) :
  Spec.reads k c ->
  forall p,
    p <= Z.of_nat (List.length buf) < p + k * Z.of_nat n ->
    exists p', repeat_read n c (io.mk buf p) = (Throw EofError, io.mk buf p').
Proof.
  intros Hc. induction n as [| n IH]; intros p Hp; [lia |].
  cbn [repeat_read].
  destruct (reads_cases k c buf p Hc ltac:(lia))
    as [[Hin [x Hx]] | [Hout [p' Hx]]].
  - destruct (IH (p + k)) as [p' Hrest]; [destruct Hc; nia |].
    exists p'. rewrite (bind_run _ _ _ _ _ Hx). now apply bind_throw.
  - exists p'. now apply bind_throw.
Qed.

Lemma ImageOptionalHeader_truncated (buf : list byte) (p : Z) :
  let magic := io.le_value (io.slice buf p 2) in
  let width := if magic =? 0x20B then 8 else 4 in
  p <= Z.of_nat (List.length buf) < p + 80 + 4 * width ->
  exists p',
    ImageOptionalHeader.ImageOptionalHeader (io.mk buf p)
    = (Throw EofError, io.mk buf p').
Proof.
  intros magic width Hp.
  assert (Hw : width = 4 \/ width = 8)
    by (subst width; destruct (magic =? 0x20B); auto).
  unfold ImageOptionalHeader.ImageOptionalHeader.
  destruct (Z_le_gt_dec (p + 2) (Z.of_nat (List.length buf))) as [Hle | Hgt].
  - rewrite (bind_run _ _ _ _ _ (read_le_u16_at buf p Hle)). fold magic.
    cbv zeta.
    match goal with
    | |- exists p', ?c (io.mk ?b ?q) = _ =>
        apply (reads_fail (78 + 4 * width) c b q); [| lia]
    end.
    subst width. destruct (magic =? 0x20B); reads_structure.
  - destruct (reads_fail 2 io.read_le_u16 buf p reads_le_u16 ltac:(lia))
      as [p' Hfail].
    exists p'. now apply bind_throw.
Qed.

Lemma ImageNtHeader_truncated (buf : list byte) (p : Z) :
  let magic := io.le_value (io.slice buf (p + 24) 2) in
  let width := if magic =? 0x20B then 8 else 4 in
  p <= Z.of_nat (List.length buf) < p + 104 + 4 * width ->
  exists p',
    ImageNtHeader.ImageNtHeader (io.mk buf p) = (Throw EofError, io.mk buf p').
Proof.
  intros magic width Hp.
  assert (Hw : width = 4 \/ width = 8)
    by (subst width; destruct (magic =? 0x20B); auto).
  unfold ImageNtHeader.ImageNtHeader.
  destruct (reads_cases 4 _ buf p reads_le_u32 ltac:(lia))
    as [[Hin [sig Hsig]] | [_ [p' Hsig]]];
    [| exists p'; now apply bind_throw].
  rewrite (bind_run _ _ _ _ _ Hsig).
  destruct (reads_cases 20 _ buf (p + 4) reads_ImageFileHeader Hin)
    as [[Hin2 [fh Hfh]] | [_ [p' Hfh]]];
    [| exists p'; now apply bind_throw].
  rewrite (bind_run _ _ _ _ _ Hfh).
  replace (p + 4 + 20) with (p + 24) in * by lia.
  destruct (ImageOptionalHeader_truncated buf (p + 24)) as [p' Hoh];
    [fold magic; fold width; lia |].
  exists p'. now apply bind_throw.
Qed.

Lemma seek_past_end (buf : list byte) (p offset : Z) :
  Z.of_nat (List.length buf) < offset ->
  io.seek offset (io.mk buf p) = (Throw EofError, io.mk buf p).
Proof.
  intros H. unfold io.seek, io.size. cbn [io.buffer].
  destruct (Z.gtb_spec offset (Z.of_nat (List.length buf))); [reflexivity | lia].
Qed.

(** X18: a file that ends before the run of headers that it declares (the
    DOS header, the NT header at [e_lfanew], the declared data directories
    and section headers) never decodes.  It is rejected with the
    end-of-stream error, with one exception: when the NT header is complete
    and the storage for the declared number of data directories (one or
    more) cannot be reserved, [std::bad_alloc] is thrown before a data
    directory is read. *)
Theorem read_headers_fails_on_truncated_run (can_reserve : Z -> bool)
    (buf : list byte) (m : list ArchiveEntryImpl.t) (l : list LogRecord.t) :
  let e_lfanew := io.le_value (io.slice buf 60 4) in
  let section_count := io.le_value (io.slice buf (e_lfanew + 6) 2) in
  let magic := io.le_value (io.slice buf (e_lfanew + 24) 2) in
  let width := if magic =? 0x20B then 8 else 4 in
  let dir_count := io.le_value (io.slice buf (e_lfanew + 100 + 4 * width) 4) in
  let total :=
    e_lfanew + 104 + 4 * width + 8 * dir_count + 40 * section_count in
  Z.of_nat (List.length buf) < total ->
  fst (ExeArchiveDecoder.read_headers can_reserve (mk_state (io.mk buf 0) m l))
  = Throw (if (e_lfanew + 104 + 4 * width <=? Z.of_nat (List.length buf))
              && ExeArchiveDecoder.reserve_fails can_reserve dir_count
           then BadAlloc
           else EofError).
Proof.
  intros e_lfanew section_count magic width dir_count total Htrunc.
  assert (He : 0 <= e_lfanew) by apply le_value_bounds.
  assert (Hs : 0 <= section_count) by apply le_value_bounds.
  assert (Hd : 0 <= dir_count) by apply le_value_bounds.
  assert (Hw : width = 4 \/ width = 8)
    by (subst width; destruct (magic =? 0x20B); auto).
  unfold ExeArchiveDecoder.read_headers.
  destruct (Z.leb_spec (e_lfanew + 104 + 4 * width)
              (Z.of_nat (List.length buf))) as [Hnt | Hnt]; cbn [andb].
  2:{ destruct (reads_cases 64 _ buf 0 reads_DosHeader ltac:(lia))
        as [[Hin _] | [_ [p' Hdos]]];
        [| now rewrite (bind_throw _ _ _ _ _
                          (on_stream_throw _ _ _ m l _ Hdos))].
      destruct (DosHeader_at_start buf ltac:(lia)) as (dos & Hdos & Hlfanew).
      rewrite (bind_run _ _ _ _ _ (on_stream_run _ _ _ m l _ Hdos)).
      rewrite Hlfanew. fold e_lfanew.
      destruct (Z_le_gt_dec e_lfanew (Z.of_nat (List.length buf)))
        as [Hle | Hgt];
        [| now rewrite (bind_throw _ _ _ _ _
                          (on_stream_throw _ _ _ m l _
                             (seek_past_end buf 64 e_lfanew ltac:(lia))))].
      rewrite (bind_run _ _ _ _ _
                 (on_stream_run _ _ _ m l _ (seek_at buf 64 e_lfanew Hle))).
      destruct (ImageNtHeader_truncated buf e_lfanew) as [p' Hfail];
        [fold magic; fold width; lia |].
      now rewrite (bind_throw _ _ _ _ _ (on_stream_throw _ _ _ m l _ Hfail)). }
  destruct (DosHeader_at_start buf ltac:(lia)) as (dos & Hdos & Hlfanew).
  rewrite (bind_run _ _ _ _ _ (on_stream_run _ _ _ m l _ Hdos)).
  rewrite Hlfanew. fold e_lfanew.
  rewrite (bind_run _ _ _ _ _
             (on_stream_run _ _ _ m l _
                (seek_at buf 64 e_lfanew ltac:(lia)))).
  destruct (ImageNtHeader_at buf e_lfanew ltac:(fold magic; fold width; lia))
    as (nt & Hrun & Hsections & _ & Hdirs).
  fold magic in Hrun, Hdirs. fold width in Hrun, Hdirs.
  fold section_count in Hsections. fold dir_count in Hdirs.
  rewrite (bind_run _ _ _ _ _ (on_stream_run _ _ _ m l _ Hrun)).
  cbv zeta. rewrite Hdirs, Hsections.
  unfold ExeArchiveDecoder.vector_reserve, bind at 1.
  destruct (ExeArchiveDecoder.reserve_fails can_reserve dir_count);
    [reflexivity |].
  destruct (Z_le_gt_dec (e_lfanew + 104 + 4 * width + 8 * dir_count)
              (Z.of_nat (List.length buf))) as [Hfitdirs | Hfitdirs].
  2:{ destruct (repeat_read_truncated 8 ImageDataDir.ImageDataDir buf
                  (Z.to_nat dir_count) reads_ImageDataDir
                  (e_lfanew + 104 + 4 * width) ltac:(lia)) as [p' Hfail].
      now rewrite (bind_throw _ _ _ _ _ (on_stream_throw _ _ _ m l _ Hfail)). }
  destruct (repeat_read_reads 8 ImageDataDir.ImageDataDir buf
              (Z.to_nat dir_count) reads_ImageDataDir
              (e_lfanew + 104 + 4 * width) ltac:(lia))
    as (dirs & Hrundirs & _).
  rewrite (bind_run _ _ _ _ _ (on_stream_run _ _ _ m l _ Hrundirs)).
  destruct (repeat_read_truncated 40 ImageSectionHeader.ImageSectionHeader buf
              (Z.to_nat section_count) reads_ImageSectionHeader
              (e_lfanew + 104 + 4 * width + 8 * Z.of_nat (Z.to_nat dir_count))
              ltac:(lia)) as [p' Hfail].
  now rewrite (bind_throw _ _ _ _ _ (on_stream_throw _ _ _ m l _ Hfail)).
Qed.

Lemma read_headers_fails_on_truncated_run_witness :
  fst (ExeArchiveDecoder.read_headers Samples.ample
         (mk_state (io.mk (firstn 200 Samples.image) 0) [] []))
  = Throw EofError
  /\ fst (ExeArchiveDecoder.read_headers (fun _ => false)
            (mk_state (io.mk (firstn 200 Samples.image) 0) [] []))
     = Throw BadAlloc.
Proof.
  split.
  - apply (read_headers_fails_on_truncated_run Samples.ample
             (firstn 200 Samples.image) [] []).
    vm_compute. reflexivity.
  - apply (read_headers_fails_on_truncated_run (fun _ => false)
             (firstn 200 Samples.image) [] []).
    vm_compute. reflexivity.
Defined.

(** * The translator, the entry loop, the paths and the depth of the crawl *)

(** ** Address translator: the offset it returns *)

(** C5, as the code has it: [rva_to_offset] takes the first section, in
    table order, whose interval contains the address, the upper end of the
    interval being the 32-bit sum [virtual_address + virtual_size] (reduced
    modulo 2^32).  It returns, reduced modulo 2^32, the address plus the
    raw-data pointer of that section (unchanged when the declared file
    alignment is below 512, rounded down to a multiple of 512 otherwise)
    minus its virtual address rounded down to a multiple of the effective
    section alignment (unchanged when that is 0).  When no section contains
    the address it fails with the corrupt-data error "Section not found". *)
Theorem rva_to_offset_uses_first_containing_section (h : RvaHelper.t)
    (rva : Z) :
  0 <= RvaHelper.file_alignment h ->
  0 <= RvaHelper.section_alignment h ->
  Forall
    (fun s =>
       0 <= ImageSectionHeader.pointer_to_raw_data s < 2 ^ 32
       /\ 0 <= ImageSectionHeader.virtual_address s < 2 ^ 32)
    (RvaHelper.sections h) ->
  match RvaHelper.rva_to_offset h rva with
  | Done offset =>
      exists before section after,
        RvaHelper.sections h = before ++ section :: after
        /\ (forall s,
              In s before ->
              ~ (ImageSectionHeader.virtual_address s <= rva
                 < (ImageSectionHeader.virtual_address s
                    + ImageSectionHeader.virtual_size s) mod 2 ^ 32))
        /\ ImageSectionHeader.virtual_address section <= rva
           < (ImageSectionHeader.virtual_address section
              + ImageSectionHeader.virtual_size section) mod 2 ^ 32
        /\ offset
           = (rva
              + Plain.align_file (RvaHelper.file_alignment h)
                  (ImageSectionHeader.pointer_to_raw_data section)
              - Plain.align_section (RvaHelper.file_alignment h)
                  (RvaHelper.section_alignment h)
                  (ImageSectionHeader.virtual_address section))
             mod 2 ^ 32
  | Throw e =>
      e = CorruptDataError "Section not found"
      /\ forall s,
           In s (RvaHelper.sections h) ->
           ~ (ImageSectionHeader.virtual_address s <= rva
              < (ImageSectionHeader.virtual_address s
                 + ImageSectionHeader.virtual_size s) mod 2 ^ 32)
  | Diverge | Undefined _ => False
  end.
Proof.
  intros Hfa Hsa Hfields.
  unfold RvaHelper.rva_to_offset, RvaHelper.section_for_rva.
  pose proof (find_section_spec rva (RvaHelper.sections h)) as H.
  destruct (RvaHelper.find_section rva (RvaHelper.sections h))
    as [sec | e | |]; try contradiction.
  - destruct H as (before & after & Heq & Hb & Hc).
    exists before, sec, after.
    split; [exact Heq |]. split; [exact Hb |]. split; [exact Hc |].
    rewrite Forall_forall in Hfields.
    destruct (Hfields sec) as [Hptr Hva];
      [rewrite Heq; apply in_or_app; right; now left |].
    rewrite (adjust_file_alignment_eq h _ Hptr).
    destruct (adjust_section_alignment_eq h _ Hva Hfa Hsa) as [_ ->].
    reflexivity.
  - exact H.
Qed.

Lemma rva_to_offset_uses_first_containing_section_witness :
  match RvaHelper.rva_to_offset MoreSamples.unaligned_helper 0x1010 with
  | Done offset => offset = 0x1010 + 0x200 - 0x1000
  | _ => False
  end.
Proof.
  pose proof (rva_to_offset_uses_first_containing_section
                MoreSamples.unaligned_helper 0x1010
                ltac:(cbn; lia) ltac:(cbn; lia)
                ltac:(repeat constructor; cbn; lia)) as H.
  destruct (RvaHelper.rva_to_offset MoreSamples.unaligned_helper 0x1010)
    as [offset | e | |]; try exact H.
  - destruct H as (before & section & after & Heq & _ & _ & ->).
    destruct before as [| s before]; cbn in Heq.
    + injection Heq as <- _. vm_compute. reflexivity.
    + injection Heq as _ Heq. now destruct before.
  - destruct H as [_ Hnone]. apply (Hnone _ (or_introl eq_refl)).
    vm_compute. split; [discriminate | reflexivity].
Defined.

(** Against C5 as worded.  An address inside the interval of a section
    whose end lies past 2^32 is not found: the end is a 32-bit sum.  And
    the pointer of the section is rounded down to 512 when the declared
    file alignment is 512 or more, where the worded adjustment leaves it
    unchanged, so the offset returned is not the worded sum. *)
Lemma rva_to_offset_not_as_worded :
  (let section :=
     ImageSectionHeader.mk (Samples.zeros 8) 0x2000 0xFFFFF000 0x2000 0x400
       0 0 0 0 0 in
   RvaHelper.sections MoreSamples.overflowing_helper = [section]
   /\ ImageSectionHeader.virtual_address section <= 0xFFFFF800
      < ImageSectionHeader.virtual_address section
        + ImageSectionHeader.virtual_size section
   /\ RvaHelper.rva_to_offset MoreSamples.overflowing_helper 0xFFFFF800
      = Throw (CorruptDataError "Section not found"))
  /\ RvaHelper.rva_to_offset MoreSamples.unaligned_helper 0x1010 = Done 0x210
  /\ 0x1010 + Spec.align_file 0x200 0x345
     - RvaHelper.adjust_section_alignment MoreSamples.unaligned_helper 0x1000
     = 0x355.
Proof.
  split; [| split]; try (vm_compute; reflexivity).
  cbv zeta. split; [reflexivity |].
  split; [vm_compute; split; [discriminate | reflexivity] |].
  vm_compute. reflexivity.
Qed.

(** ** The resource tree as it lies in the file *)

Lemma ImageResourceDirEntry_done (buf : list byte) (p : Z)
    (entry : ImageResourceDirEntry.t) (s' : io.IStream) :
  ImageResourceDirEntry.ImageResourceDirEntry (io.mk buf p) = (Done entry, s') ->
  p + 8 <= Z.of_nat (List.length buf) /\ s' = io.mk buf (p + 8).
Proof.
  intros H. destruct (Z_le_gt_dec p (Z.of_nat (List.length buf))) as [Hle | Hgt].
  - destruct (reads_cases 8 _ buf p reads_ImageResourceDirEntry Hle)
      as [[Hin [v Hrun]] | [Hout [p' Hrun]]]; rewrite Hrun in H.
    + split; [exact Hin | congruence].
    + discriminate.
  - exfalso. revert H.
    unfold ImageResourceDirEntry.ImageResourceDirEntry. unfold bind at 1.
    unfold io.read_le_u32, bind, io.read, io.size.
    cbn [io.buffer io.position].
    destruct (Z.gtb_spec (p + 4) (Z.of_nat (List.length buf)));
      [discriminate | lia].
Qed.

(** What [entry_at] says of the bytes of the file. *)
Lemma entry_at_some (args : ResourceCrawlerArgs.t) (buf : list byte)
    (offset : Z) (i : nat) (entry : ImageResourceDirEntry.t) :
  OnDisk.entry_at args buf offset i = Some entry ->
  let start := OnDisk.start_of args offset in
  exists dir,
    ImageResourceDir.ImageResourceDir (io.mk buf start)
    = (Done dir, io.mk buf (start + 16))
    /\ Z.of_nat i < ImageResourceDir.number_of_named_entries dir
                    + ImageResourceDir.number_of_id_entries dir
    /\ ImageResourceDirEntry.ImageResourceDirEntry
         (io.mk buf (start + 16 + 8 * Z.of_nat i))
       = (Done entry, io.mk buf (start + 16 + 8 * Z.of_nat i + 8))
    /\ start + 16 + 8 * Z.of_nat i + 8 <= Z.of_nat (List.length buf).
Proof.
  unfold OnDisk.entry_at. cbv zeta.
  set (start := OnDisk.start_of args offset).
  destruct (ImageResourceDir.ImageResourceDir (io.mk buf start))
    as [[dir | e | | w] s1] eqn:Hdir; try discriminate.
  destruct (Z.ltb_spec (Z.of_nat i)
              (ImageResourceDir.number_of_named_entries dir
               + ImageResourceDir.number_of_id_entries dir)) as [Hlt | _];
    [| discriminate].
  destruct (ImageResourceDirEntry.ImageResourceDirEntry
              (io.mk buf (start + 16 + 8 * Z.of_nat i)))
    as [[entry' | e | | w] s2] eqn:Hentry; try discriminate.
  intros H. injection H as ->.
  destruct (ImageResourceDir_done _ _ _ _ Hdir) as [_ ->].
  destruct (ImageResourceDirEntry_done _ _ _ _ Hentry) as [Hfit ->].
  exists dir. repeat split; try assumption; reflexivity.
Qed.

(** The display name that [read_entry_name] resolves depends on the bytes
    of the file only, not on the cursor, the entries or the log. *)
Lemma read_entry_name_of_bytes (args : ResourceCrawlerArgs.t)
    (entry : ImageResourceDirEntry.t) (st : state) :
  fst (ResourceCrawler.read_entry_name args entry st)
  = OnDisk.name_of args (io.buffer (input_stream st)) entry.
Proof.
  unfold OnDisk.name_of, ResourceCrawler.read_entry_name.
  destruct (ImageResourceDirEntry.name_is_string entry); [| reflexivity].
  destruct st as [[b p] m l].
  unfold bind, on_stream, io.seek, io.size.
  cbn [input_stream io.buffer io.position meta logger].
  destruct (_ >? Z.of_nat (List.length b)); [reflexivity |].
  cbn [input_stream io.buffer io.position meta logger].
  destruct (io.read_le_u16 _) as [[v | e | | w] s1]; try reflexivity.
  cbn [input_stream io.buffer io.position meta logger].
  destruct (io.read _ s1) as [[bs | e | | w] s2]; try reflexivity.
Qed.

(** [read_entry_name] appends no entry and leaves the bytes as they are. *)
Lemma read_entry_name_keeps (args : ResourceCrawlerArgs.t)
    (entry : ImageResourceDirEntry.t) (st : state) :
  let st1 := snd (ResourceCrawler.read_entry_name args entry st) in
  meta st1 = meta st
  /\ io.buffer (input_stream st1) = io.buffer (input_stream st).
Proof.
  destruct (inv_read_entry_name args (fun _ => False) false entry st)
    as [(Hbuf & (new & Hnew & Hall) & _) _].
  cbv zeta. split; [| exact Hbuf].
  destruct new as [| e new]; [now rewrite app_nil_r in Hnew |].
  inversion Hall as [| ? ? [] _].
Qed.

(** ** The crawler: the depth of the recursion *)


Section FollowedChain.
Variable args : ResourceCrawlerArgs.t.
Variable buf : list byte.




End FollowedChain.

(** ** The crawler: the chain of entries behind every path *)

Lemma process_dir_entry_meta (args : ResourceCrawlerArgs.t)
    (descend : Z -> string -> M state unit) (path : string)
    (entry : ImageResourceDirEntry.t) (st : state) :
  io.position (input_stream st) <= io.size (input_stream st) ->
  meta (snd (ResourceCrawler.process_dir_entry args descend path entry st))
  = meta (snd (ResourceCrawler.entry_body args descend path entry st)).
Proof.
  intros Hpos.
  unfold ResourceCrawler.process_dir_entry, try_catch, bind, on_stream, io.tell.
  destruct st as [[buf p] m l]. cbn [input_stream io.position] in *.
  unfold peek, on_stream, io.seek. cbn [input_stream io.position io.buffer].
  destruct (Z.gtb_spec p (io.size (io.mk buf p))) as [Hgt | _]; [lia |].
  cbn [input_stream io.position io.buffer meta logger].
  destruct (ResourceCrawler.entry_body args descend path entry
              (mk_state (io.mk buf p) m l)) as [[[] | e | | w] st2];
    reflexivity.
Qed.

Section Chains.
Variable args : ResourceCrawlerArgs.t.
Variable buf : list byte.

Abbreviation produced := (OnDisk.produced_along args buf).

Lemma process_entry_produces (offset : Z) (path : string) (st : state) :
  io.buffer (input_stream st) = buf ->
  exists new,
    meta (snd (ResourceCrawler.process_entry args offset path st))
    = meta st ++ new
    /\ Forall
         (fun e =>
            ArchiveEntryImpl.path e = path
            /\ OnDisk.resource_at args buf offset e)
         new.
Proof.
  intros Hbuf. destruct st as [[b p] m l].
  cbn [input_stream io.buffer meta] in *. subst b.
  set (start := OnDisk.start_of args offset).
  assert (Hnone : forall q o,
            exists new,
              meta (snd (o : outcome unit, mk_state (io.mk buf q) m l))
              = m ++ new
              /\ Forall
                   (fun e =>
                      ArchiveEntryImpl.path e = path
                      /\ OnDisk.resource_at args buf offset e)
                   new).
  { intros q o. exists []. cbn. now rewrite app_nil_r. }
  unfold ResourceCrawler.process_entry.
  fold (OnDisk.start_of args offset). fold start.
  unfold bind at 1. unfold on_stream at 1. unfold io.seek, io.size.
  cbn [input_stream io.buffer io.position meta logger].
  destruct (Z.gtb_spec start (Z.of_nat (List.length buf))) as [Hgt | Hle];
    [apply Hnone |].
  unfold bind at 1. unfold on_stream at 1.
  cbn [input_stream meta logger].
  destruct (reads_cases 16 _ buf start reads_ImageResourceDataEntry Hle)
    as [[Hin _] | [_ [p' Hrun]]]; [| rewrite Hrun; apply Hnone].
  unfold ImageResourceDataEntry.ImageResourceDataEntry.
  run_reads. unfold ret, lift_outcome, push_back.
  cbn [ImageResourceDataEntry.offset_to_data ImageResourceDataEntry.size
       input_stream meta logger].
  destruct (RvaHelper.rva_to_offset (ResourceCrawlerArgs.rva_helper args)
              (io.le_value (io.slice buf start 4)))
    as [translated | e | | w] eqn:Htranslated; try apply Hnone.
  cbn [snd meta]. eexists. split; [reflexivity |].
  constructor; [| constructor].
  split; [reflexivity |]. unfold OnDisk.resource_at. fold start.
  cbn [ArchiveEntryImpl.offset ArchiveEntryImpl.size].
  split; [exact Hin |]. split; [exact Htranslated | reflexivity].
Qed.

Section Entry.
Variable fuel : nat.
Hypothesis process_dir_produces :
  forall offset path st,
    io.buffer (input_stream st) = buf ->
    exists new,
      meta (snd (ResourceCrawler.process_dir fuel args offset path st))
      = meta st ++ new
      /\ Forall (produced offset path) new.

Lemma process_dir_entry_produces (offset : Z) (path : string) (i : nat)
    (entry : ImageResourceDirEntry.t) (st : state) :
  OnDisk.entry_at args buf offset i = Some entry ->
  io.buffer (input_stream st) = buf ->
  io.position (input_stream st) <= io.size (input_stream st) ->
  exists new,
    meta (snd (ResourceCrawler.process_dir_entry args
                 (ResourceCrawler.process_dir fuel args) path entry st))
    = meta st ++ new
    /\ Forall (produced offset path) new.
Proof.
  intros Hat Hbuf Hpos. rewrite process_dir_entry_meta by exact Hpos.
  unfold ResourceCrawler.entry_body, bind.
  pose proof (read_entry_name_keeps args entry st) as [Hmeta Hbuf1].
  pose proof (read_entry_name_of_bytes args entry st) as Hname.
  rewrite Hbuf in Hname, Hbuf1.
  destruct (ResourceCrawler.read_entry_name args entry st) as [o st1].
  cbn [fst snd] in Hmeta, Hbuf1, Hname. subst o.
  destruct (OnDisk.name_of args buf entry) as [name | e | | w] eqn:Hresolved;
    try (exists []; cbn [snd]; rewrite app_nil_r; now split).
  rewrite <- Hmeta.
  destruct (Z.eqb_spec (ImageResourceDirEntry.data_is_dir entry) 0)
    as [Hleaf | Hdir]; cbn [negb].
  - destruct (process_entry_produces
                (ImageResourceDirEntry.offset_to_data entry)
                (ResourceCrawler.entry_path path name) st1 Hbuf1)
      as (new & Hnew & Hall).
    exists new. split; [exact Hnew |].
    eapply Forall_impl; [| exact Hall].
    intros e [Hpath Hdata]. exists [name], entry.
    split; [now apply (OnDisk.leads_to_leaf args buf offset i) |].
    split; [exact Hdata | exact Hpath].
  - destruct (process_dir_produces
                (ImageResourceDirEntry.offset_to_data entry)
                (ResourceCrawler.entry_path path name) st1 Hbuf1)
      as (new & Hnew & Hall).
    exists new. split; [exact Hnew |].
    eapply Forall_impl; [| exact Hall].
    intros e (names & leaf & Hchain & Hdata & Hpath).
    exists (name :: names), leaf.
    split; [now apply (OnDisk.leads_to_subdirectory args buf offset i entry) |].
    split; [exact Hdata | exact Hpath].
Qed.

Lemma for_range_produces (offset : Z) (path : string)
    (dir : ImageResourceDir.t) (s' : io.IStream) :
  let start := OnDisk.start_of args offset in
  ImageResourceDir.ImageResourceDir (io.mk buf start) = (Done dir, s') ->
  forall k i st,
    io.buffer (input_stream st) = buf ->
    io.position (input_stream st) = start + 16 + 8 * Z.of_nat i ->
    Z.of_nat (i + k)
    <= ImageResourceDir.number_of_named_entries dir
       + ImageResourceDir.number_of_id_entries dir ->
    exists new,
      meta (snd (for_range k
                   (ResourceCrawler.process_dir_step args
                      (ResourceCrawler.process_dir fuel args) path) st))
      = meta st ++ new
      /\ Forall (produced offset path) new.
Proof.
  intros start Hdir.
  induction k as [| k IH]; intros i st Hbuf Hpos Hcount.
  - exists []. cbn. now rewrite app_nil_r.
  - rewrite for_range_step_unfold.
    destruct st as [[b p] m l].
    cbn [input_stream io.buffer io.position meta logger] in *. subst b.
    destruct (ImageResourceDirEntry.ImageResourceDirEntry (io.mk buf p))
      as [[entry | e | | w] s1] eqn:Hentry;
      try (exists []; cbn [snd meta]; rewrite app_nil_r; now split).
    destruct (ImageResourceDirEntry_done _ _ _ _ Hentry) as [Hfit ->].
    assert (Hat : OnDisk.entry_at args buf offset i = Some entry).
    { unfold OnDisk.entry_at. cbv zeta. fold start. rewrite Hdir.
      destruct (Z.ltb_spec (Z.of_nat i)
                  (ImageResourceDir.number_of_named_entries dir
                   + ImageResourceDir.number_of_id_entries dir)); [| lia].
      now rewrite <- Hpos, Hentry. }
    destruct (process_dir_entry_produces offset path i entry
                (mk_state (io.mk buf (p + 8)) m l) Hat eq_refl)
      as (new1 & Hnew1 & Hall1);
      [unfold io.size; cbn [input_stream io.buffer io.position]; lia |].
    pose proof (process_dir_entry_outcome args
                  (ResourceCrawler.process_dir fuel args) path entry
                  (mk_state (io.mk buf (p + 8)) m l)) as Hstep.
    pose proof (inv_process_dir_entry_any args fuel path entry
                  (mk_state (io.mk buf (p + 8)) m l)) as [(Hb & _) _].
    cbn [meta] in Hnew1.
    destruct (ResourceCrawler.process_dir_entry args
                (ResourceCrawler.process_dir fuel args) path entry
                (mk_state (io.mk buf (p + 8)) m l))
      as [[[] | e | | w] st2];
      cbn [fst snd input_stream io.buffer io.position] in Hstep, Hb, Hnew1 |- *;
      try (exists new1; now split).
    destruct (IH (S i) st2 Hb ltac:(lia) ltac:(lia)) as (new2 & Hnew2 & Hall2).
    exists (new1 ++ new2). split.
    + now rewrite Hnew2, Hnew1, app_assoc.
    + apply Forall_app. now split.
Qed.
End Entry.

Lemma process_dir_produces (fuel : nat) :
  forall offset path st,
    io.buffer (input_stream st) = buf ->
    exists new,
      meta (snd (ResourceCrawler.process_dir fuel args offset path st))
      = meta st ++ new
      /\ Forall (produced offset path) new.
Proof.
  induction fuel as [| fuel IH]; intros offset path st Hbuf.
  - exists []. cbn. now rewrite app_nil_r.
  - rewrite process_dir_unfold. cbv zeta. rewrite Hbuf.
    fold (OnDisk.start_of args offset).
    set (start := OnDisk.start_of args offset).
    destruct (start >? Z.of_nat (List.length buf));
      [exists []; cbn [snd]; rewrite app_nil_r; now split |].
    destruct (ImageResourceDir.ImageResourceDir (io.mk buf start))
      as [[dir | e | | w] s1] eqn:Hdir;
      try (exists []; cbn [snd meta]; rewrite app_nil_r; now split).
    destruct (ImageResourceDir_done _ _ _ _ Hdir) as [Hin ->].
    assert (Hcounts : 0 <= ImageResourceDir.number_of_named_entries dir
                           + ImageResourceDir.number_of_id_entries dir).
    { revert Hdir. unfold ImageResourceDir.ImageResourceDir. run_reads.
      unfold ret. intros Hdir. injection Hdir as <-.
      cbn [ImageResourceDir.number_of_named_entries
           ImageResourceDir.number_of_id_entries].
      pose proof (le_value_bounds (io.slice buf (start + 4 + 4 + 2 + 2) 2)).
      pose proof (le_value_bounds
                    (io.slice buf (start + 4 + 4 + 2 + 2 + 2) 2)).
      lia. }
    destruct (for_range_produces fuel IH offset path dir _ Hdir
                (Z.to_nat (ImageResourceDir.number_of_named_entries dir
                           + ImageResourceDir.number_of_id_entries dir))
                0%nat
                (mk_state (io.mk buf (start + 16)) (meta st) (logger st))
                eq_refl)
      as (new & Hnew & Hall);
      [cbn [input_stream io.position]; fold start; lia | lia |].
    exists new. now split.
Qed.
End Chains.

(** ** The crawler: every leaf behind a chain is produced *)

Lemma inv_process_dir_step_any (args : ResourceCrawlerArgs.t) (fuel : nat)
    (path : string) :
  Spec.inv true (fun _ => True)
    (ResourceCrawler.process_dir_step args
       (ResourceCrawler.process_dir fuel args) path).
Proof.
  unfold ResourceCrawler.process_dir_step.
  apply inv_bind; [apply inv_on_stream; auto with stream_ok | intros entry _ _].
  apply inv_process_dir_entry_any.
Qed.

Lemma process_dir_entry_body_diverges (args : ResourceCrawlerArgs.t)
    (descend : Z -> string -> M state unit) (path : string)
    (entry : ImageResourceDirEntry.t) (st : state) :
  io.position (input_stream st) <= io.size (input_stream st) ->
  fst (ResourceCrawler.entry_body args descend path entry st) = Diverge ->
  fst (ResourceCrawler.process_dir_entry args descend path entry st) = Diverge.
Proof.
  intros Hpos.
  unfold ResourceCrawler.process_dir_entry, try_catch, bind, on_stream, io.tell.
  destruct st as [[buf p] m l]. cbn [input_stream io.position] in *.
  unfold peek, on_stream, io.seek. cbn [input_stream io.position io.buffer].
  destruct (Z.gtb_spec p (io.size (io.mk buf p))) as [Hgt | _]; [lia |].
  cbn [input_stream io.position io.buffer meta logger].
  destruct (ResourceCrawler.entry_body args descend path entry
              (mk_state (io.mk buf p) m l)) as [[[] | e | | w] st2];
    cbn [fst]; intros H; try discriminate; reflexivity.
Qed.

Section Reached.
Variable args : ResourceCrawlerArgs.t.
Variable buf : list byte.

(** The entry that the crawl appends for the leaf record [leaf] reached
    under the names [names] from [path], when the translator maps the
    address of its data entry to [translated]. *)
Abbreviation entry_of path names leaf translated :=
  (ArchiveEntryImpl.mk (Spec.path_along path names) translated
     (io.le_value
        (io.slice buf
           (OnDisk.start_of args (ImageResourceDirEntry.offset_to_data leaf)
            + 4) 4))).

Abbreviation mapped leaf translated :=
  (OnDisk.start_of args (ImageResourceDirEntry.offset_to_data leaf) + 16
   <= Z.of_nat (List.length buf)
   /\ RvaHelper.rva_to_offset (ResourceCrawlerArgs.rva_helper args)
        (io.le_value
           (io.slice buf
              (OnDisk.start_of args
                 (ImageResourceDirEntry.offset_to_data leaf)) 4))
      = Done translated).

Lemma process_entry_appends (offset : Z) (path : string) (st : state)
    (translated : Z) :
  io.buffer (input_stream st) = buf ->
  let start := OnDisk.start_of args offset in
  start + 16 <= Z.of_nat (List.length buf) ->
  RvaHelper.rva_to_offset (ResourceCrawlerArgs.rva_helper args)
    (io.le_value (io.slice buf start 4))
  = Done translated ->
  meta (snd (ResourceCrawler.process_entry args offset path st))
  = meta st
    ++ [ArchiveEntryImpl.mk path translated
          (io.le_value (io.slice buf (start + 4) 4))].
Proof.
  intros Hbuf start Hfit Htranslated. destruct st as [[b p] m l].
  cbn [input_stream io.buffer meta] in *. subst b.
  unfold ResourceCrawler.process_entry.
  fold (OnDisk.start_of args offset). fold start.
  unfold bind at 1. unfold on_stream at 1. unfold io.seek, io.size.
  cbn [input_stream io.buffer io.position meta logger].
  destruct (Z.gtb_spec start (Z.of_nat (List.length buf))); [lia |].
  unfold bind at 1. unfold on_stream at 1.
  cbn [input_stream meta logger].
  unfold ImageResourceDataEntry.ImageResourceDataEntry.
  run_reads. unfold ret, lift_outcome, push_back.
  cbn [ImageResourceDataEntry.offset_to_data ImageResourceDataEntry.size
       input_stream meta logger].
  rewrite Htranslated. reflexivity.
Qed.

Section Loop.
Variable fuel : nat.
Variable path : string.
Variable offset : Z.
Variable i : nat.
Variable entry : ImageResourceDirEntry.t.
Variable target : ArchiveEntryImpl.t.
Hypothesis recorded : OnDisk.entry_at args buf offset i = Some entry.
Hypothesis step_appends :
  forall st,
    io.buffer (input_stream st) = buf ->
    io.position (input_stream st) <= io.size (input_stream st) ->
    fst (ResourceCrawler.process_dir_entry args
           (ResourceCrawler.process_dir fuel args) path entry st)
    <> Diverge ->
    In target
      (meta (snd (ResourceCrawler.process_dir_entry args
                    (ResourceCrawler.process_dir fuel args) path entry st))).

Lemma for_range_reaches :
  forall k j st,
    io.buffer (input_stream st) = buf ->
    io.position (input_stream st)
    = OnDisk.start_of args offset + 16 + 8 * Z.of_nat j ->
    (j <= i < j + k)%nat ->
    fst (for_range k
           (ResourceCrawler.process_dir_step args
              (ResourceCrawler.process_dir fuel args) path) st)
    <> Diverge ->
    In target
      (meta (snd (for_range k
                    (ResourceCrawler.process_dir_step args
                       (ResourceCrawler.process_dir fuel args) path) st))).
Proof.
  destruct (entry_at_some _ _ _ _ _ recorded) as (dir & _ & _ & Hentry & Hfit).
  cbv zeta in Hentry, Hfit.
  set (start := OnDisk.start_of args offset) in *.
  induction k as [| k IH]; intros j st Hbuf Hpos Hj; [lia |].
  rewrite for_range_step_unfold.
  destruct st as [[b p] m l].
  cbn [input_stream io.buffer io.position meta logger] in *. subst b.
  destruct (reads_cases 8 _ buf p reads_ImageResourceDirEntry ltac:(lia))
    as [[Hin [entry' Hrun]] | [Hout _]]; [| lia].
  rewrite Hrun.
  pose proof (process_dir_entry_outcome args
                (ResourceCrawler.process_dir fuel args) path entry'
                (mk_state (io.mk buf (p + 8)) m l)) as Hstep.
  pose proof (inv_process_dir_entry_any args fuel path entry'
                (mk_state (io.mk buf (p + 8)) m l)) as [(Hb & _) Hallowed].
  destruct (Nat.eq_dec j i) as [-> | Hne].
  - rewrite Hpos, Hentry in Hrun. injection Hrun as <-.
    pose proof (step_appends (mk_state (io.mk buf (p + 8)) m l) eq_refl)
      as Happ.
    destruct (ResourceCrawler.process_dir_entry args
                (ResourceCrawler.process_dir fuel args) path entry
                (mk_state (io.mk buf (p + 8)) m l))
      as [[[] | e | | w] st2];
      cbn [fst snd input_stream io.buffer io.position Spec.allowed]
        in Hstep, Hb, Hallowed, Happ |- *;
      try contradiction; try (intros Hnot; now contradiction Hnot).
    intros _.
    destruct (inv_for_range (fun _ => True) true k _
                (inv_process_dir_step_any args fuel path) st2)
      as [(_ & (new & Hnew & _) & _) _].
    rewrite Hnew. apply in_or_app. left. apply Happ; [| discriminate].
    unfold io.size. cbn [io.buffer]. lia.
  - destruct (ResourceCrawler.process_dir_entry args
                (ResourceCrawler.process_dir fuel args) path entry'
                (mk_state (io.mk buf (p + 8)) m l))
      as [[[] | e | | w] st2];
      cbn [fst snd input_stream io.buffer io.position Spec.allowed]
        in Hstep, Hb, Hallowed |- *;
      try contradiction; try (intros Hnot; now contradiction Hnot).
    apply (IH (S j)); [exact Hb | lia | lia].
Qed.
End Loop.

Lemma process_dir_reaches (fuel : nat) :
  forall offset path st names leaf translated,
    io.buffer (input_stream st) = buf ->
    OnDisk.leads_to args buf offset names leaf ->
    mapped leaf translated ->
    fst (ResourceCrawler.process_dir fuel args offset path st) <> Diverge ->
    In (entry_of path names leaf translated)
      (meta (snd (ResourceCrawler.process_dir fuel args offset path st))).
Proof.
  induction fuel as [| fuel IH];
    intros offset path st names leaf translated Hbuf Hchain Hmapped Hreturns;
    [now contradiction Hreturns |].
  assert (Hloop :
    forall i entry,
      OnDisk.entry_at args buf offset i = Some entry ->
      (forall st1,
         io.buffer (input_stream st1) = buf ->
         io.position (input_stream st1) <= io.size (input_stream st1) ->
         fst (ResourceCrawler.process_dir_entry args
                (ResourceCrawler.process_dir fuel args) path entry st1)
         <> Diverge ->
         In (entry_of path names leaf translated)
           (meta (snd (ResourceCrawler.process_dir_entry args
                         (ResourceCrawler.process_dir fuel args) path entry
                         st1)))) ->
      In (entry_of path names leaf translated)
        (meta (snd (ResourceCrawler.process_dir (S fuel) args offset path st)))).
  { intros i entry Hat Hstep.
    destruct (entry_at_some _ _ _ _ _ Hat) as (dir & Hheader & Hi & _ & Hfit).
    cbv zeta in Hheader, Hfit. revert Hreturns.
    rewrite process_dir_unfold. cbv zeta. rewrite Hbuf.
    fold (OnDisk.start_of args offset).
    destruct (Z.gtb_spec (OnDisk.start_of args offset)
                (Z.of_nat (List.length buf))); [lia |].
    rewrite Hheader.
    apply (for_range_reaches fuel path offset i entry _ Hat Hstep _ 0%nat);
      cbn [input_stream io.buffer io.position]; try reflexivity; lia. }
  assert (Hbody :
    forall entry name st1,
      OnDisk.name_of args buf entry = Done name ->
      io.buffer (input_stream st1) = buf ->
      exists st2,
        ResourceCrawler.read_entry_name args entry st1 = (Done name, st2)
        /\ meta st2 = meta st1
        /\ io.buffer (input_stream st2) = buf).
  { intros entry name st1 Hname Hbuf1.
    pose proof (read_entry_name_keeps args entry st1) as [Hmeta Hbuf2].
    pose proof (read_entry_name_of_bytes args entry st1) as Hfst.
    rewrite Hbuf1, Hname in Hfst. rewrite Hbuf1 in Hbuf2.
    destruct (ResourceCrawler.read_entry_name args entry st1) as [o st2].
    cbn [fst snd] in *. subst o. now exists st2. }
  clear Hbuf Hreturns.
  inversion Hchain as [offset' i entry name Hat Hleaf Hname
                      | offset' i entry name names' leaf' Hat Hdir Hname Hrest];
    subst.
  - apply (Hloop i leaf Hat). intros st1 Hbuf1 Hpos1 _.
    rewrite process_dir_entry_meta by exact Hpos1.
    destruct (Hbody leaf name st1 Hname Hbuf1) as (st2 & Hrun & Hmeta & Hbuf2).
    unfold ResourceCrawler.entry_body, bind. rewrite Hrun, Hleaf.
    cbn [Z.eqb negb]. destruct Hmapped as [Hfit Htranslated].
    rewrite (process_entry_appends _ _ st2 translated Hbuf2 Hfit Htranslated).
    apply in_or_app. right. now left.
  - apply (Hloop i entry Hat). intros st1 Hbuf1 Hpos1 Hreturns1.
    destruct (Hbody entry name st1 Hname Hbuf1) as (st2 & Hrun & Hmeta & Hbuf2).
    assert (Hdescent :
      fst (ResourceCrawler.process_dir fuel args
             (ImageResourceDirEntry.offset_to_data entry)
             (ResourceCrawler.entry_path path name) st2) <> Diverge).
    { intros Hdiv. apply Hreturns1.
      apply process_dir_entry_body_diverges; [exact Hpos1 |].
      unfold ResourceCrawler.entry_body, bind. rewrite Hrun.
      destruct (Z.eqb_spec (ImageResourceDirEntry.data_is_dir entry) 0);
        [contradiction |].
      cbn [negb].
      destruct (ResourceCrawler.process_dir fuel args
                  (ImageResourceDirEntry.offset_to_data entry)
                  (ResourceCrawler.entry_path path name) st2) as [o st3].
      cbn [fst] in Hdiv |- *. now subst o. }
    rewrite process_dir_entry_meta by exact Hpos1.
    unfold ResourceCrawler.entry_body, bind. rewrite Hrun.
    destruct (Z.eqb_spec (ImageResourceDirEntry.data_is_dir entry) 0);
      [contradiction |].
    cbn [negb].
    pose proof (IH (ImageResourceDirEntry.offset_to_data entry)
                  (ResourceCrawler.entry_path path name) st2 names' leaf
                  translated Hbuf2 Hrest Hmapped Hdescent) as Hin.
    destruct (ResourceCrawler.process_dir fuel args
                (ImageResourceDirEntry.offset_to_data entry)
                (ResourceCrawler.entry_path path name) st2)
      as [[[] | e | | w] st3]; exact Hin.
Qed.
End Reached.

(** C7, as the code has it: a numeric entry is named by the resource-type
    table (3 is ICON) or else by the decimal string of its id, a named entry
    by the transcoded UTF-16 string of [count] code units stored after the
    16-bit [count] at [base_offset + name_offset].  Every entry the crawl
    produces is the entry of a leaf that a chain of directory entries leads
    to from the root directory: each entry of the chain is recorded in the
    table of the directory that the entry before it points to, the offset
    and the size of the produced entry are those of the data entry the leaf
    points to, and the path is accumulated along the display names of the
    entries of that chain, outermost first, each resolved from the bytes of
    the file: the names joined by the separator once the empty names at the
    head are dropped, which is the join of all the names, with no separator
    before the first, when none of them is empty.  Conversely, every leaf
    that such a chain leads to, and whose data entry lies within the file
    at an address that the translator maps, is appended with that path,
    offset and size, unless the crawl does not return. *)
Theorem crawl_paths_follow_the_chain_of_entries :
  (forall args entry st,
     ImageResourceDirEntry.name_is_string entry = false ->
     ResourceCrawler.read_entry_name args entry st
     = (Done (ResourceCrawler.resource_type_name
                (ImageResourceDirEntry.id entry)), st))
  /\ ResourceCrawler.resource_type_name 3 = "ICON"%string
  /\ (forall id,
        0 <= id < 2 ^ 31 ->
        ~ In id [1; 2; 3; 4; 5; 6; 7; 8; 9; 10; 11; 16; 17; 19; 20; 21; 22;
                 23; 24] ->
        ResourceCrawler.resource_type_name id
        = NilZero.string_of_int (Z.to_int id))
  /\ (forall args entry buf p m l,
        ImageResourceDirEntry.name_is_string entry = true ->
        let start :=
          size_t (ResourceCrawlerArgs.base_offset args
                  + ImageResourceDirEntry.name_offset entry) in
        let count := io.le_value (io.slice buf start 2) in
        start + 2 + 2 * count <= Z.of_nat (List.length buf) ->
        fst (ResourceCrawler.read_entry_name args entry
               (mk_state (io.mk buf p) m l))
        = algo.utf16_to_utf8 (io.slice buf (start + 2) (2 * count)))
  /\ (forall fuel args st,
        let buf := io.buffer (input_stream st) in
        exists new,
          meta (snd (ResourceCrawler.crawl fuel args st)) = meta st ++ new
          /\ Forall
               (fun e =>
                  exists names leaf,
                    OnDisk.leads_to args buf 0 names leaf
                    /\ OnDisk.resource_at args buf
                         (ImageResourceDirEntry.offset_to_data leaf) e
                    /\ ArchiveEntryImpl.path e
                       = String.concat path_sep (Spec.skip_empty names)
                    /\ (Forall (fun name => name <> ""%string) names ->
                        ArchiveEntryImpl.path e
                        = String.concat path_sep names))
               new)
  /\ (forall fuel args st names leaf translated,
        let buf := io.buffer (input_stream st) in
        let start :=
          OnDisk.start_of args (ImageResourceDirEntry.offset_to_data leaf) in
        OnDisk.leads_to args buf 0 names leaf ->
        start + 16 <= Z.of_nat (List.length buf) ->
        RvaHelper.rva_to_offset (ResourceCrawlerArgs.rva_helper args)
          (io.le_value (io.slice buf start 4))
        = Done translated ->
        fst (ResourceCrawler.crawl fuel args st) <> Diverge ->
        In (ArchiveEntryImpl.mk
              (String.concat path_sep (Spec.skip_empty names)) translated
              (io.le_value (io.slice buf (start + 4) 4)))
          (meta (snd (ResourceCrawler.crawl fuel args st)))).
Proof.
  split; [| split; [| split; [| split; [| split]]]].
  6:{ intros fuel args st names leaf translated buf start Hchain Hfit
        Htranslated Hreturns.
      unfold ResourceCrawler.crawl in *.
      pose proof (process_dir_reaches args buf fuel 0 ""%string st names leaf
                    translated eq_refl Hchain (conj Hfit Htranslated)
                    Hreturns) as Hin.
      now rewrite path_along_empty in Hin. }
  - intros args entry st Hnum. unfold ResourceCrawler.read_entry_name.
    now rewrite Hnum.
  - reflexivity.
  - exact resource_type_name_other.
  - intros args entry buf p m l Hnamed start count Hfit.
    now rewrite (read_entry_name_named args entry buf p m l Hnamed Hfit).
  - intros fuel args st buf. unfold ResourceCrawler.crawl.
    destruct (process_dir_produces args buf fuel 0 ""%string st eq_refl)
      as (new & Hnew & Hall).
    exists new. split; [exact Hnew |].
    eapply Forall_impl; [| exact Hall].
    intros e (names & leaf & Hchain & Hdata & Hpath).
    exists names, leaf. rewrite path_along_empty in Hpath.
    split; [exact Hchain |]. split; [exact Hdata |]. split; [exact Hpath |].
    intros Hnonempty. now rewrite Hpath, skip_empty_nonempty.
Qed.

Lemma crawl_paths_follow_the_chain_of_entries_witness :
  fst (ResourceCrawler.read_entry_name Samples.args
         (ImageResourceDirEntry.mk 40 true 120 (Samples.high_bit + 120)
            (Samples.high_bit + 120) 1)
         (mk_state (io.mk Samples.image 0) [] []))
  = algo.utf16_to_utf8 (io.slice Samples.image (512 + 120 + 2) (2 * 1))
  /\ (exists new,
       meta (snd (ResourceCrawler.crawl 3 Samples.args
                    (mk_state (io.mk Samples.image 0) [] [])))
       = [] ++ new
       /\ Forall
            (fun e =>
               exists names leaf,
                 OnDisk.leads_to Samples.args Samples.image 0 names leaf
                 /\ OnDisk.resource_at Samples.args Samples.image
                      (ImageResourceDirEntry.offset_to_data leaf) e
                 /\ ArchiveEntryImpl.path e
                    = String.concat path_sep (Spec.skip_empty names)
                 /\ (Forall (fun name => name <> ""%string) names ->
                     ArchiveEntryImpl.path e = String.concat path_sep names))
            new)
  /\ In (ArchiveEntryImpl.mk
           (String.concat path_sep ["A"; "ICON"; "1033"]%string) 712 4)
       (meta (snd (ResourceCrawler.crawl 3 Samples.args
                     (mk_state (io.mk Samples.image 0) [] [])))).
Proof.
  split; [| split].
  3:{ apply (proj2 (proj2 (proj2 (proj2 (proj2
               crawl_paths_follow_the_chain_of_entries))))
               3%nat Samples.args (mk_state (io.mk Samples.image 0) [] [])
               ["A"; "ICON"; "1033"]%string
               (ImageResourceDirEntry.mk 88 false 1033 1033 1033 0) 712).
      - eapply (OnDisk.leads_to_subdirectory _ _ 0 0%nat);
          [vm_compute; reflexivity | vm_compute; discriminate
          | vm_compute; reflexivity |].
        eapply (OnDisk.leads_to_subdirectory _ _ _ 0%nat);
          [vm_compute; reflexivity | vm_compute; discriminate
          | vm_compute; reflexivity |].
        eapply (OnDisk.leads_to_leaf _ _ _ 0%nat);
          vm_compute; reflexivity.
      - vm_compute. discriminate.
      - vm_compute. reflexivity.
      - vm_compute. discriminate. }
  - apply (proj1 (proj2 (proj2 (proj2
             crawl_paths_follow_the_chain_of_entries)))
             Samples.args
             (ImageResourceDirEntry.mk 40 true 120 (Samples.high_bit + 120)
                (Samples.high_bit + 120) 1)
             Samples.image 0 [] [] eq_refl).
    vm_compute. discriminate.
  - apply (proj1 (proj2 (proj2 (proj2 (proj2
             crawl_paths_follow_the_chain_of_entries))))
             3%nat Samples.args (mk_state (io.mk Samples.image 0) [] [])).
Defined.

(** The chain behind the path of the first entry of the sample image: the
    directory "A" of the root, the directory ICON (id 3) in it, and the
    leaf 1033 in that. *)
Example chain_of_the_sample_leaf :
  OnDisk.leads_to Samples.args Samples.image 0 ["A"; "ICON"; "1033"]%string
    (ImageResourceDirEntry.mk 88 false 1033 1033 1033 0)
  /\ OnDisk.resource_at Samples.args Samples.image 88
       (ArchiveEntryImpl.mk
          ("A" ++ path_sep ++ "ICON" ++ path_sep ++ "1033") 712 4).
Proof.
  split.
  - eapply (OnDisk.leads_to_subdirectory _ _ 0 0%nat);
      [vm_compute; reflexivity | vm_compute; discriminate
      | vm_compute; reflexivity |].
    eapply (OnDisk.leads_to_subdirectory _ _ _ 0%nat);
      [vm_compute; reflexivity | vm_compute; discriminate
      | vm_compute; reflexivity |].
    eapply (OnDisk.leads_to_leaf _ _ _ 0%nat);
      vm_compute; reflexivity.
  - unfold OnDisk.resource_at. cbv zeta.
    split; [vm_compute; discriminate |].
    split; vm_compute; reflexivity.
Qed.



(** A directory that lists itself under a name that cannot be read is not
    followed: the entry is logged and the crawl returns. *)
Example self_listing_entry_with_unreadable_name_is_logged :
  let run :=
    ExeArchiveDecoder.read_meta_impl Samples.ample 3
      (Samples.start
         (Samples.pe_image 0x10B 3 MoreSamples.unnamed_cycle_tree)) in
  fst run = Done [] /\ logger (snd run) = [LogRecord.mk 512 EofError].
Proof. vm_compute. split; reflexivity. Qed.

(** ** The crawler: what a failure ends and what it does not *)

Lemma process_dir_entry_of_peek (args : ResourceCrawlerArgs.t)
    (descend : Z -> string -> M state unit) (path : string)
    (entry : ImageResourceDirEntry.t) (st : state) :
  ResourceCrawler.process_dir_entry args descend path entry st
  = match peek (io.position (input_stream st))
            (ResourceCrawler.entry_body args descend path entry) st with
    | (Done a, st2) => (Done a, st2)
    | (Throw e, st2) =>
        logger_err
          (size_t (ResourceCrawlerArgs.base_offset args
                   + ImageResourceDirEntry.offset_to_data entry)) e st2
    | (Diverge, st2) => (Diverge, st2)
    | (Undefined w, st2) => (Undefined w, st2)
    end.
Proof.
  unfold ResourceCrawler.process_dir_entry, try_catch, bind.
  unfold on_stream at 1. unfold io.tell.
  destruct st as [[b p] m l]. cbn [input_stream io.position meta logger].
  destruct (peek p (ResourceCrawler.entry_body args descend path entry)
              (mk_state (io.mk b p) m l)) as [[a | e | | w] st2];
    reflexivity.
Qed.

(** C4, as the code has it.  A failure inside the guarded step of a
    directory entry (the name resolution, the decoding of the subdirectory
    or of the data entry, the address translation) never leaves the step:
    it is caught, logged once with the offset [base_offset +
    offset_to_data] and the cause, and the step returns normally.  The loop
    of the directory then goes on with the remaining entry records, the
    cursor standing at the next sibling record, as it does after a step
    that succeeded; [process_dir] runs that loop over as many records as
    the header declares.  A directory whose own header and entry table lie
    within the file is therefore never aborted by an exception, and the
    entries collected before stay in the result.  The entry record itself
    is decoded outside the guarded step: when the table runs past the end
    of the file, the end-of-stream error leaves [process_dir], unlogged
    (unless a descent before that does not return).  An exception that
    leaves the crawl of the root directory leaves [read_meta_impl] too: no
    entry list is returned. *)
Theorem guarded_step_failures_are_isolated :
  (forall args descend path entry st,
      ~ Spec.throws
          (fst (ResourceCrawler.process_dir_entry args descend path entry st))
      /\ forall e st2,
           peek (io.position (input_stream st))
             (ResourceCrawler.entry_body args descend path entry) st
           = (Throw e, st2) ->
           ResourceCrawler.process_dir_entry args descend path entry st
           = (Done tt,
              mk_state (input_stream st2) (meta st2)
                (logger st2
                 ++ [LogRecord.mk
                       (size_t (ResourceCrawlerArgs.base_offset args
                                + ImageResourceDirEntry.offset_to_data entry))
                       e])))
  /\ (forall args descend path k st entry s1,
        ImageResourceDirEntry.ImageResourceDirEntry (input_stream st)
        = (Done entry, s1) ->
        (forall e st2,
           peek (io.position s1)
             (ResourceCrawler.entry_body args descend path entry)
             (mk_state s1 (meta st) (logger st))
           = (Throw e, st2) ->
           for_range (S k)
             (ResourceCrawler.process_dir_step args descend path) st
           = for_range k
               (ResourceCrawler.process_dir_step args descend path)
               (mk_state (input_stream st2) (meta st2)
                  (logger st2
                   ++ [LogRecord.mk
                         (size_t (ResourceCrawlerArgs.base_offset args
                                  + ImageResourceDirEntry.offset_to_data
                                      entry))
                         e]))
           /\ io.position (input_stream st2)
              = io.position (input_stream st) + 8)
        /\ (forall st2,
              peek (io.position s1)
                (ResourceCrawler.entry_body args descend path entry)
                (mk_state s1 (meta st) (logger st))
              = (Done tt, st2) ->
              for_range (S k)
                (ResourceCrawler.process_dir_step args descend path) st
              = for_range k
                  (ResourceCrawler.process_dir_step args descend path) st2
              /\ io.position (input_stream st2)
                 = io.position (input_stream st) + 8))
  /\ (forall fuel args offset path st dir s',
        let buf := io.buffer (input_stream st) in
        let start := size_t (ResourceCrawlerArgs.base_offset args + offset) in
        ImageResourceDir.ImageResourceDir (io.mk buf start) = (Done dir, s') ->
        ResourceCrawler.process_dir (S fuel) args offset path st
        = for_range
            (Z.to_nat (ImageResourceDir.number_of_named_entries dir
                       + ImageResourceDir.number_of_id_entries dir))
            (ResourceCrawler.process_dir_step args
               (ResourceCrawler.process_dir fuel args) path)
            (mk_state s' (meta st) (logger st)))
  /\ (forall fuel args offset path st dir s',
        let buf := io.buffer (input_stream st) in
        let start := size_t (ResourceCrawlerArgs.base_offset args + offset) in
        ImageResourceDir.ImageResourceDir (io.mk buf start) = (Done dir, s') ->
        start + 16
        + 8 * (ImageResourceDir.number_of_named_entries dir
               + ImageResourceDir.number_of_id_entries dir)
        <= Z.of_nat (List.length buf) ->
        ~ Spec.throws
            (fst (ResourceCrawler.process_dir fuel args offset path st))
        /\ exists new,
             meta (snd (ResourceCrawler.process_dir fuel args offset path st))
             = meta st ++ new)
  /\ (forall fuel args offset path st dir s',
        let buf := io.buffer (input_stream st) in
        let start := size_t (ResourceCrawlerArgs.base_offset args + offset) in
        ImageResourceDir.ImageResourceDir (io.mk buf start) = (Done dir, s') ->
        Z.of_nat (List.length buf)
        < start + 16
          + 8 * (ImageResourceDir.number_of_named_entries dir
                 + ImageResourceDir.number_of_id_entries dir) ->
        let o := fst (ResourceCrawler.process_dir fuel args offset path st) in
        o = Throw EofError \/ o = Diverge)
  /\ (forall can_reserve fuel st st1 nt_header data_dirs sections
             resource_dir base_offset e st2,
        ExeArchiveDecoder.read_headers can_reserve st
        = (Done (nt_header, data_dirs, sections), st1) ->
        nth_error data_dirs 2 = Some resource_dir ->
        let rva_helper :=
          RvaHelper.mk
            (ImageOptionalHeader.file_alignment
               (ImageNtHeader.optional_header nt_header))
            (ImageOptionalHeader.section_alignment
               (ImageNtHeader.optional_header nt_header)) sections in
        RvaHelper.rva_to_offset rva_helper
          (ImageDataDir.virtual_address resource_dir)
        = Done base_offset ->
        ResourceCrawler.process_dir fuel
          (ResourceCrawlerArgs.mk rva_helper base_offset) 0 ""
          (mk_state (input_stream st1) [] (logger st1))
        = (Throw e, st2) ->
        ExeArchiveDecoder.read_meta_impl can_reserve fuel st = (Throw e, st2)).
Proof.
  split; [| split; [| split; [| split; [| split]]]].
  6:{ intros can_reserve fuel st st1 nt_header data_dirs sections resource_dir
        base_offset e st2 Hheaders Hnth rva_helper Hbase Hcrawl.
      rewrite read_meta_impl_unfold, Hheaders.
      unfold ExeArchiveDecoder.enumerate_resources, ExeArchiveDecoder.vector_at.
      rewrite Hnth. unfold bind at 1. unfold ret at 1. unfold bind at 1.
      unfold lift_outcome at 1. fold rva_helper. rewrite Hbase.
      unfold bind at 1. unfold bind at 1. unfold ResourceCrawler.crawl.
      now rewrite Hcrawl. }
  - intros args descend path entry st. split.
    + pose proof (process_dir_entry_outcome args descend path entry st) as H.
      destruct (ResourceCrawler.process_dir_entry args descend path entry st)
        as [[[] | e | | w] st']; cbn; auto.
    + intros e st2 Hpeek. now rewrite process_dir_entry_of_peek, Hpeek.
  - intros args descend path k st entry s1 Hentry.
    pose proof (dir_entry_done_state _ _ _ Hentry) as Hs1.
    pose proof (process_dir_entry_outcome args descend path entry
                  (mk_state s1 (meta st) (logger st))) as Hpos.
    rewrite process_dir_entry_of_peek in Hpos.
    cbn [input_stream] in Hpos.
    split.
    + intros e st2 Hpeek. rewrite for_range_step_unfold, Hentry.
      rewrite process_dir_entry_of_peek. cbn [input_stream].
      rewrite Hpeek in Hpos |- *. unfold logger_err in Hpos |- *.
      split; [reflexivity |].
      cbn [input_stream] in Hpos. rewrite Hpos, Hs1. reflexivity.
    + intros st2 Hpeek. rewrite for_range_step_unfold, Hentry.
      rewrite process_dir_entry_of_peek. cbn [input_stream].
      rewrite Hpeek in Hpos |- *.
      split; [reflexivity |]. rewrite Hpos, Hs1. reflexivity.
  - intros fuel args offset path st dir s' buf start Hdir.
    rewrite process_dir_unfold. fold buf start.
    destruct (ImageResourceDir_done _ _ _ _ Hdir) as [Hin _].
    destruct (Z.gtb_spec start (Z.of_nat (List.length buf))); [lia |].
    now rewrite Hdir.
  - intros fuel args offset path st dir s' buf start Hdir Hfit. split.
    + now apply (process_dir_no_throw args fuel offset path st dir s').
    + destruct (inv_process_dir_any args fuel offset path st)
        as [(_ & (new & Hnew & _) & _) _].
      now exists new.
  - intros fuel args offset path st dir s' buf start Hdir Htrunc o. subst o.
    destruct fuel as [| fuel]; [right; reflexivity |].
    rewrite process_dir_unfold. fold buf start.
    destruct (ImageResourceDir_done _ _ _ _ Hdir) as [Hin ->].
    destruct (Z.gtb_spec start (Z.of_nat (List.length buf))); [lia |].
    rewrite Hdir.
    apply (for_range_truncated args fuel path buf);
      cbn [input_stream io.buffer io.position]; [reflexivity | lia].
Qed.

Lemma guarded_step_failures_are_isolated_witness :
  for_range 2
    (ResourceCrawler.process_dir_step Samples.args
       (ResourceCrawler.process_dir 2 Samples.args) "")
    (mk_state (io.mk Samples.image 536) [] [])
  = for_range 1
      (ResourceCrawler.process_dir_step Samples.args
         (ResourceCrawler.process_dir 2 Samples.args) "")
      (mk_state (io.mk Samples.image 544) []
         [LogRecord.mk (512 + 104) EofError])
  /\ ~ Spec.throws
        (fst (ResourceCrawler.process_dir 3 Samples.args 0 ""
                (mk_state (io.mk Samples.image 0) [] []))).
Proof.
  destruct guarded_step_failures_are_isolated as (_ & Hloop & _ & Hdir & _).
  split.
  - destruct (Hloop Samples.args (ResourceCrawler.process_dir 2 Samples.args)
                ""%string 1%nat (mk_state (io.mk Samples.image 536) [] [])
                (ImageResourceDirEntry.mk 104 true 0x7FFFFFF0
                   (Samples.high_bit + 0x7FFFFFF0)
                   (Samples.high_bit + 0x7FFFFFF0) 0)
                (io.mk Samples.image 544))
      as [Hfail _]; [vm_compute; reflexivity |].
    destruct (Hfail EofError (mk_state (io.mk Samples.image 544) [] []))
      as [Heq _]; [vm_compute; reflexivity |].
    exact Heq.
  - apply (Hdir 3%nat Samples.args 0 ""%string
             (mk_state (io.mk Samples.image 0) [] [])
             (ImageResourceDir.mk 0 0 0 0 2 1) (io.mk Samples.image 528)).
    + vm_compute. reflexivity.
    + vm_compute. discriminate.
Defined.

(** Against C4 as worded: the root directory of this image declares two
    entries and the file ends after the record of the first.  The first
    entry is collected; decoding the record of the second fails, and that
    failure is neither caught nor logged: it ends the enumeration, which
    returns no entry at all. *)
Lemma truncated_entry_table_aborts_enumeration :
  let run :=
    ExeArchiveDecoder.read_meta_impl Samples.ample 3
      (Samples.start MoreSamples.truncated_table_image) in
  fst run = Throw EofError
  /\ meta (snd run) = [ArchiveEntryImpl.mk "MANIFEST" 512 4]
  /\ logger (snd run) = [].
Proof. vm_compute. repeat split; reflexivity. Qed.
